(** * A liquidity position simulated over pool snapshots

    Shallow embedding of [LiquidUnitPosition]
    (src/common/positions/liquid-unit.position.ts) and of the constructor of
    [AerodromeLiquidPosition] (src/aerodrome/aerodrome-liquid.position.ts).

    Numbers.  A JavaScript [number] is modelled by [number] below: a real
    number, one of the two infinities, or NaN.  The special values follow
    IEEE 754 as JavaScript exposes them (NaN is absorbing and compares false
    with everything, division of a non-zero number by zero is infinite, 0/0,
    the square root and the logarithm of a negative number and
    Infinity - Infinity are NaN).  Arithmetic on finite values is exact:
    rounding to 53 bits and overflow are not modelled, and the two zeros are
    identified (a zero divisor counts as +0).

    Counters that the class only ever increments ([totalDataPoints],
    [rebalanceCount], ...) are [nat]; a [bigint] is a [Z]; the token decimals,
    which are only used as exponents of 10, are [Z]. *)

From Stdlib Require Import Reals Lra Lia Psatz ZArith List String Ascii Bool Zfloor.
From coqutil Require Import Datatypes.RecordSetters.
Import ListNotations.
Import RecordSetters.TriangleBracketNotations.

Local Open Scope R_scope.

(** ** JavaScript numbers *)

Module Js.

Inductive number : Type :=
| NaN
| Inf (negative : bool)
| Fin (r : R).

Abbreviation Infinity := (Inf false).
Abbreviation NegInfinity := (Inf true).

Definition Rltb (a b : R) : bool := if Rlt_dec a b then true else false.
Definition Rleb (a b : R) : bool := if Rle_dec a b then true else false.
Definition Reqb (a b : R) : bool := if Req_dec_T a b then true else false.

(** [x + y], [-x], [x - y], [x * y], [x / y]. *)

Definition neg (x : number) : number :=
  match x with
  | NaN => NaN
  | Inf s => Inf (negb s)
  | Fin a => Fin (- a)
  end.

Definition add (x y : number) : number :=
  match x, y with
  | Fin a, Fin b => Fin (a + b)
  | Inf s, Inf t => if Bool.eqb s t then Inf s else NaN
  | Inf s, Fin _ => Inf s
  | Fin _, Inf t => Inf t
  | _, _ => NaN
  end.

Definition sub (x y : number) : number := add x (neg y).

Definition mul (x y : number) : number :=
  match x, y with
  | Fin a, Fin b => Fin (a * b)
  | Inf s, Inf t => Inf (xorb s t)
  | Inf s, Fin a => if Reqb a 0 then NaN else Inf (xorb s (Rltb a 0))
  | Fin a, Inf t => if Reqb a 0 then NaN else Inf (xorb (Rltb a 0) t)
  | _, _ => NaN
  end.

Definition div (x y : number) : number :=
  match x, y with
  | Fin a, Fin b =>
      if Reqb b 0
      then (if Reqb a 0 then NaN else Inf (Rltb a 0))
      else Fin (a / b)
  | Fin _, Inf _ => Fin 0
  | Inf s, Fin b => Inf (xorb s (Rltb b 0))
  | _, _ => NaN
  end.

(** [x < y], [x <= y], [x > y], [x >= y], [x === y], [x !== y]. *)

Definition ltb (x y : number) : bool :=
  match x, y with
  | Fin a, Fin b => Rltb a b
  | Inf true, Fin _ => true
  | Fin _, Inf false => true
  | Inf true, Inf false => true
  | _, _ => false
  end.

Definition leb (x y : number) : bool :=
  match x, y with
  | Fin a, Fin b => Rleb a b
  | Inf true, Fin _ => true
  | Fin _, Inf false => true
  | Inf s, Inf t => implb t s
  | _, _ => false
  end.

Definition gtb (x y : number) : bool := ltb y x.
Definition geb (x y : number) : bool := leb y x.

Definition eqb (x y : number) : bool :=
  match x, y with
  | Fin a, Fin b => Reqb a b
  | Inf s, Inf t => Bool.eqb s t
  | _, _ => false
  end.

Definition neqb (x y : number) : bool := negb (eqb x y).

(** [isNaN(x)], [isFinite(x)], and [!x] (true on 0 and on NaN). *)

Definition isNaN (x : number) : bool :=
  match x with NaN => true | _ => false end.

Definition isFinite (x : number) : bool :=
  match x with Fin _ => true | _ => false end.

Definition not (x : number) : bool :=
  match x with
  | NaN => true
  | Inf _ => false
  | Fin a => Reqb a 0
  end.

(** The functions of [Math] that the class calls. *)

Definition Math_min (x y : number) : number :=
  match x, y with
  | NaN, _ | _, NaN => NaN
  | _, _ => if ltb y x then y else x
  end.

Definition Math_max (x y : number) : number :=
  match x, y with
  | NaN, _ | _, NaN => NaN
  | _, _ => if ltb x y then y else x
  end.

Definition Math_floor (x : number) : number :=
  match x with
  | Fin a => Fin (IZR (Zfloor a))
  | _ => x
  end.

Definition Math_ceil (x : number) : number :=
  match x with
  | Fin a => Fin (IZR (Zceil a))
  | _ => x
  end.

(** [Math.round] rounds to the nearest integer, a tie towards +Infinity. *)
Definition Math_round (x : number) : number :=
  match x with
  | Fin a => Fin (IZR (Zfloor (a + / 2)))
  | _ => x
  end.

Definition Math_sqrt (x : number) : number :=
  match x with
  | Fin a => if Rltb a 0 then NaN else Fin (sqrt a)
  | Inf false => Inf false
  | _ => NaN
  end.

Definition Math_log (x : number) : number :=
  match x with
  | Fin a => if Rltb a 0 then NaN else if Reqb a 0 then Inf true else Fin (ln a)
  | Inf false => Inf false
  | _ => NaN
  end.

(** [Math.pow(b, e)] is only called with the literal bases 2 and 10 and with
    integer exponents (96, 128, token decimals and their differences). *)
Definition Math_pow (b : R) (e : Z) : number := Fin (powerRZ b e).

(** [Number(z)] for a bigint [z], and a counter read as a number. *)
Definition Number (z : Z) : number := Fin (IZR z).
Definition of_nat (n : nat) : number := Fin (INR n).

(** [Number.MAX_VALUE] = (2 - 2^-52) * 2^1023. *)
Definition MAX_VALUE : number := Fin ((2 - powerRZ 2 (-52)) * powerRZ 2 1023).

End Js.

Export Js.
Coercion Fin : R >-> number.

Declare Scope js_scope.
Delimit Scope js_scope with js.
Bind Scope js_scope with number.
Infix "+" := add : js_scope.
Infix "-" := sub : js_scope.
Infix "*" := mul : js_scope.
Infix "/" := div : js_scope.
Notation "- x" := (neg x) : js_scope.
Infix "<?" := ltb (at level 70, no associativity) : js_scope.
Infix "<=?" := leb (at level 70, no associativity) : js_scope.
Infix ">?" := gtb (at level 70, no associativity) : js_scope.
Infix ">=?" := geb (at level 70, no associativity) : js_scope.
Infix "===" := eqb (at level 70, no associativity) : js_scope.
Infix "!==" := neqb (at level 70, no associativity) : js_scope.

(** ** Strings: [toUpperCase] and [includes], on ASCII text *)

Definition toUpperCase_ascii (c : ascii) : ascii :=
  let n := nat_of_ascii c in
  if (97 <=? n)%nat && (n <=? 122)%nat then ascii_of_nat (n - 32) else c.

Fixpoint toUpperCase (s : string) : string :=
  match s with
  | EmptyString => EmptyString
  | String c s' => String (toUpperCase_ascii c) (toUpperCase s')
  end.

Fixpoint includes (s sub : string) : bool :=
  prefix sub s ||
  match s with
  | EmptyString => false
  | String _ s' => includes s' sub
  end.

(** ** Types of src/common/types.ts *)

Record PositionRange := {
  tickLower : number;
  tickUpper : number;
  rangeWidth : number;
  priceLower : number;
  priceUpper : number;
}.

(** [PositionType] is ['full-range'] or a text [`${number}%`]; of the latter
    the class only reads [parseInt(positionType.replace('%', ''))], which is
    the [width] kept here (an integer, or NaN when the text has no leading
    integer). *)
Inductive PositionType :=
| full_range
| percent (width : number).

Inductive GranularityType := daily | hourly.

(** A [PoolDayData] or [PoolHourData].  The class reads the text fields only
    through [parseInt], [parseFloat] and [BigInt]; the record keeps what these
    return: [tick] is [parseInt(dataPoint.tick)], the prices are
    [parseFloat] of the text, [low] and [high] are [None] for a missing or
    empty text (the falsy case of [dataPoint.low || dataPoint.token0Price])
    and otherwise [parseFloat] of it, and a fee-growth accumulator is [None]
    when [BigInt] throws on its text.  A day record carries [date], an hour
    record [periodStartUnix]. *)
Record DataPoint := {
  tick : number;
  token0Price : number;
  token1Price : number;
  low : option number;
  high : option number;
  feeGrowthGlobal0X128 : option Z;
  feeGrowthGlobal1X128 : option Z;
  date : number;
  periodStartUnix : number;
}.

(** An element of [positionResults]. *)
Record PositionResult := {
  duration : nat;
  fees : number;
  gasCost : number;
  startingCapital : number;
}.

(** ** The state of a [LiquidUnitPosition] *)

Record Position := {
  initialAmount : number;
  currentPositionCapital : number;
  positionType : PositionType;
  positionRange : PositionRange;
  lpSharePercentage : number;
  tickSpacing : number;
  cumulativeFees : number;
  dataPointsInRange : nat;
  totalDataPoints : nat;
  rebalanceCount : nat;
  totalGasCosts : number;
  lastRebalanceDataPoint : nat;
  currentWasRebalanced : bool;
  currentPositionDataPoints : nat;
  currentPositionFees : number;
  currentTimestamp : number;
  positionResults : list PositionResult;
  currentToken0Price : number;
  currentToken1Price : number;
  initialToken0Price : number;
  initialToken1Price : number;
  currentBtcPrice : number;
  totalPoolLiquidity : number;
  poolTVL : number;
  token0Decimals : Z;
  token1Decimals : Z;
  token0Symbol : string;
  token1Symbol : string;
  currentTick : number;
  usdcAmount : number;
  btcAmount : number;
  liquidityAmount : number;
  maxPortfolioValue : number;
  minPortfolioValue : number;
  granularityType : GranularityType;
  useCompoundingAPR : bool;
  assetComposition : string;
  previousFeeGrowth0X128 : Z;
  previousFeeGrowth1X128 : Z;
}.

Local Open Scope js_scope.

(** ** Ticks and ranges *)

(** [getTickFromPrice]. *)
Definition getTickFromPrice (this : Position) (price : number) : number :=
  let invertedPrice := 1 / price in
  let valToLog :=
    invertedPrice * Math_pow 10 (token1Decimals this - token0Decimals this) in
  let tickIDXRaw := Math_log valToLog / Math_log 1.0001 in
  Math_round tickIDXRaw.

(** [getPositionTickRange]; the argument [currentTick] is not read. *)
Definition getPositionTickRange (this : Position) (currentTick : number)
    (positionType : PositionType) (tickSpacing : number) : PositionRange :=
  match positionType with
  | full_range =>
      {| tickLower := -887272;
         tickUpper := 887272;
         priceLower := 0;
         priceUpper := Infinity;
         rangeWidth := Infinity |}
  | percent width =>
      let rangePercent := width / 100 in
      let currentPrice := currentToken0Price this in
      let priceLower := currentPrice * (1 - rangePercent / 2) in
      let priceUpper := currentPrice * (1 + rangePercent / 2) in
      let rawTickLower := getTickFromPrice this priceLower in
      let rawTickUpper := getTickFromPrice this priceUpper in
      let tickLower :=
        Math_min (Math_floor (rawTickLower / tickSpacing) * tickSpacing)
                 (Math_floor (rawTickUpper / tickSpacing) * tickSpacing) in
      let tickUpper :=
        Math_max (Math_ceil (rawTickLower / tickSpacing) * tickSpacing)
                 (Math_ceil (rawTickUpper / tickSpacing) * tickSpacing) in
      {| tickLower := tickLower;
         tickUpper := tickUpper;
         priceLower := priceLower;
         priceUpper := priceUpper;
         rangeWidth := rangePercent |}
  end.

(** ** Allocation of the investment and liquidity units *)

(** [tokensForStrategy]; returns [[amount0, amount1]]. *)
Definition tokensForStrategy (minRange maxRange investment price : number)
    (decimal : Z) : number * number :=
  let sqrtPrice := Math_sqrt (price * Math_pow 10 decimal) in
  let sqrtLow := Math_sqrt (minRange * Math_pow 10 decimal) in
  let sqrtHigh := Math_sqrt (maxRange * Math_pow 10 decimal) in
  if (sqrtPrice >? sqrtLow) && (sqrtPrice <? sqrtHigh) then
    let delta :=
      investment /
      (sqrtPrice - sqrtLow +
       (1 / sqrtPrice - 1 / sqrtHigh) * (price * Math_pow 10 decimal)) in
    let amount0 := delta * (1 / sqrtPrice - 1 / sqrtHigh) * Math_pow 10 decimal in
    let amount1 := delta * (sqrtPrice - sqrtLow) in
    (amount0, amount1)
  else if sqrtPrice <? sqrtLow then
    let delta := investment / ((1 / sqrtLow - 1 / sqrtHigh) * price) in
    let amount0 := delta * (1 / sqrtLow - 1 / sqrtHigh) in
    let amount1 : number := 0 in
    (amount0, amount1)
  else
    let delta := investment / (sqrtHigh - sqrtLow) in
    let amount0 : number := 0 in
    let amount1 := delta * (sqrtHigh - sqrtLow) in
    (amount0, amount1).

(** [liquidityForStrategy]. *)
Definition liquidityForStrategy (this : Position)
    (price low high tokens0 tokens1 : number) : number :=
  let decimal := (token0Decimals this - token1Decimals this)%Z in
  let lowHigh :=
    (Math_sqrt (low * Math_pow 10 decimal) * Math_pow 2 96,
     Math_sqrt (high * Math_pow 10 decimal) * Math_pow 2 96) in
  let sPrice := Math_sqrt (price * Math_pow 10 decimal) * Math_pow 2 96 in
  let sLow := Math_min (fst lowHigh) (snd lowHigh) in
  let sHigh := Math_max (fst lowHigh) (snd lowHigh) in
  if sPrice <=? sLow then
    tokens0 /
    (Math_pow 2 96 * (sHigh - sLow) / sHigh / sLow /
     Math_pow 10 (token0Decimals this))
  else if (sPrice <=? sHigh) && (sPrice >? sLow) then
    let liq0 :=
      tokens0 /
      (Math_pow 2 96 * (sHigh - sPrice) / sHigh / sPrice /
       Math_pow 10 (token1Decimals this)) in
    let liq1 :=
      tokens1 /
      ((sPrice - sLow) / Math_pow 2 96 / Math_pow 10 (token1Decimals this)) in
    Math_min liq1 liq0
  else
    tokens1 /
    ((sHigh - sLow) / Math_pow 2 96 / Math_pow 10 (token0Decimals this)).

(** [calculateTokensAndLiquidity]: sets [usdcAmount], [btcAmount],
    [liquidityAmount] and [lpSharePercentage].  Both branches of its [if]
    assign the same three fields: the branch computes their values and the
    assignments follow it.  ([liquidityForStrategy] reads only the token
    decimals of [this].) *)
Definition calculateTokensAndLiquidity (this : Position)
    (investment price : number) : Position :=
  let assigned : number * number * number :=
    match positionType this with
    | full_range =>
        let usdInToken1 := investment / 2 in
        let usdInToken0 := investment / 2 in
        let usdcAmount := usdInToken0 in
        let btcAmount := usdInToken1 / price in
        let veryLowPrice := price * 0.01 in
        let veryHighPrice := price * 100 in
        let liquidityAmount :=
          liquidityForStrategy this price veryLowPrice veryHighPrice
            btcAmount usdcAmount in
        (usdcAmount, btcAmount, liquidityAmount)
    | percent _ =>
        let decimal := (token0Decimals this - token1Decimals this)%Z in
        let amounts :=
          tokensForStrategy (priceLower (positionRange this))
            (priceUpper (positionRange this)) investment price decimal in
        let btcAmount := fst amounts in
        let usdcAmount := snd amounts in
        let liquidityAmount :=
          liquidityForStrategy this price
            (priceLower (positionRange this))
            (priceUpper (positionRange this))
            btcAmount usdcAmount in
        (usdcAmount, btcAmount, liquidityAmount)
    end in
  let this := this <| usdcAmount := fst (fst assigned) |> in
  let this := this <| btcAmount := snd (fst assigned) |> in
  let this := this <| liquidityAmount := snd assigned |> in
  this <| lpSharePercentage := liquidityAmount this / totalPoolLiquidity this |>.

(** The constructor of [LiquidUnitPosition].  Fields with an initialiser
    take it; [lpSharePercentage] has none and is first written by
    [calculateTokensAndLiquidity] (NaN stands for its unset value until
    then). *)
Definition new_LiquidUnitPosition
    (initialAmount : number) (positionType : PositionType)
    (initialTick initialTvl initialToken0Price initialToken1Price
       totalPoolLiquidity : number)
    (token0Symbol token1Symbol : string)
    (granularityType : GranularityType) (tickSpacing : number)
    (token0Decimals token1Decimals : Z) (useCompoundingAPR : bool)
    : Position :=
  let this :=
    {| assetComposition := token0Symbol ++ "," ++ token1Symbol;
       initialAmount := initialAmount;
       currentPositionCapital := initialAmount;
       positionType := positionType;
       totalPoolLiquidity := totalPoolLiquidity;
       initialToken0Price := initialToken0Price;
       initialToken1Price := initialToken1Price;
       currentToken0Price := initialToken0Price;
       currentToken1Price := initialToken1Price;
       currentBtcPrice :=
         if includes (toUpperCase token0Symbol) "BTC" then initialToken0Price
         else if includes (toUpperCase token1Symbol) "BTC"
              then initialToken1Price
              else initialToken0Price;
       tickSpacing := tickSpacing;
       currentTick := initialTick;
       token0Decimals := token0Decimals;
       token1Decimals := token1Decimals;
       token0Symbol := token0Symbol;
       token1Symbol := token1Symbol;
       useCompoundingAPR := useCompoundingAPR;
       poolTVL := initialTvl;
       granularityType := granularityType;
       positionRange :=
         {| tickLower := NaN; tickUpper := NaN; rangeWidth := NaN;
            priceLower := NaN; priceUpper := NaN |};
       lpSharePercentage := NaN;
       cumulativeFees := 0;
       dataPointsInRange := 0;
       totalDataPoints := 0;
       rebalanceCount := 0;
       totalGasCosts := 0;
       lastRebalanceDataPoint := 0;
       currentWasRebalanced := false;
       currentPositionDataPoints := 0;
       currentPositionFees := 0;
       currentTimestamp := 0;
       positionResults := [];
       usdcAmount := 0;
       btcAmount := 0;
       liquidityAmount := 0;
       maxPortfolioValue := 0;
       minPortfolioValue := MAX_VALUE;
       previousFeeGrowth0X128 := 0;
       previousFeeGrowth1X128 := 0 |} in
  let this :=
    this <| positionRange :=
              getPositionTickRange this initialTick positionType tickSpacing |> in
  calculateTokensAndLiquidity this initialAmount initialToken0Price.

(** The constructor of [AerodromeLiquidPosition] passes its arguments on. *)
Definition new_AerodromeLiquidPosition := new_LiquidUnitPosition.

(** ** Range tests *)

(** [isPositionActive]. *)
Definition isPositionActive (this : Position) (currentTick : number) : bool :=
  (currentTick >=? tickLower (positionRange this)) &&
  (currentTick <=? tickUpper (positionRange this)).

(** [isOutOfRange]. *)
Definition isOutOfRange (this : Position) (currentTick : number) : bool :=
  negb (isPositionActive this currentTick).

(** ** Fee accrual *)

(** [calculateActiveLiquidityForCandle]. *)
Definition calculateActiveLiquidityForCandle (this : Position)
    (dataPoint : DataPoint) : number :=
  match positionType this with
  | full_range => 100
  | percent _ =>
      let low :=
        match low dataPoint with Some v => v | None => token0Price dataPoint end in
      let high :=
        match high dataPoint with Some v => v | None => token0Price dataPoint end in
      if negb (isFinite low) || negb (isFinite high) || (low <=? 0) || (high <=? 0)
      then 0
      else
        let lowTick := getTickFromPrice this low in
        let highTick := getTickFromPrice this high in
        let minTick := tickLower (positionRange this) in
        let maxTick := tickUpper (positionRange this) in
        let divider : number :=
          if highTick - lowTick !== 0 then highTick - lowTick else 1 in
        let ratioTrue : number :=
          if highTick - lowTick !== 0
          then (Math_min maxTick highTick - Math_max minTick lowTick) / divider
          else 1 in
        let ratio : number :=
          if (highTick >? minTick) && (lowTick <? maxTick)
          then ratioTrue * 100
          else 0 in
        if isNaN ratio || not ratio then 0 else ratio
  end.

(** [calculateFeesUsingSimplifiedMethod]: [None] when one of the two
    [BigInt] conversions at its head throws (nothing is written before
    them), otherwise the fees and the state with the new baseline. *)
Definition calculateFeesUsingSimplifiedMethod (this : Position)
    (dataPoint : DataPoint) (activeLiquidityPercent : number)
    : option (number * Position) :=
  match feeGrowthGlobal0X128 dataPoint, feeGrowthGlobal1X128 dataPoint with
  | Some currentFeeGrowth0, Some currentFeeGrowth1 =>
      if (totalDataPoints this =? 1)%nat then
        let this := this <| previousFeeGrowth0X128 := currentFeeGrowth0 |> in
        let this := this <| previousFeeGrowth1X128 := currentFeeGrowth1 |> in
        Some (Fin 0, this)
      else
        let fg0 :=
          Number (currentFeeGrowth0 - previousFeeGrowth0X128 this) /
          Math_pow 2 128 / Math_pow 10 (token0Decimals this) in
        let fg1 :=
          Number (currentFeeGrowth1 - previousFeeGrowth1X128 this) /
          Math_pow 2 128 / Math_pow 10 (token1Decimals this) in
        let baseFeeToken0 :=
          fg0 * liquidityAmount this * activeLiquidityPercent / 100 in
        let baseFeeToken1 :=
          fg1 * liquidityAmount this * activeLiquidityPercent / 100 in
        let feesUSD := baseFeeToken0 + baseFeeToken1 * currentToken0Price this in
        let this := this <| previousFeeGrowth0X128 := currentFeeGrowth0 |> in
        let this := this <| previousFeeGrowth1X128 := currentFeeGrowth1 |> in
        Some (feesUSD, this)
  | _, _ => None
  end.

(** [getCurrentPositionValue]. *)
Definition getCurrentPositionValue (this : Position) : number :=
  let usdcValueInUsd := usdcAmount this in
  let btcValueInUsd := btcAmount this * currentBtcPrice this in
  let totalValue := usdcValueInUsd + btcValueInUsd in
  totalValue.

(** [calculateImpermanentLoss]. *)
Definition calculateImpermanentLoss (this : Position)
    (currentBtcPrice : number) : number :=
  let priceRatio := currentBtcPrice / initialToken0Price this in
  let sqrtPriceRatio := Math_sqrt priceRatio in
  let lpValue := 2 * sqrtPriceRatio / (1 + priceRatio) in
  let holdValue : number := 1 in
  (lpValue - holdValue) * 100.

(** [update]: the fee income of the step and the next state.  The [catch]
    around the fee computation turns its exception into zero fees.  An
    [if] whose branches assign one field is written as one assignment of a
    conditional value, here and in [rebalance]. *)
Definition update (this : Position) (dataPoint : DataPoint)
    (wasRebalanced : bool) : number * Position :=
  let this := this <| totalDataPoints := S (totalDataPoints this) |> in
  let this :=
    this <| currentPositionDataPoints := S (currentPositionDataPoints this) |> in
  let this := this <| currentWasRebalanced := wasRebalanced |> in
  let this := this <| currentTick := tick dataPoint |> in
  let this := this <| currentToken0Price := token0Price dataPoint |> in
  let this := this <| currentToken1Price := token1Price dataPoint |> in
  let this :=
    this <| currentBtcPrice :=
              if includes (toUpperCase (token0Symbol this)) "BTC"
              then currentToken0Price this
              else if includes (toUpperCase (token1Symbol this)) "BTC"
                   then currentToken1Price this
                   else currentToken0Price this |> in
  let this :=
    this <| currentTimestamp :=
              match granularityType this with
              | daily => date dataPoint
              | hourly => periodStartUnix dataPoint * 1000
              end |> in
  let isInRange :=
    negb (isOutOfRange this (currentTick this)) && negb wasRebalanced in
  let activeLiquidityPercent :=
    calculateActiveLiquidityForCandle this dataPoint in
  let '(dataPointFees, this) :=
    if isInRange then
      let this := this <| dataPointsInRange := S (dataPointsInRange this) |> in
      match
        calculateFeesUsingSimplifiedMethod this dataPoint activeLiquidityPercent
      with
      | Some (feesUSD, this') => (feesUSD, this')
      | None => (Fin 0, this)
      end
    else (Fin 0, this) in
  let this := this <| cumulativeFees := cumulativeFees this + dataPointFees |> in
  let this :=
    this <| currentPositionFees := currentPositionFees this + dataPointFees |> in
  let currentPositionValue := getCurrentPositionValue this in
  let totalValue := currentPositionValue + cumulativeFees this in
  let this :=
    this <| maxPortfolioValue := Math_max (maxPortfolioValue this) totalValue |> in
  let this :=
    this <| minPortfolioValue :=
              if maxPortfolioValue this >? initialAmount this
              then Math_min (minPortfolioValue this) totalValue
              else minPortfolioValue this |> in
  (dataPointFees, this).

(** ** Rebalancing *)

(** [rebalance]. *)
Definition rebalance (this : Position) (currentTick currentTvl gasCost : number)
    (isClosing : bool) : Position :=
  let this :=
    this <| positionResults :=
              if (0 <? currentPositionDataPoints this)%nat
              then positionResults this ++
                   [ {| duration := currentPositionDataPoints this;
                        fees := currentPositionFees this;
                        gasCost := gasCost;
                        startingCapital := currentPositionCapital this |} ]
              else positionResults this |> in
  let this :=
    this <| currentPositionCapital :=
              currentPositionCapital this + currentPositionFees this |> in
  let this :=
    if negb isClosing then
      let this := this <| initialToken0Price := currentToken0Price this |> in
      let this :=
        this <| positionRange :=
                  getPositionTickRange this currentTick (positionType this)
                    (tickSpacing this) |> in
      let this :=
        calculateTokensAndLiquidity this (currentPositionCapital this)
          (currentToken0Price this) in
      let this := this <| totalGasCosts := totalGasCosts this + gasCost |> in
      let this := this <| rebalanceCount := S (rebalanceCount this) |> in
      this <| lastRebalanceDataPoint := totalDataPoints this |>
    else this in
  let this := this <| currentPositionDataPoints := 0%nat |> in
  this <| currentPositionFees := Fin 0 |>.

(** ** Annualised returns and accessors *)

(** [getRunningAPR]. *)
Definition getRunningAPR (this : Position) : number :=
  if (totalDataPoints this =? 0)%nat then 0
  else
    let netFees := cumulativeFees this - totalGasCosts this in
    match granularityType this with
    | daily =>
        netFees / initialAmount this * (365 / of_nat (totalDataPoints this)) * 100
    | hourly =>
        netFees / initialAmount this * (8760 / of_nat (totalDataPoints this)) * 100
    end.

(** [getWeightedPositionAPR]; the [for] loop is the fold over
    [allPositions], its two accumulators the pair. *)
Definition getWeightedPositionAPR (this : Position) : number :=
  let allPositions := positionResults this in
  let allPositions :=
    if (0 <? currentPositionDataPoints this)%nat then
      allPositions ++
      [ {| duration := currentPositionDataPoints this;
           fees := currentPositionFees this;
           gasCost := 0;
           startingCapital :=
             currentPositionCapital this - currentPositionFees this |} ]
    else allPositions in
  if (List.length allPositions =? 0)%nat then 0
  else
    let '(totalWeightedAPR, totalDataPoints) :=
      fold_left
        (fun '(totalWeightedAPR, totalDataPoints) position =>
           let netFees := fees position - gasCost position in
           let netAPR :=
             match granularityType this with
             | daily =>
                 netFees / startingCapital position *
                 (365 / of_nat (duration position)) * 100
             | hourly =>
                 netFees / startingCapital position *
                 (8760 / of_nat (duration position)) * 100
             end in
           (totalWeightedAPR + netAPR * of_nat (duration position),
            totalDataPoints + of_nat (duration position)))
        allPositions (Fin 0, Fin 0) in
    if totalDataPoints >? 0 then totalWeightedAPR / totalDataPoints else 0.

(** [getAPR]. *)
Definition getAPR (this : Position) : number :=
  if useCompoundingAPR this && (0 <? List.length (positionResults this))%nat
  then getWeightedPositionAPR this
  else getRunningAPR this.

(** [getGrossAPR]. *)
Definition getGrossAPR (this : Position) : number :=
  if (totalDataPoints this =? 0)%nat then 0
  else
    match granularityType this with
    | daily =>
        cumulativeFees this / initialAmount this *
        (365 / of_nat (totalDataPoints this)) * 100
    | hourly =>
        cumulativeFees this / initialAmount this *
        (8760 / of_nat (totalDataPoints this)) * 100
    end.

(** [getTimeInRange]. *)
Definition getTimeInRange (this : Position) : number :=
  if (totalDataPoints this =? 0)%nat then 0
  else of_nat (dataPointsInRange this) / of_nat (totalDataPoints this) * 100.

(** The accessors [totalFeesEarned], [netFeesEarned], [gasCostsTotal],
    [rebalanceCountTotal], [completedPositions] and [tokenAmounts]. *)
Definition totalFeesEarned (this : Position) : number := cumulativeFees this.
Definition netFeesEarned (this : Position) : number :=
  cumulativeFees this - totalGasCosts this.
Definition gasCostsTotal (this : Position) : number := totalGasCosts this.
Definition rebalanceCountTotal (this : Position) : nat := rebalanceCount this.
Definition completedPositions (this : Position) : list PositionResult :=
  positionResults this.
Definition tokenAmounts (this : Position) : number * number :=
  (usdcAmount this, btcAmount this).

(** ** The status report *)

(** [calculateHoldStrategyValue]. *)
Definition calculateHoldStrategyValue (this : Position) : number :=
  let initialToken1UsdValue := initialAmount this / 2 in
  let initialToken0Value := initialAmount this / 2 in
  let originalToken1Amount := initialToken1UsdValue / initialToken0Price this in
  let originalToken0Amount := initialToken0Value in
  let currentToken1Value := originalToken1Amount * currentToken0Price this in
  let currentToken0Value := originalToken0Amount in
  currentToken1Value + currentToken0Value.

(** The object that [currentStatus] returns (a [UnifiedOutputStatus] of
    src/common/types.ts); its field [return] is [return_] here. *)
Module UnifiedOutputStatus.

Record t := {
  timestamp : number;
  assetComposition : string;
  assetAmounts : string;
  btcPrice : number;
  totalPortfolioValue : number;
  pnl : number;
  return_ : number;
  apr : number;
  netGainVsHold : number;
  capitalUsedInTrading : number;
  totalCapitalLocked : number;
  lpFeesEarned : number;
  tradingFeesPaid : number;
  gasFeesPaid : number;
  maxDrawdown : number;
  maxGain : number;
  impermanentLoss : number;
  assetExposure : number;
  rebalancingActions : nat;
  notes : string;
}.

End UnifiedOutputStatus.

Section Status.

(** [Number.prototype.toFixed], which prints the binary value of a number
    in decimal, is a parameter of the report. *)
Variable toFixed : number -> nat -> string.

(** [currentStatus]. *)
Definition currentStatus (this : Position) (isLastDataPoint : bool)
    : UnifiedOutputStatus.t :=
  let assetAmounts :=
    (toFixed (btcAmount this) 8 ++ "," ++ toFixed (usdcAmount this) 2)%string in
  let currentPositionValue := getCurrentPositionValue this in
  let totalFeesEarned := cumulativeFees this in
  let totalValue := currentPositionValue + totalFeesEarned in
  let returnPercentage :=
    (totalValue - initialAmount this) / initialAmount this * 100 in
  let holdStrategyValue := calculateHoldStrategyValue this in
  let netGainVsHold := totalValue - holdStrategyValue in
  let capitalUsedInTrading := currentPositionValue in
  let maxDrawdown : number :=
    if maxPortfolioValue this >? initialAmount this
    then (maxPortfolioValue this - minPortfolioValue this) /
         maxPortfolioValue this * 100
    else 0 in
  let maxGain :=
    (maxPortfolioValue this - initialAmount this) / initialAmount this * 100 in
  let notes : string :=
    (if (totalDataPoints this =? 1)%nat then "Start"
     else if currentWasRebalanced this then "Rebalanced"
     else if isLastDataPoint then "End"
     else EmptyString)%string in
  {| UnifiedOutputStatus.timestamp := currentTimestamp this;
     UnifiedOutputStatus.assetComposition := assetComposition this;
     UnifiedOutputStatus.assetAmounts := assetAmounts;
     UnifiedOutputStatus.btcPrice := currentBtcPrice this;
     UnifiedOutputStatus.totalPortfolioValue := totalValue;
     UnifiedOutputStatus.pnl := totalValue - initialAmount this;
     UnifiedOutputStatus.return_ := returnPercentage;
     UnifiedOutputStatus.apr := getAPR this;
     UnifiedOutputStatus.netGainVsHold := netGainVsHold;
     UnifiedOutputStatus.capitalUsedInTrading := capitalUsedInTrading;
     UnifiedOutputStatus.totalCapitalLocked := currentPositionValue;
     UnifiedOutputStatus.lpFeesEarned := cumulativeFees this;
     UnifiedOutputStatus.tradingFeesPaid := 0;
     UnifiedOutputStatus.gasFeesPaid := totalGasCosts this;
     UnifiedOutputStatus.maxDrawdown := maxDrawdown;
     UnifiedOutputStatus.maxGain := maxGain;
     UnifiedOutputStatus.impermanentLoss :=
       calculateImpermanentLoss this (currentBtcPrice this);
     UnifiedOutputStatus.assetExposure := 0;
     UnifiedOutputStatus.rebalancingActions := rebalanceCount this;
     UnifiedOutputStatus.notes := notes |}.

End Status.

(** * Properties *)

(** ** Comparisons of reals as booleans *)

Lemma Rltb_spec (a b : R) : reflect (a < b)%R (Rltb a b).
Proof. unfold Rltb. destruct (Rlt_dec a b); constructor; assumption. Qed.

Lemma Rleb_spec (a b : R) : reflect (a <= b)%R (Rleb a b).
Proof. unfold Rleb. destruct (Rle_dec a b); constructor; assumption. Qed.

Lemma Reqb_spec (a b : R) : reflect (a = b) (Reqb a b).
Proof. unfold Reqb. destruct (Req_dec_T a b); constructor; assumption. Qed.

Lemma Rltb_true (a b : R) : (a < b)%R -> Rltb a b = true.
Proof. destruct (Rltb_spec a b); [reflexivity | contradiction]. Qed.

Lemma Rltb_false (a b : R) : (b <= a)%R -> Rltb a b = false.
Proof. destruct (Rltb_spec a b); [lra | reflexivity]. Qed.

Lemma Rleb_true (a b : R) : (a <= b)%R -> Rleb a b = true.
Proof. destruct (Rleb_spec a b); [reflexivity | contradiction]. Qed.

Lemma Rleb_false (a b : R) : (b < a)%R -> Rleb a b = false.
Proof. destruct (Rleb_spec a b); [lra | reflexivity]. Qed.

Lemma Reqb_true (a b : R) : a = b -> Reqb a b = true.
Proof. destruct (Reqb_spec a b); [reflexivity | contradiction]. Qed.

Lemma Reqb_false (a b : R) : a <> b -> Reqb a b = false.
Proof. destruct (Reqb_spec a b); [contradiction | reflexivity]. Qed.

(** Case analysis on every comparison of reals in the goal. *)
Ltac Rcases :=
  repeat match goal with
  | |- context [Rltb ?a ?b] => destruct (Rltb_spec a b)
  | |- context [Rleb ?a ?b] => destruct (Rleb_spec a b)
  | |- context [Reqb ?a ?b] => destruct (Reqb_spec a b)
  end.

(** ** Arithmetic on finite numbers *)

Lemma add_Fin (a b : R) : Fin a + Fin b = Fin (a + b).
Proof. reflexivity. Qed.

Lemma sub_Fin (a b : R) : Fin a - Fin b = Fin (a - b).
Proof. reflexivity. Qed.

Lemma mul_Fin (a b : R) : Fin a * Fin b = Fin (a * b).
Proof. reflexivity. Qed.

Lemma div_Fin (a b : R) : b <> 0%R -> Fin a / Fin b = Fin (a / b).
Proof. intros H. cbn. now rewrite (Reqb_false b 0). Qed.

Lemma ltb_Fin (a b : R) : (Fin a <? Fin b) = Rltb a b.
Proof. reflexivity. Qed.

Lemma gtb_Fin (a b : R) : (Fin a >? Fin b) = Rltb b a.
Proof. reflexivity. Qed.

Lemma leb_Fin (a b : R) : (Fin a <=? Fin b) = Rleb a b.
Proof. reflexivity. Qed.

Lemma neqb_Fin (a b : R) : (Fin a !== Fin b) = negb (Reqb a b).
Proof. reflexivity. Qed.

(** Rewrites the arithmetic of finite numbers into arithmetic of reals; the
    divisors must be known to be non-zero in the context. *)
Ltac js_fin :=
  repeat first
    [ rewrite sub_Fin | rewrite add_Fin | rewrite mul_Fin
    | match goal with
      | |- context [Fin ?a / Fin ?b] => rewrite (div_Fin a b) by assumption
      end ].

Lemma sqrt_Fin (a : R) : (0 <= a)%R -> Math_sqrt (Fin a) = Fin (sqrt a).
Proof. intros H. cbn. now rewrite Rltb_false. Qed.

Lemma log_Fin (a : R) : (0 < a)%R -> Math_log (Fin a) = Fin (ln a).
Proof.
  intros H. cbn. rewrite Rltb_false by lra.
  rewrite Reqb_false by lra. reflexivity.
Qed.

Lemma isOutOfRange_spec this t :
  isOutOfRange this t =
  negb ((tickLower (positionRange this) <=? t) && (t <=? tickUpper (positionRange this))).
Proof. reflexivity. Qed.

(** ** The range test (C10) *)


(** ** The closing rebalance (C6, C9) *)

(** The record that [rebalance] pushes for the sub-position it ends. *)
Definition closedSubPosition (this : Position) (gas : number) : PositionResult :=
  {| duration := currentPositionDataPoints this;
     fees := currentPositionFees this;
     gasCost := gas;
     startingCapital := currentPositionCapital this |}.

Lemma rebalance_closing_results this t tvl gas :
  positionResults (rebalance this t tvl gas true) =
  if (0 <? currentPositionDataPoints this)%nat
  then positionResults this ++ [closedSubPosition this gas]
  else positionResults this.
Proof. destruct this. reflexivity. Qed.

Lemma rebalance_closing_frame this t tvl gas :
  let this' := rebalance this t tvl gas true in
  usdcAmount this' = usdcAmount this /\
  btcAmount this' = btcAmount this /\
  positionRange this' = positionRange this /\
  liquidityAmount this' = liquidityAmount this /\
  lpSharePercentage this' = lpSharePercentage this /\
  totalGasCosts this' = totalGasCosts this /\
  rebalanceCount this' = rebalanceCount this /\
  cumulativeFees this' = cumulativeFees this.
Proof. destruct this. repeat split. Qed.

(** ** A freshly constructed position *)

Lemma calculateTokensAndLiquidity_frame this investment price :
  let this' := calculateTokensAndLiquidity this investment price in
  totalDataPoints this' = totalDataPoints this /\
  currentPositionDataPoints this' = currentPositionDataPoints this /\
  positionResults this' = positionResults this /\
  positionRange this' = positionRange this /\
  positionType this' = positionType this /\
  previousFeeGrowth0X128 this' = previousFeeGrowth0X128 this /\
  previousFeeGrowth1X128 this' = previousFeeGrowth1X128 this /\
  currentPositionCapital this' = currentPositionCapital this /\
  currentPositionFees this' = currentPositionFees this /\
  cumulativeFees this' = cumulativeFees this /\
  totalGasCosts this' = totalGasCosts this /\
  initialAmount this' = initialAmount this /\
  granularityType this' = granularityType this.
Proof. repeat split. Qed.

Section Fresh.

Variables (initialAmount : number) (positionType : PositionType)
  (initialTick initialTvl initialToken0Price initialToken1Price
     totalPoolLiquidity : number)
  (token0Symbol token1Symbol : string)
  (granularityType : GranularityType) (tickSpacing : number)
  (token0Decimals token1Decimals : Z) (useCompoundingAPR : bool).

Let fresh : Position :=
  new_LiquidUnitPosition initialAmount positionType initialTick initialTvl
    initialToken0Price initialToken1Price totalPoolLiquidity token0Symbol
    token1Symbol granularityType tickSpacing token0Decimals token1Decimals
    useCompoundingAPR.

Lemma new_LiquidUnitPosition_counters :
  totalDataPoints fresh = 0%nat /\
  currentPositionDataPoints fresh = 0%nat /\
  positionResults fresh = [] /\
  previousFeeGrowth0X128 fresh = 0%Z /\
  previousFeeGrowth1X128 fresh = 0%Z.
Proof.
  unfold fresh, new_LiquidUnitPosition.
  match goal with
  | |- context [calculateTokensAndLiquidity ?p ?i ?q] =>
      destruct (calculateTokensAndLiquidity_frame p i q)
        as (H1 & H2 & H3 & _ & _ & H6 & H7 & _)
  end.
  cbv zeta. rewrite H1, H2, H3, H6, H7. repeat split.
Qed.

End Fresh.

(** ** One step of [update] (C1, C2, C5) *)

(** Names the value of the outermost [let] of the goal. *)
Ltac name_let :=
  match goal with
  | |- context C [let x := ?a in @?b x] =>
      let x' := fresh "s" in
      pose (x' := a);
      let g := context C [b x'] in
      change g; cbv beta
  end.

(** The state after the assignments at the head of [update]. *)
Definition entered (this : Position) (dataPoint : DataPoint)
    (wasRebalanced : bool) : Position :=
  let this := this <| totalDataPoints := S (totalDataPoints this) |> in
  let this :=
    this <| currentPositionDataPoints := S (currentPositionDataPoints this) |> in
  let this := this <| currentWasRebalanced := wasRebalanced |> in
  let this := this <| currentTick := tick dataPoint |> in
  let this := this <| currentToken0Price := token0Price dataPoint |> in
  let this := this <| currentToken1Price := token1Price dataPoint |> in
  let this :=
    this <| currentBtcPrice :=
              if includes (toUpperCase (token0Symbol this)) "BTC"
              then currentToken0Price this
              else if includes (toUpperCase (token1Symbol this)) "BTC"
                   then currentToken1Price this
                   else currentToken0Price this |> in
  this <| currentTimestamp :=
            match granularityType this with
            | daily => date dataPoint
            | hourly => periodStartUnix dataPoint * 1000
            end |>.

(** The fee computation of the step: [None] when it is skipped or throws. *)
Definition charged (this : Position) (dataPoint : DataPoint)
    (wasRebalanced : bool) : option (number * Position) :=
  if negb (isOutOfRange this (tick dataPoint)) && negb wasRebalanced then
    calculateFeesUsingSimplifiedMethod
      ((entered this dataPoint wasRebalanced)
         <| dataPointsInRange := S (dataPointsInRange this) |>)
      dataPoint
      (calculateActiveLiquidityForCandle
         (entered this dataPoint wasRebalanced) dataPoint)
  else None.

Lemma calculateFeesUsingSimplifiedMethod_frame this dataPoint active fee after :
  calculateFeesUsingSimplifiedMethod this dataPoint active = Some (fee, after) ->
  positionResults after = positionResults this /\
  currentPositionCapital after = currentPositionCapital this /\
  initialAmount after = initialAmount this /\
  totalGasCosts after = totalGasCosts this /\
  granularityType after = granularityType this /\
  totalDataPoints after = totalDataPoints this /\
  currentPositionDataPoints after = currentPositionDataPoints this /\
  cumulativeFees after = cumulativeFees this /\
  currentPositionFees after = currentPositionFees this /\
  positionRange after = positionRange this /\
  positionType after = positionType this /\
  liquidityAmount after = liquidityAmount this /\
  token0Decimals after = token0Decimals this /\
  token1Decimals after = token1Decimals this /\
  rebalanceCount after = rebalanceCount this.
Proof.
  unfold calculateFeesUsingSimplifiedMethod.
  destruct (feeGrowthGlobal0X128 dataPoint), (feeGrowthGlobal1X128 dataPoint);
    try discriminate.
  match goal with |- context [if ?c then _ else _] => destruct c end;
    intros [= _ <-]; repeat split.
Qed.

(** What a step does to the ledger, and where its fee and its baseline come
    from. *)
Lemma update_step this dataPoint wasRebalanced :
  let fee := fst (update this dataPoint wasRebalanced) in
  let this' := snd (update this dataPoint wasRebalanced) in
  (positionResults this' = positionResults this /\
   currentPositionCapital this' = currentPositionCapital this /\
   initialAmount this' = initialAmount this /\
   totalGasCosts this' = totalGasCosts this /\
   granularityType this' = granularityType this /\
   totalDataPoints this' = S (totalDataPoints this) /\
   currentPositionDataPoints this' = S (currentPositionDataPoints this) /\
   cumulativeFees this' = cumulativeFees this + fee /\
   currentPositionFees this' = currentPositionFees this + fee /\
   positionRange this' = positionRange this /\
   positionType this' = positionType this /\
   liquidityAmount this' = liquidityAmount this /\
   token0Decimals this' = token0Decimals this /\
   token1Decimals this' = token1Decimals this /\
   rebalanceCount this' = rebalanceCount this) /\
  fee =
    match charged this dataPoint wasRebalanced with
    | Some (feesUSD, _) => feesUSD
    | None => Fin 0
    end /\
  previousFeeGrowth0X128 this' =
    match charged this dataPoint wasRebalanced with
    | Some (_, after) => previousFeeGrowth0X128 after
    | None => previousFeeGrowth0X128 this
    end /\
  previousFeeGrowth1X128 this' =
    match charged this dataPoint wasRebalanced with
    | Some (_, after) => previousFeeGrowth1X128 after
    | None => previousFeeGrowth1X128 this
    end.
Proof.
  cbv zeta.
  remember (update this dataPoint wasRebalanced) as r eqn:Hr. revert Hr.
  cbv delta [update charged]; cbv beta.
  do 10 name_let.
  match goal with
  | |- context [if ?c then _ else _] =>
      change c with (negb (isOutOfRange this (tick dataPoint)) && negb wasRebalanced)
  end.
  destruct (negb (isOutOfRange this (tick dataPoint)) && negb wasRebalanced).
  - name_let.
    match goal with
    | |- context [calculateFeesUsingSimplifiedMethod ?p ?d ?a] =>
        change (calculateFeesUsingSimplifiedMethod p d a)
          with (calculateFeesUsingSimplifiedMethod
                  ((entered this dataPoint wasRebalanced)
                     <| dataPointsInRange := S (dataPointsInRange this) |>)
                  dataPoint
                  (calculateActiveLiquidityForCandle
                     (entered this dataPoint wasRebalanced) dataPoint))
    end.
    match goal with
    | |- context [calculateFeesUsingSimplifiedMethod ?p ?d ?a] =>
        destruct (calculateFeesUsingSimplifiedMethod p d a) as [[f t]|] eqn:E
    end.
    + apply calculateFeesUsingSimplifiedMethod_frame in E.
      destruct E as (E1 & E2 & E3 & E4 & E5 & E6 & E7 & E8 & E9 &
                     E10 & E11 & E12 & E13 & E14 & E15).
      repeat name_let. intros ->. cbn [fst snd].
      repeat split;
        first [ reflexivity
              | etransitivity; [|eassumption]; reflexivity
              | idtac ].
      * change (cumulativeFees t + f = cumulativeFees this + f). now rewrite E8.
      * change (currentPositionFees t + f = currentPositionFees this + f).
        now rewrite E9.
    + repeat name_let. intros ->. repeat split.
  - repeat name_let. intros ->. repeat split.
Qed.

Lemma update_skipped this dp wr :
  isOutOfRange this (tick dp) = true \/ wr = true ->
  fst (update this dp wr) = Fin 0 /\
  previousFeeGrowth0X128 (snd (update this dp wr)) = previousFeeGrowth0X128 this /\
  previousFeeGrowth1X128 (snd (update this dp wr)) = previousFeeGrowth1X128 this.
Proof.
  intros H.
  assert (Hc : charged this dp wr = None).
  { unfold charged. destruct H as [-> | ->]; [reflexivity|].
    now rewrite andb_false_r. }
  destruct (update_step this dp wr) as (_ & Hf & H0 & H1).
  rewrite Hc in Hf, H0, H1. auto.
Qed.

Lemma update_first_fee this dp wr :
  totalDataPoints this = 0%nat -> fst (update this dp wr) = Fin 0.
Proof.
  intros Hn. destruct (update_step this dp wr) as (_ & -> & _).
  unfold charged.
  destruct (negb (isOutOfRange this (tick dp)) && negb wr); [|reflexivity].
  unfold calculateFeesUsingSimplifiedMethod.
  destruct (feeGrowthGlobal0X128 dp), (feeGrowthGlobal1X128 dp); try reflexivity.
  change (totalDataPoints _) with (S (totalDataPoints this)).
  now rewrite Hn.
Qed.

Lemma update_first_seeds this dp g0 g1 :
  totalDataPoints this = 0%nat ->
  isOutOfRange this (tick dp) = false ->
  feeGrowthGlobal0X128 dp = Some g0 ->
  feeGrowthGlobal1X128 dp = Some g1 ->
  previousFeeGrowth0X128 (snd (update this dp false)) = g0 /\
  previousFeeGrowth1X128 (snd (update this dp false)) = g1.
Proof.
  intros Hn Hr H0 H1.
  destruct (update_step this dp false) as (_ & _ & -> & ->).
  unfold charged. rewrite Hr. cbn [negb andb].
  unfold calculateFeesUsingSimplifiedMethod. rewrite H0, H1.
  change (totalDataPoints _) with (S (totalDataPoints this)).
  rewrite Hn. split; reflexivity.
Qed.

(** The fee of a later step that is charged. *)
Lemma update_charged this dp g0 g1 :
  totalDataPoints this <> 0%nat ->
  isOutOfRange this (tick dp) = false ->
  feeGrowthGlobal0X128 dp = Some g0 ->
  feeGrowthGlobal1X128 dp = Some g1 ->
  fst (update this dp false) =
    Number (g0 - previousFeeGrowth0X128 this) / Math_pow 2 128 /
      Math_pow 10 (token0Decimals this) * liquidityAmount this *
      calculateActiveLiquidityForCandle this dp / 100 +
    Number (g1 - previousFeeGrowth1X128 this) / Math_pow 2 128 /
      Math_pow 10 (token1Decimals this) * liquidityAmount this *
      calculateActiveLiquidityForCandle this dp / 100 *
      token0Price dp.
Proof.
  intros Hn Hr H0 H1.
  destruct (update_step this dp false) as (_ & -> & _).
  unfold charged. rewrite Hr. cbn [negb andb].
  unfold calculateFeesUsingSimplifiedMethod. rewrite H0, H1.
  change (totalDataPoints _) with (S (totalDataPoints this)).
  destruct (totalDataPoints this) as [|n]; [contradiction|].
  reflexivity.
Qed.

(** ** Ticks of finite positive prices *)

Lemma ln_tick_base_pos : (0 < ln 1.0001)%R.
Proof. rewrite <- ln_1. apply ln_increasing; lra. Qed.

Lemma getTickFromPrice_Fin this (a : R) :
  (0 < a)%R ->
  getTickFromPrice this (Fin a) =
  Fin (IZR (Zfloor
    (ln (1 / a * powerRZ 10 (token1Decimals this - token0Decimals this)) /
     ln 1.0001 + / 2))).
Proof.
  intros Ha. unfold getTickFromPrice, Math_pow.
  rewrite div_Fin by lra. cbn [mul].
  assert (0 < 1 / a * powerRZ 10 (token1Decimals this - token0Decimals this))%R.
  { apply Rmult_lt_0_compat; [apply Rdiv_lt_0_compat; lra | apply powerRZ_lt; lra]. }
  rewrite !log_Fin by (assumption || lra).
  rewrite div_Fin by (pose proof ln_tick_base_pos; lra).
  reflexivity.
Qed.

(** ** The active-liquidity fraction (C4) *)

(** The tail of [calculateActiveLiquidityForCandle], as a function of the
    four ticks. *)
Definition candleRatio (minTick maxTick lowTick highTick : number) : number :=
  let divider : number :=
    if highTick - lowTick !== 0 then highTick - lowTick else 1 in
  let ratioTrue : number :=
    if highTick - lowTick !== 0
    then (Math_min maxTick highTick - Math_max minTick lowTick) / divider
    else 1 in
  let ratio : number :=
    if (highTick >? minTick) && (lowTick <? maxTick)
    then ratioTrue * 100
    else 0 in
  if isNaN ratio || not ratio then 0 else ratio.

Lemma calculateActiveLiquidityForCandle_percent this dataPoint w :
  positionType this = percent w ->
  calculateActiveLiquidityForCandle this dataPoint =
  let low :=
    match low dataPoint with Some v => v | None => token0Price dataPoint end in
  let high :=
    match high dataPoint with Some v => v | None => token0Price dataPoint end in
  if negb (isFinite low) || negb (isFinite high) || (low <=? 0) || (high <=? 0)
  then 0
  else candleRatio (tickLower (positionRange this))
         (tickUpper (positionRange this))
         (getTickFromPrice this low) (getTickFromPrice this high).
Proof. intros H. unfold calculateActiveLiquidityForCandle. rewrite H. reflexivity. Qed.

Lemma unit_quotient (n d : R) :
  (0 < d)%R -> (0 <= n <= d)%R -> (0 <= n / d <= 1)%R.
Proof.
  intros Hd Hn. pose proof (Rinv_0_lt_compat d Hd) as Hi.
  assert (Hone : (d * / d = 1)%R) by (apply Rinv_r; lra).
  unfold Rdiv. nra.
Qed.

Lemma percent_bounds (n d : R) :
  d <> 0%R -> (0 <= n <= d \/ d <= n <= 0)%R -> (0 <= n / d * 100 <= 100)%R.
Proof.
  intros Hd H.
  assert (0 <= n / d <= 1)%R; [|lra].
  destruct (Rlt_le_dec 0 d) as [Hp | Hn].
  - destruct H as [H | H]; [|lra]. now apply unit_quotient.
  - destruct H as [H | H]; [lra|].
    replace (n / d)%R with ((- n) / (- d))%R by (field; assumption).
    apply unit_quotient; lra.
Qed.

Lemma candleRatio_no_overlap m M l h :
  (h <? m) = true \/ (M <? l) = true -> candleRatio m M l h = Fin 0.
Proof.
  unfold candleRatio. intros H.
  assert (Hc : (h >? m) && (l <? M) = false).
  { unfold gtb. destruct H as [H | H].
    - destruct h as [|[]|h], m as [|[]|m]; cbn in *; try discriminate; try reflexivity.
      revert H. Rcases; intros; try discriminate; try reflexivity; lra.
    - apply andb_false_iff. right.
      destruct l as [|[]|l], M as [|[]|M]; cbn in *; try discriminate; try reflexivity.
      revert H. Rcases; intros; try discriminate; try reflexivity; lra. }
  cbv zeta. rewrite Hc. cbn. now rewrite Reqb_true.
Qed.

Lemma candleRatio_bounds m M (l h : R) :
  (M <? m) = false ->
  exists r : R, candleRatio m M (Fin l) (Fin h) = Fin r /\ (0 <= r <= 100)%R.
Proof.
  intros HmM. unfold candleRatio. cbv zeta.
  destruct ((Fin h >? m) && (Fin l <? M)) eqn:Hc.
  2:{ exists 0%R. split; [|lra]. cbn. now rewrite Reqb_true. }
  apply andb_prop in Hc. destruct Hc as [Hh Hl]. unfold gtb in Hh.
  rewrite sub_Fin, neqb_Fin.
  destruct (Reqb_spec (h - l) 0) as [E | E]; cbn [negb].
  { exists 100%R. split; [|lra]. cbn. rewrite Reqb_false by lra. f_equal; lra. }
  assert (Hgen : forall n : R, (0 <= n <= h - l \/ h - l <= n <= 0)%R ->
     exists r : R,
       (if isNaN (Fin n / Fin (h - l) * 100) || not (Fin n / Fin (h - l) * 100)
        then Fin 0 else Fin n / Fin (h - l) * 100) = Fin r /\ (0 <= r <= 100)%R).
  { intros n Hn. rewrite div_Fin by assumption. cbn.
    pose proof (percent_bounds n (h - l) E Hn).
    destruct (Reqb_spec (n / (h - l) * 100) 0).
    - exists 0%R. split; [reflexivity | lra].
    - eexists. split; [reflexivity | assumption]. }
  destruct m as [|[]|m], M as [|[]|M]; cbn in Hh, Hl, HmM; try discriminate;
    cbn [Math_min Math_max ltb];
    repeat match goal with
    | H : Rltb ?a ?b = _ |- _ => destruct (Rltb_spec a b); try discriminate; clear H
    end;
    Rcases; rewrite ?sub_Fin; apply Hgen; lra.
Qed.

(** ** The three regions of [tokensForStrategy] (C3) *)

Lemma pow10_pos (d : Z) : (0 < powerRZ 10 d)%R.
Proof. apply powerRZ_lt; lra. Qed.

Lemma inv_gap (a b : R) : (0 < a)%R -> (a < b)%R -> (0 < 1 / a - 1 / b)%R.
Proof.
  intros Ha Hab.
  assert (/ b < / a)%R by (apply Rinv_lt_contravar; nra).
  lra.
Qed.

Section Regions.

Variables (lo hi inv p : R) (dec : Z).

Let pw : R := powerRZ 10 dec.
Let sp : R := sqrt (p * pw).
Let sl : R := sqrt (lo * pw).
Let sh : R := sqrt (hi * pw).

(** The denominator of [delta] when the price is inside the range. *)
Let inside : R := (sp - sl + (1 / sp - 1 / sh) * (p * pw))%R.

Lemma inside_pos : (0 <= lo)%R -> (lo < p)%R -> (p < hi)%R ->
  (0 <= sl < sp)%R /\ (sp < sh)%R /\ (0 < 1 / sp - 1 / sh)%R /\ (0 < inside)%R.
Proof.
  intros Hlo Hp Hhi. pose proof (pow10_pos dec) as Hpw. fold pw in Hpw.
  assert (H1 : (sl < sp)%R) by (apply sqrt_lt_1_alt; nra).
  assert (H2 : (sp < sh)%R) by (apply sqrt_lt_1_alt; nra).
  assert (H3 : (0 <= sl)%R) by apply sqrt_pos.
  assert (H4 : (0 < 1 / sp - 1 / sh)%R) by (apply inv_gap; lra).
  repeat split; try assumption.
  unfold inside. assert (0 < p * pw)%R by nra. nra.
Qed.

Lemma tokensForStrategy_inside :
  (0 <= lo)%R -> (lo < p)%R -> (p < hi)%R ->
  tokensForStrategy (Fin lo) (Fin hi) (Fin inv) (Fin p) dec =
  (Fin (inv / inside * (1 / sp - 1 / sh) * pw), Fin (inv / inside * (sp - sl))).
Proof.
  intros Hlo Hp Hhi. pose proof (pow10_pos dec) as Hpw. fold pw in Hpw.
  destruct (inside_pos Hlo Hp Hhi) as ((Hsl & Hsp) & Hsh & Hgap & Hin).
  unfold tokensForStrategy, Math_pow. fold pw. rewrite !mul_Fin.
  rewrite !sqrt_Fin by nra. fold sp sl sh.
  rewrite gtb_Fin, ltb_Fin, !Rltb_true by assumption. cbn [andb].
  assert (sp <> 0)%R by lra. assert (sh <> 0)%R by lra.
  js_fin. fold inside. assert (inside <> 0)%R by lra. js_fin. reflexivity.
Qed.

(** Strictly below the range: the second branch. *)
Lemma tokensForStrategy_below :
  (0 <= p)%R -> (p < lo)%R -> (lo < hi)%R ->
  snd (tokensForStrategy (Fin lo) (Fin hi) (Fin inv) (Fin p) dec) = Fin 0.
Proof.
  intros Hp Hlo Hhi. pose proof (pow10_pos dec) as Hpw. fold pw in Hpw.
  assert (H1 : (sp < sl)%R) by (apply sqrt_lt_1_alt; nra).
  unfold tokensForStrategy, Math_pow. fold pw. rewrite !mul_Fin.
  rewrite !sqrt_Fin by nra. fold sp sl sh.
  rewrite gtb_Fin, !ltb_Fin, (Rltb_false sl sp), (Rltb_true sp sl) by lra.
  reflexivity.
Qed.

Lemma tokensForStrategy_below_amounts :
  (0 < p)%R -> (p < lo)%R -> (lo < hi)%R ->
  tokensForStrategy (Fin lo) (Fin hi) (Fin inv) (Fin p) dec =
  (Fin (inv / ((1 / sl - 1 / sh) * p) * (1 / sl - 1 / sh)), Fin 0).
Proof.
  intros Hp Hlo Hhi. pose proof (pow10_pos dec) as Hpw. fold pw in Hpw.
  assert (H0 : (0 < sp)%R) by (apply sqrt_lt_R0; nra).
  assert (H1 : (sp < sl)%R) by (apply sqrt_lt_1_alt; nra).
  assert (H2 : (sl < sh)%R) by (apply sqrt_lt_1_alt; nra).
  assert (H3 : (0 < 1 / sl - 1 / sh)%R) by (apply inv_gap; lra).
  unfold tokensForStrategy, Math_pow. fold pw. rewrite !mul_Fin.
  rewrite !sqrt_Fin by nra. fold sp sl sh.
  rewrite gtb_Fin, !ltb_Fin, (Rltb_false sl sp), (Rltb_true sp sl) by lra.
  cbn [andb].
  assert (sl <> 0)%R by lra. assert (sh <> 0)%R by lra.
  js_fin. assert ((1 / sl - 1 / sh) * p <> 0)%R by nra. js_fin. reflexivity.
Qed.

(** At or above the upper bound, and also at the lower bound: the last
    branch. *)
Lemma tokensForStrategy_last :
  (0 <= lo)%R -> (lo < hi)%R -> (p = lo \/ hi <= p)%R ->
  tokensForStrategy (Fin lo) (Fin hi) (Fin inv) (Fin p) dec = (Fin 0, Fin inv).
Proof.
  intros Hlo Hhi Hp. pose proof (pow10_pos dec) as Hpw. fold pw in Hpw.
  assert (H2 : (sl < sh)%R) by (apply sqrt_lt_1_alt; nra).
  assert (H1 : (sp = sl \/ sh <= sp)%R).
  { destruct Hp as [-> | Hp]; [left; reflexivity | right].
    apply sqrt_le_1_alt. nra. }
  unfold tokensForStrategy, Math_pow. fold pw. rewrite !mul_Fin.
  rewrite !sqrt_Fin by (destruct Hp; nra). fold sp sl sh.
  rewrite gtb_Fin, !ltb_Fin.
  assert (Hc : Rltb sl sp && Rltb sp sh = false).
  { destruct H1 as [-> | H1].
    - now rewrite (Rltb_false sl sl) by lra.
    - rewrite (Rltb_false sp sh) by lra. apply andb_false_r. }
  rewrite Hc, (Rltb_false sp sl) by lra.
  assert (sh - sl <> 0)%R by lra. js_fin.
  do 2 f_equal. field. assumption.
Qed.

(** Whatever the bounds, a price at or above the upper bound gets no
    asset0. *)
Lemma tokensForStrategy_above :
  (lo < hi)%R -> (hi <= p)%R ->
  fst (tokensForStrategy (Fin lo) (Fin hi) (Fin inv) (Fin p) dec) = Fin 0.
Proof.
  intros Hhi Hp. pose proof (pow10_pos dec) as Hpw. fold pw in Hpw.
  destruct (Rlt_le_dec lo 0) as [Hneg | Hpos].
  - unfold tokensForStrategy, Math_pow. fold pw. rewrite !mul_Fin.
    cbn [Math_sqrt]. rewrite (Rltb_true (lo * pw) 0) by nra.
    assert (Hg : forall x, (x >? NaN) = false) by (now intros [|[]|]).
    assert (Hl : forall x, (x <? NaN) = false) by (now intros [|[]|]).
    rewrite Hg, Hl. reflexivity.
  - rewrite tokensForStrategy_last by (try assumption; now right). reflexivity.
Qed.

End Regions.

(** ** The three regions of [liquidityForStrategy] (C7, C8) *)

Lemma Math_min_Fin (a b : R) : Math_min (Fin a) (Fin b) = Fin (Rmin a b).
Proof.
  cbn. unfold Rmin. destruct (Rltb_spec b a), (Rle_dec a b);
    try reflexivity; f_equal; lra.
Qed.

Lemma Math_max_Fin (a b : R) : Math_max (Fin a) (Fin b) = Fin (Rmax a b).
Proof.
  cbn. unfold Rmax. destruct (Rltb_spec a b), (Rle_dec a b);
    try reflexivity; f_equal; lra.
Qed.

Lemma div_zero_zero : Fin 0 / Fin 0 = NaN.
Proof. cbn. now rewrite Reqb_true. Qed.

Lemma pow2_pos (e : Z) : (0 < powerRZ 2 e)%R.
Proof. apply powerRZ_lt; lra. Qed.

Section Liquidity.

Variables (this : Position) (p lo hi t0 t1 : R).

Let pw : R := powerRZ 10 (token0Decimals this - token1Decimals this).
Let Q96 : R := powerRZ 2 96.
Let sPrice : R := (sqrt (p * pw) * Q96)%R.
Let sLow : R := (sqrt (lo * pw) * Q96)%R.
Let sHigh : R := (sqrt (hi * pw) * Q96)%R.
Let unit0 : R := powerRZ 10 (token0Decimals this).
Let unit1 : R := powerRZ 10 (token1Decimals this).

Lemma sqrtX96_order :
  (0 <= lo)%R -> (lo < hi)%R -> (0 <= p)%R ->
  (0 <= sLow < sHigh)%R /\
  ((p <= lo -> sPrice <= sLow) /\ (lo < p -> sLow < sPrice) /\
   (p < hi -> sPrice < sHigh) /\ (p = hi -> sPrice = sHigh) /\
   (hi < p -> sHigh < sPrice))%R /\
  (0 < lo -> 0 < sLow)%R /\ (0 < p -> 0 < sPrice)%R.
Proof.
  intros Hlo Hhi Hp. pose proof (pow10_pos (token0Decimals this - token1Decimals this)) as Hpw.
  fold pw in Hpw. pose proof (pow2_pos 96) as HQ. fold Q96 in HQ.
  unfold sPrice, sLow, sHigh.
  assert (0 <= sqrt (lo * pw))%R by apply sqrt_pos.
  assert (sqrt (lo * pw) < sqrt (hi * pw))%R by (apply sqrt_lt_1_alt; nra).
  split; [nra|]. split; [|split].
  - repeat split; intros Hc.
    + assert (sqrt (p * pw) <= sqrt (lo * pw))%R by (apply sqrt_le_1_alt; nra). nra.
    + assert (sqrt (lo * pw) < sqrt (p * pw))%R by (apply sqrt_lt_1_alt; nra). nra.
    + assert (sqrt (p * pw) < sqrt (hi * pw))%R by (apply sqrt_lt_1_alt; nra). nra.
    + now subst.
    + assert (sqrt (hi * pw) < sqrt (p * pw))%R by (apply sqrt_lt_1_alt; nra). nra.
  - intros Hc. assert (0 < sqrt (lo * pw))%R by (apply sqrt_lt_R0; nra). nra.
  - intros Hc. assert (0 < sqrt (p * pw))%R by (apply sqrt_lt_R0; nra). nra.
Qed.

(** The head of [liquidityForStrategy] on finite non-negative prices. *)
Lemma liquidityForStrategy_Fin :
  (0 <= lo)%R -> (lo < hi)%R -> (0 <= p)%R ->
  liquidityForStrategy this (Fin p) (Fin lo) (Fin hi) (Fin t0) (Fin t1) =
  if Rleb sPrice sLow then
    Fin t0 /
    (Fin Q96 * (Fin sHigh - Fin sLow) / Fin sHigh / Fin sLow / Fin unit0)
  else if Rleb sPrice sHigh && Rltb sLow sPrice then
    Math_min
      (Fin t1 / ((Fin sPrice - Fin sLow) / Fin Q96 / Fin unit1))
      (Fin t0 /
       (Fin Q96 * (Fin sHigh - Fin sPrice) / Fin sHigh / Fin sPrice / Fin unit1))
  else
    Fin t1 / ((Fin sHigh - Fin sLow) / Fin Q96 / Fin unit0).
Proof.
  intros Hlo Hhi Hp.
  pose proof (pow10_pos (token0Decimals this - token1Decimals this)) as Hpw.
  fold pw in Hpw.
  destruct (sqrtX96_order Hlo Hhi Hp) as ((HL & HLH) & _).
  unfold liquidityForStrategy. cbv zeta. cbn [fst snd].
  unfold Math_pow. fold pw Q96 unit0 unit1. rewrite !mul_Fin.
  rewrite !sqrt_Fin by nra. rewrite !mul_Fin. fold sPrice sLow sHigh.
  rewrite Math_min_Fin, Math_max_Fin.
  rewrite Rmin_left, Rmax_right by lra.
  rewrite !leb_Fin, gtb_Fin. reflexivity.
Qed.

(** The divisors of the three regions. *)
Let belowUnit : R := (Q96 * (sHigh - sLow) / sHigh / sLow / unit0)%R.
Let inside0Unit : R := (Q96 * (sHigh - sPrice) / sHigh / sPrice / unit1)%R.
Let inside1Unit : R := ((sPrice - sLow) / Q96 / unit1)%R.
Let aboveUnit : R := ((sHigh - sLow) / Q96 / unit0)%R.

Lemma liquidityForStrategy_below :
  (0 < lo)%R -> (lo < hi)%R -> (0 <= p)%R -> (p <= lo)%R ->
  liquidityForStrategy this (Fin p) (Fin lo) (Fin hi) (Fin t0) (Fin t1) =
  Fin (t0 / belowUnit) /\ (0 < belowUnit)%R.
Proof.
  intros Hlo Hhi Hp Hc.
  assert (Hlo' : (0 <= lo)%R) by lra.
  destruct (sqrtX96_order Hlo' Hhi Hp) as ((HL & HLH) & (H1 & _) & H2 & _).
  specialize (H1 Hc). specialize (H2 Hlo).
  pose proof (pow2_pos 96) as HQ. fold Q96 in HQ.
  pose proof (pow10_pos (token0Decimals this)) as Hu. fold unit0 in Hu.
  assert (Hpos : (0 < belowUnit)%R).
  { unfold belowUnit. repeat apply Rdiv_lt_0_compat; nra. }
  split; [|assumption].
  rewrite liquidityForStrategy_Fin by assumption. cbv zeta.
  rewrite Rleb_true by assumption.
  assert (sHigh <> 0)%R by lra. assert (sLow <> 0)%R by lra.
  assert (unit0 <> 0)%R by lra.
  js_fin. fold belowUnit. assert (belowUnit <> 0)%R by lra. js_fin. reflexivity.
Qed.

Lemma liquidityForStrategy_inside :
  (0 <= lo)%R -> (lo < p)%R -> (p < hi)%R ->
  liquidityForStrategy this (Fin p) (Fin lo) (Fin hi) (Fin t0) (Fin t1) =
  Fin (Rmin (t1 / inside1Unit) (t0 / inside0Unit)) /\
  (0 < inside0Unit)%R /\ (0 < inside1Unit)%R.
Proof.
  intros Hlo Hp Hhi.
  assert (Hlh : (lo < hi)%R) by lra. assert (Hp' : (0 <= p)%R) by lra.
  assert (Hp'' : (0 < p)%R) by lra.
  destruct (sqrtX96_order Hlo Hlh Hp') as ((HL & HLH) & (_ & H1 & H2 & _) & _ & H3).
  specialize (H1 Hp). specialize (H2 Hhi). specialize (H3 Hp'').
  pose proof (pow2_pos 96) as HQ. fold Q96 in HQ.
  pose proof (pow10_pos (token1Decimals this)) as Hu. fold unit1 in Hu.
  assert (Hpos0 : (0 < inside0Unit)%R).
  { unfold inside0Unit. repeat apply Rdiv_lt_0_compat; nra. }
  assert (Hpos1 : (0 < inside1Unit)%R).
  { unfold inside1Unit. repeat apply Rdiv_lt_0_compat; nra. }
  split; [|split; assumption].
  rewrite liquidityForStrategy_Fin by assumption. cbv zeta.
  rewrite Rleb_false, Rleb_true, Rltb_true by lra. cbn [andb].
  assert (sHigh <> 0)%R by lra. assert (sPrice <> 0)%R by lra.
  assert (unit1 <> 0)%R by lra. assert (Q96 <> 0)%R by lra.
  js_fin. fold inside0Unit inside1Unit.
  assert (inside0Unit <> 0)%R by lra. assert (inside1Unit <> 0)%R by lra.
  js_fin. apply Math_min_Fin.
Qed.

Lemma liquidityForStrategy_above :
  (0 <= lo)%R -> (lo < hi)%R -> (hi < p)%R ->
  liquidityForStrategy this (Fin p) (Fin lo) (Fin hi) (Fin t0) (Fin t1) =
  Fin (t1 / aboveUnit) /\ (0 < aboveUnit)%R.
Proof.
  intros Hlo Hhi Hp. assert (Hp' : (0 <= p)%R) by lra.
  destruct (sqrtX96_order Hlo Hhi Hp') as ((HL & HLH) & (_ & _ & _ & _ & H1) & _).
  specialize (H1 Hp).
  pose proof (pow2_pos 96) as HQ. fold Q96 in HQ.
  pose proof (pow10_pos (token0Decimals this)) as Hu. fold unit0 in Hu.
  assert (Hpos : (0 < aboveUnit)%R).
  { unfold aboveUnit. repeat apply Rdiv_lt_0_compat; nra. }
  split; [|assumption].
  rewrite liquidityForStrategy_Fin by assumption. cbv zeta.
  rewrite Rleb_false, Rleb_false by lra. cbn [andb].
  assert (Q96 <> 0)%R by lra. assert (unit0 <> 0)%R by lra.
  js_fin. fold aboveUnit. assert (aboveUnit <> 0)%R by lra. js_fin. reflexivity.
Qed.

End Liquidity.

(** At the upper bound the in-range branch is taken and its asset0 divisor
    is zero. *)
Lemma liquidityForStrategy_upper_bound this (lo hi t1 : R) :
  (0 <= lo)%R -> (lo < hi)%R ->
  liquidityForStrategy this (Fin hi) (Fin lo) (Fin hi) (Fin 0) (Fin t1) = NaN.
Proof.
  intros Hlo Hhi. assert (Hp : (0 <= hi)%R) by lra.
  pose proof (sqrtX96_order this hi lo hi Hlo Hhi Hp) as H. cbv zeta in H.
  destruct H as ((HL & HLH) & _).
  pose proof (pow2_pos 96) as HQ.
  pose proof (pow10_pos (token1Decimals this)) as Hu.
  pose proof (liquidityForStrategy_Fin this hi lo hi 0 t1 Hlo Hhi Hp) as E.
  cbv zeta in E. rewrite E. clear E.
  rewrite Rleb_false, Rleb_true, Rltb_true by lra. cbn [andb].
  set (sHigh := (sqrt (hi * _) * _)%R) in *.
  set (sLow := (sqrt (lo * _) * _)%R) in *.
  assert (sHigh <> 0)%R by lra.
  assert (powerRZ 10 (token1Decimals this) <> 0)%R by lra.
  assert (powerRZ 2 96 <> 0)%R by lra.
  js_fin.
  replace (powerRZ 2 96 * (sHigh - sHigh) / sHigh / sHigh /
           powerRZ 10 (token1Decimals this))%R with 0%R
    by (field; split; assumption).
  rewrite div_zero_zero.
  match goal with |- Math_min ?x NaN = NaN => now destruct x end.
Qed.

(** ** Allocation followed by liquidity (C3, C7) *)

(** What [calculateTokensAndLiquidity] computes for a percentage range:
    [tokensForStrategy], then [liquidityForStrategy] on its two amounts. *)
Definition liquidityOfInvestment (this : Position)
    (minRange maxRange investment price : number) : number :=
  let amounts :=
    tokensForStrategy minRange maxRange investment price
      (token0Decimals this - token1Decimals this) in
  liquidityForStrategy this price minRange maxRange (fst amounts) (snd amounts).

Lemma liquidityForStrategy_decimals this this' price lo hi tokens0 tokens1 :
  token0Decimals this' = token0Decimals this ->
  token1Decimals this' = token1Decimals this ->
  liquidityForStrategy this' price lo hi tokens0 tokens1 =
  liquidityForStrategy this price lo hi tokens0 tokens1.
Proof. intros H0 H1. unfold liquidityForStrategy. now rewrite H0, H1. Qed.

Lemma calculateTokensAndLiquidity_percent this investment price w :
  positionType this = percent w ->
  let amounts :=
    tokensForStrategy (priceLower (positionRange this))
      (priceUpper (positionRange this)) investment price
      (token0Decimals this - token1Decimals this) in
  let this' := calculateTokensAndLiquidity this investment price in
  btcAmount this' = fst amounts /\
  usdcAmount this' = snd amounts /\
  liquidityAmount this' =
    liquidityOfInvestment this (priceLower (positionRange this))
      (priceUpper (positionRange this)) investment price.
Proof.
  intros H. unfold calculateTokensAndLiquidity, liquidityOfInvestment.
  rewrite H. cbv zeta. repeat split.
Qed.

Lemma calculateTokensAndLiquidity_full_range this investment price :
  positionType this = full_range ->
  let this' := calculateTokensAndLiquidity this investment price in
  usdcAmount this' = investment / 2 /\
  btcAmount this' = investment / 2 / price /\
  liquidityAmount this' =
    liquidityForStrategy this price (price * 0.01) (price * 100)
      (investment / 2 / price) (investment / 2).
Proof.
  intros H. unfold calculateTokensAndLiquidity.
  rewrite H. cbv zeta. repeat split.
Qed.

(** In every region but the upper bound itself the liquidity is a finite
    number that grows with the investment. *)
Lemma Rmin_monotone (a b c d : R) :
  (a <= c)%R -> (b <= d)%R -> (Rmin a b <= Rmin c d)%R.
Proof.
  intros H1 H2. apply Rmin_glb.
  - pose proof (Rmin_l a b). lra.
  - pose proof (Rmin_r a b). lra.
Qed.

Lemma quotient_monotone (a b d : R) :
  (0 < d)%R -> (a <= b)%R -> (a / d <= b / d)%R.
Proof.
  intros Hd Hab. pose proof (Rinv_0_lt_compat d Hd). unfold Rdiv. nra.
Qed.

Theorem liquidityOfInvestment_monotone this (lo hi p i1 i2 : R) :
  (0 < lo)%R -> (lo < hi)%R -> (0 < p)%R -> p <> hi ->
  (0 < i1)%R -> (i1 <= i2)%R ->
  exists l1 l2 : R,
    liquidityOfInvestment this (Fin lo) (Fin hi) (Fin i1) (Fin p) = Fin l1 /\
    liquidityOfInvestment this (Fin lo) (Fin hi) (Fin i2) (Fin p) = Fin l2 /\
    (0 <= l1 <= l2)%R.
Proof.
  intros Hlo Hhi Hp Hne Hi1 Hi2. unfold liquidityOfInvestment. cbv zeta.
  set (dec := (token0Decimals this - token1Decimals this)%Z).
  destruct (Rtotal_order p lo) as [Hb | [He | Ha]].
  - (* below the range *)
    pose proof (tokensForStrategy_below_amounts lo hi i1 p dec Hp Hb Hhi) as E1.
    pose proof (tokensForStrategy_below_amounts lo hi i2 p dec Hp Hb Hhi) as E2.
    cbv zeta in E1, E2. rewrite E1, E2. cbn [fst snd].
    set (sl := sqrt (lo * powerRZ 10 dec)) in *.
    set (sh := sqrt (hi * powerRZ 10 dec)) in *.
    assert (Hgap : (0 < 1 / sl - 1 / sh)%R).
    { apply inv_gap.
      - apply sqrt_lt_R0. pose proof (pow10_pos dec). nra.
      - apply sqrt_lt_1_alt. pose proof (pow10_pos dec). nra. }
    assert (Hd : (0 < (1 / sl - 1 / sh) * p)%R) by nra.
    pose proof (fun t0 => liquidityForStrategy_below this p lo hi t0 0 Hlo Hhi
                  (Rlt_le _ _ Hp) (Rlt_le _ _ Hb)) as L.
    cbv zeta in L.
    destruct (L (i1 / ((1 / sl - 1 / sh) * p) * (1 / sl - 1 / sh))%R) as [-> Hu].
    destruct (L (i2 / ((1 / sl - 1 / sh) * p) * (1 / sl - 1 / sh))%R) as [-> _].
    do 2 eexists. split; [reflexivity|]. split; [reflexivity|].
    assert (0 < i1 / ((1 / sl - 1 / sh) * p))%R by (apply Rdiv_lt_0_compat; lra).
    assert (i1 / ((1 / sl - 1 / sh) * p) <= i2 / ((1 / sl - 1 / sh) * p))%R
      by (apply quotient_monotone; lra).
    split.
    + apply Rlt_le, Rdiv_lt_0_compat; nra.
    + apply quotient_monotone; nra.
  - (* at the lower bound *)
    subst p.
    rewrite !tokensForStrategy_last by (try lra; now left). cbn [fst snd].
    pose proof (fun t1 => liquidityForStrategy_below this lo lo hi 0 t1 Hlo Hhi
                  (Rlt_le _ _ Hlo) (Rle_refl lo)) as L.
    cbv zeta in L.
    destruct (L i1) as [-> Hu]. destruct (L i2) as [-> _].
    do 2 eexists. split; [reflexivity|]. split; [reflexivity|].
    unfold Rdiv. rewrite Rmult_0_l. lra.
  - destruct (Rtotal_order p hi) as [Hin | [He | Hab]]; [| contradiction |].
    + (* inside the range *)
      pose proof (tokensForStrategy_inside lo hi i1 p dec (Rlt_le _ _ Hlo) Ha Hin) as E1.
      pose proof (tokensForStrategy_inside lo hi i2 p dec (Rlt_le _ _ Hlo) Ha Hin) as E2.
      pose proof (inside_pos lo hi p dec (Rlt_le _ _ Hlo) Ha Hin) as P.
      cbv zeta in E1, E2, P. rewrite E1, E2. cbn [fst snd].
      destruct P as ((Hsl & Hsp) & Hsh & Hgap & Hden).
      set (sp := sqrt (p * powerRZ 10 dec)) in *.
      set (sl := sqrt (lo * powerRZ 10 dec)) in *.
      set (sh := sqrt (hi * powerRZ 10 dec)) in *.
      set (den := (sp - sl + (1 / sp - 1 / sh) * (p * powerRZ 10 dec))%R) in *.
      pose proof (fun t0 t1 => liquidityForStrategy_inside this p lo hi t0 t1
                    (Rlt_le _ _ Hlo) Ha Hin) as L.
      cbv zeta in L.
      match goal with
      | |- context [liquidityForStrategy _ _ _ _ (Fin ?a) (Fin ?b)] =>
          destruct (L a b) as (-> & Hu0 & Hu1)
      end.
      match goal with
      | |- context [liquidityForStrategy _ _ _ _ (Fin ?a) (Fin ?b)] =>
          destruct (L a b) as (-> & _ & _)
      end.
      do 2 eexists. split; [reflexivity|]. split; [reflexivity|].
      pose proof (pow10_pos dec) as Hpw.
      assert (H1 : (0 < i1 / den)%R) by (apply Rdiv_lt_0_compat; lra).
      assert (H2 : (i1 / den <= i2 / den)%R) by (apply quotient_monotone; lra).
      assert (Hs : (0 < sp - sl)%R) by lra.
      assert (Hg : (0 < (1 / sp - 1 / sh) * powerRZ 10 dec)%R)
        by (apply Rmult_lt_0_compat; assumption).
      rewrite !(Rmult_assoc (_ / den)).
      split.
      * apply Rmin_glb; apply Rlt_le, Rdiv_lt_0_compat; try assumption;
          apply Rmult_lt_0_compat; assumption.
      * apply Rmin_monotone; apply quotient_monotone; try assumption;
          apply Rmult_le_compat_r; lra.
    + (* above the range *)
      rewrite !tokensForStrategy_last by (try lra; right; lra). cbn [fst snd].
      pose proof (fun t0 t1 => liquidityForStrategy_above this p lo hi t0 t1
                    (Rlt_le _ _ Hlo) Hhi Hab) as L.
      cbv zeta in L.
      destruct (L 0%R i1) as [-> Hu]. destruct (L 0%R i2) as [-> _].
      do 2 eexists. split; [reflexivity|]. split; [reflexivity|].
      split; [apply Rlt_le, Rdiv_lt_0_compat; lra | apply quotient_monotone; lra].
Qed.

Lemma liquidityOfInvestment_upper_bound this (lo hi inv : R) :
  (0 <= lo)%R -> (lo < hi)%R ->
  liquidityOfInvestment this (Fin lo) (Fin hi) (Fin inv) (Fin hi) = NaN.
Proof.
  intros Hlo Hhi. unfold liquidityOfInvestment. cbv zeta.
  rewrite tokensForStrategy_last by (try assumption; right; lra).
  cbn [fst snd]. now apply liquidityForStrategy_upper_bound.
Qed.


(** The regions of [tokensForStrategy] away from the lower bound: inside a
    range with a non-negative lower bound both amounts are positive, strictly
    below it the asset1 amount is 0, at or above the upper bound the asset0
    amount is 0. *)
Theorem tokensForStrategy_regions (lo hi inv p : R) (dec : Z) :
  (0 < inv)%R -> (lo < hi)%R ->
  ((0 <= lo)%R -> (lo < p)%R -> (p < hi)%R ->
   exists a0 a1 : R,
     tokensForStrategy (Fin lo) (Fin hi) (Fin inv) (Fin p) dec = (Fin a0, Fin a1) /\
     (0 < a0)%R /\ (0 < a1)%R) /\
  ((0 <= p)%R -> (p < lo)%R ->
   snd (tokensForStrategy (Fin lo) (Fin hi) (Fin inv) (Fin p) dec) = Fin 0) /\
  ((hi <= p)%R ->
   fst (tokensForStrategy (Fin lo) (Fin hi) (Fin inv) (Fin p) dec) = Fin 0).
Proof.
  intros Hinv Hlh. repeat split.
  - intros Hlo Hp Hhi.
    pose proof (tokensForStrategy_inside lo hi inv p dec Hlo Hp Hhi) as E.
    pose proof (inside_pos lo hi p dec Hlo Hp Hhi) as P.
    cbv zeta in E, P. rewrite E.
    destruct P as ((Hsl & Hsp) & Hsh & Hgap & Hden).
    do 2 eexists. split; [reflexivity|].
    pose proof (pow10_pos dec) as Hpw.
    match type of Hden with (0 < ?d)%R =>
      assert (H1 : (0 < inv / d)%R) by (apply Rdiv_lt_0_compat; lra)
    end.
    split; repeat (first [assumption | lra | apply Rmult_lt_0_compat]).
  - intros Hp Hlo. now apply tokensForStrategy_below.
  - intros Hp. now apply tokensForStrategy_above.
Qed.


(** ** The range and the balances after an allocation (C8) *)

(** The ticks of a range are multiples of the spacing that enclose the two
    raw ticks. *)
Lemma tick_grid_order (x y ts : R) :
  (0 < ts)%R ->
  (Math_min (Math_floor (Fin x / Fin ts) * Fin ts)
            (Math_floor (Fin y / Fin ts) * Fin ts) <=?
   Math_max (Math_ceil (Fin x / Fin ts) * Fin ts)
            (Math_ceil (Fin y / Fin ts) * Fin ts)) = true.
Proof.
  intros Hts. assert (ts <> 0)%R by lra. js_fin.
  cbn [Math_floor Math_ceil]. js_fin.
  rewrite Math_min_Fin, Math_max_Fin, leb_Fin. apply Rleb_true.
  pose proof (Zfloor_ceil_bound (x / ts)) as Hx.
  eapply Rle_trans; [apply Rmin_l|].
  eapply Rle_trans; [|apply Rmax_l]. nra.
Qed.

(** With a zero spacing both ticks of a percentage range are NaN. *)
Lemma tick_grid_zero (x y : number) :
  Math_min (Math_floor (x / Fin 0) * Fin 0) (Math_floor (y / Fin 0) * Fin 0) = NaN.
Proof.
  assert (E : forall z : number, Math_floor (z / Fin 0) * Fin 0 = NaN).
  { intros [|s|a]; cbn; rewrite ?Reqb_true by reflexivity; try reflexivity.
    destruct (Reqb a 0); cbn; now rewrite ?Reqb_true by reflexivity. }
  rewrite !E. reflexivity.
Qed.

(** The range of a percentage position. *)
Lemma getPositionTickRange_percent this t (w p ts : R) :
  currentToken0Price this = Fin p ->
  (0 < p)%R -> (0 < w < 200)%R -> (0 < ts)%R ->
  let range := getPositionTickRange this t (percent (Fin w)) (Fin ts) in
  priceLower range = Fin (p * (1 - w / 100 / 2)) /\
  priceUpper range = Fin (p * (1 + w / 100 / 2)) /\
  (tickLower range <=? tickUpper range) = true.
Proof.
  intros Hprice Hp Hw Hts. unfold getPositionTickRange. cbv zeta.
  cbn [priceLower priceUpper tickLower tickUpper]. rewrite Hprice.
  assert (100 <> 0)%R by lra. assert (2 <> 0)%R by lra. js_fin.
  repeat split.
  rewrite !getTickFromPrice_Fin by nra. apply tick_grid_order. assumption.
Qed.

(** The invariant of the claim: the range is ordered, and the liquidity and
    the two balances are non-negative numbers. *)
Definition wellAllocated (this : Position) : Prop :=
  (tickLower (positionRange this) <=? tickUpper (positionRange this)) = true /\
  (liquidityAmount this >=? 0) = true /\
  (usdcAmount this >=? 0) = true /\
  (btcAmount this >=? 0) = true.

(** The position types for which it holds: full range, or a width strictly
    between 0% and 200% (the lower price bound is then positive and the
    price strictly inside the bounds). *)
Definition properWidth (positionType : PositionType) : Prop :=
  match positionType with
  | full_range => True
  | percent width => exists w : R, width = Fin w /\ (0 < w < 200)%R
  end.

Lemma geb_Fin_0 (a : R) : (0 <= a)%R -> (Fin a >=? 0) = true.
Proof. intros H. unfold geb. rewrite leb_Fin. now apply Rleb_true. Qed.

Lemma Rmin_quotients_pos (a b c d : R) :
  (0 < a)%R -> (0 < b)%R -> (0 < c)%R -> (0 < d)%R -> (0 < Rmin (a / b) (c / d))%R.
Proof.
  intros Ha Hb Hc Hd. apply Rmin_glb_lt; apply Rdiv_lt_0_compat; assumption.
Qed.

(** [getPositionTickRange] followed by [calculateTokensAndLiquidity] at the
    current price, as the constructor and [rebalance] run them. *)
Lemma allocate_positive this t (inv p ts : R) :
  properWidth (positionType this) ->
  currentToken0Price this = Fin p ->
  (0 < p)%R -> (0 < inv)%R -> (0 < ts)%R ->
  let this' :=
    calculateTokensAndLiquidity
      (this <| positionRange :=
                 getPositionTickRange this t (positionType this) (Fin ts) |>)
      (Fin inv) (Fin p) in
  (tickLower (positionRange this') <=? tickUpper (positionRange this')) = true /\
  exists l u b : R,
    liquidityAmount this' = Fin l /\ usdcAmount this' = Fin u /\
    btcAmount this' = Fin b /\ (0 < l)%R /\ (0 < u)%R /\ (0 < b)%R.
Proof.
  intros Hty Hprice Hp Hinv Hts.
  set (this1 := this <| positionRange := _ |>).
  assert (Ht1 : positionType this1 = positionType this) by reflexivity.
  assert (Hd0 : token0Decimals this1 = token0Decimals this) by reflexivity.
  assert (Hd1 : token1Decimals this1 = token1Decimals this) by reflexivity.
  assert (Hr1 : positionRange this1 =
                getPositionTickRange this t (positionType this) (Fin ts))
    by reflexivity.
  destruct (calculateTokensAndLiquidity_frame this1 (Fin inv) (Fin p))
    as (_ & _ & _ & Hrange & _).
  cbv zeta. rewrite Hrange, Hr1.
  destruct (positionType this) as [|width] eqn:Hpt.
  - (* full range *)
    destruct (calculateTokensAndLiquidity_full_range this1 (Fin inv) (Fin p) Ht1)
      as (-> & -> & ->).
    assert (2 <> 0)%R by lra. assert (p <> 0)%R by lra. js_fin.
    pose proof (liquidityForStrategy_inside this1 p (p * 0.01) (p * 100)
                  (inv / 2 / p) (inv / 2)) as L.
    cbv zeta in L. destruct L as (-> & Hu0 & Hu1); try lra.
    split; [cbn; apply Rleb_true; lra|].
    assert (0 < inv / 2 / p)%R by (repeat apply Rdiv_lt_0_compat; lra).
    do 3 eexists. repeat split; try reflexivity; try lra.
    apply Rmin_quotients_pos; lra.
  - (* a percentage of the price *)
    destruct Hty as (w & -> & Hw).
    destruct (getPositionTickRange_percent this t w p ts Hprice Hp Hw Hts)
      as (Hlo & Hhi & Hticks).
    split; [assumption|].
    destruct (calculateTokensAndLiquidity_percent this1 (Fin inv) (Fin p) (Fin w) Ht1)
      as (Hb & Hu & Hl).
    rewrite Hb, Hu, Hl. unfold liquidityOfInvestment. cbv zeta.
    rewrite Hr1, Hlo, Hhi, Hd0, Hd1.
    set (lo := (p * (1 - w / 100 / 2))%R). set (hi := (p * (1 + w / 100 / 2))%R).
    assert (Hlo0 : (0 < lo)%R) by (unfold lo; nra).
    assert (Hlop : (lo < p)%R) by (unfold lo; nra).
    assert (Hphi : (p < hi)%R) by (unfold hi; nra).
    set (dec := (token0Decimals this - token1Decimals this)%Z).
    pose proof (tokensForStrategy_inside lo hi inv p dec (Rlt_le _ _ Hlo0) Hlop Hphi) as E.
    pose proof (inside_pos lo hi p dec (Rlt_le _ _ Hlo0) Hlop Hphi) as P.
    cbv zeta in E, P. rewrite E. cbn [fst snd].
    destruct P as ((Hsl & Hsp) & Hsh & Hgap & Hden).
    pose proof (pow10_pos dec) as Hpw.
    match type of Hden with (0 < ?d)%R =>
      assert (H1 : (0 < inv / d)%R) by (apply Rdiv_lt_0_compat; lra)
    end.
    match goal with
    | |- context [liquidityForStrategy _ _ _ _ (Fin ?a0) (Fin ?a1)] =>
        assert (Ha0 : (0 < a0)%R)
          by (repeat (first [assumption | lra | apply Rmult_lt_0_compat]));
        assert (Ha1 : (0 < a1)%R)
          by (repeat (first [assumption | lra | apply Rmult_lt_0_compat]));
        pose proof (liquidityForStrategy_inside this1 p lo hi a0 a1
                      (Rlt_le _ _ Hlo0) Hlop Hphi) as L
    end.
    cbv zeta in L. destruct L as (-> & Hu0 & Hu1).
    do 3 eexists. repeat split; try reflexivity; try lra.
    apply Rmin_quotients_pos; lra.
Qed.

Lemma allocate_wellAllocated this t (inv p ts : R) :
  properWidth (positionType this) ->
  currentToken0Price this = Fin p ->
  (0 < p)%R -> (0 < inv)%R -> (0 < ts)%R ->
  wellAllocated
    (calculateTokensAndLiquidity
       (this <| positionRange :=
                  getPositionTickRange this t (positionType this) (Fin ts) |>)
       (Fin inv) (Fin p)).
Proof.
  intros Hty Hprice Hp Hinv Hts.
  destruct (allocate_positive this t inv p ts Hty Hprice Hp Hinv Hts)
    as (Hticks & l & u & b & Hl & Hu & Hb & Hl0 & Hu0 & Hb0).
  unfold wellAllocated. rewrite Hl, Hu, Hb.
  repeat split; try assumption; apply geb_Fin_0; lra.
Qed.

Lemma new_LiquidUnitPosition_wellAllocated
    (inv p ts : R) positionType initialTick initialTvl initialToken1Price
    totalPoolLiquidity token0Symbol token1Symbol granularityType
    token0Decimals token1Decimals useCompoundingAPR :
  properWidth positionType -> (0 < inv)%R -> (0 < p)%R -> (0 < ts)%R ->
  wellAllocated
    (new_LiquidUnitPosition (Fin inv) positionType initialTick initialTvl
       (Fin p) initialToken1Price totalPoolLiquidity token0Symbol token1Symbol
       granularityType (Fin ts) token0Decimals token1Decimals
       useCompoundingAPR).
Proof.
  intros Hty Hinv Hp Hts. unfold new_LiquidUnitPosition. cbv zeta.
  match goal with
  | |- wellAllocated (calculateTokensAndLiquidity (?this0 <| positionRange := _ |>) _ _) =>
      exact (allocate_wellAllocated this0 initialTick inv p ts Hty eq_refl Hp Hinv Hts)
  end.
Qed.

Lemma rebalance_wellAllocated this t tvl gas (capital p ts : R) :
  properWidth (positionType this) ->
  tickSpacing this = Fin ts -> (0 < ts)%R ->
  currentToken0Price this = Fin p -> (0 < p)%R ->
  currentPositionCapital this + currentPositionFees this = Fin capital ->
  (0 < capital)%R ->
  wellAllocated (rebalance this t tvl gas false).
Proof.
  intros Hty Hts Hts0 Hprice Hp Hcap Hcap0.
  set (thisA :=
    this <| positionResults :=
              if (0 <? currentPositionDataPoints this)%nat
              then positionResults this ++
                   [ {| duration := currentPositionDataPoints this;
                        fees := currentPositionFees this;
                        gasCost := gas;
                        startingCapital := currentPositionCapital this |} ]
              else positionResults this |>
         <| currentPositionCapital :=
              currentPositionCapital this + currentPositionFees this |>
         <| initialToken0Price := currentToken0Price this |>).
  pose proof (allocate_wellAllocated thisA t capital p ts Hty Hprice Hp Hcap0 Hts0) as H.
  unfold wellAllocated in *.
  replace (Fin capital) with (currentPositionCapital thisA) in H by exact Hcap.
  replace (Fin p) with (currentToken0Price thisA) in H by exact Hprice.
  replace (Fin ts) with (tickSpacing thisA) in H by exact Hts.
  exact H.
Qed.

Lemma rebalance_closing_wellAllocated this t tvl gas :
  wellAllocated this -> wellAllocated (rebalance this t tvl gas true).
Proof.
  unfold wellAllocated.
  destruct (rebalance_closing_frame this t tvl gas) as (-> & -> & -> & -> & _).
  trivial.
Qed.

(** The position of the scenario of the specification: 100,000 USD in a
    50% range around the price 100,000, on the Aerodrome defaults. *)
Definition scenarioPosition : Position :=
  new_AerodromeLiquidPosition 100000 (percent 50) 0 1000000 100000 0.00001
    1000000 "USDC" "cbBTC" daily 2000 6 8 true.

(** The same call with a tick spacing of 0. *)
Definition zeroSpacingPosition : Position :=
  new_AerodromeLiquidPosition 100000 (percent 50) 0 1000000 100000 0.00001
    1000000 "USDC" "cbBTC" daily 0 6 8 true.

(** C8, as amended.  After construction and after a rebalance that opens a
    new sub-position, for a full-range position or a percentage width
    strictly between 0% and 200%, a positive tick spacing, and a positive
    investment (for a rebalance: capital plus accrued fees) and price, the
    range satisfies [tickLower <= tickUpper] and the liquidity and both
    balances are non-negative numbers; a closing rebalance keeps this. *)
Theorem allocation_wellAllocated :
  (forall (inv p ts : R) positionType initialTick initialTvl
          initialToken1Price totalPoolLiquidity token0Symbol token1Symbol
          granularityType token0Decimals token1Decimals useCompoundingAPR,
     properWidth positionType -> (0 < inv)%R -> (0 < p)%R -> (0 < ts)%R ->
     wellAllocated
       (new_LiquidUnitPosition (Fin inv) positionType initialTick initialTvl
          (Fin p) initialToken1Price totalPoolLiquidity token0Symbol
          token1Symbol granularityType (Fin ts) token0Decimals token1Decimals
          useCompoundingAPR)) /\
  (forall this t tvl gas (capital p ts : R),
     properWidth (positionType this) ->
     tickSpacing this = Fin ts -> (0 < ts)%R ->
     currentToken0Price this = Fin p -> (0 < p)%R ->
     currentPositionCapital this + currentPositionFees this = Fin capital ->
     (0 < capital)%R ->
     wellAllocated (rebalance this t tvl gas false)) /\
  (forall this t tvl gas,
     wellAllocated this -> wellAllocated (rebalance this t tvl gas true)).
Proof.
  split; [|split].
  - intros. now apply new_LiquidUnitPosition_wellAllocated.
  - intros. now apply rebalance_wellAllocated with capital p ts.
  - intros. now apply rebalance_closing_wellAllocated.
Qed.

Lemma allocation_wellAllocated_witness :
  wellAllocated scenarioPosition /\
  wellAllocated (rebalance scenarioPosition 0 1000000 5 false) /\
  wellAllocated (rebalance scenarioPosition 0 1000000 5 true).
Proof.
  assert (Hty : properWidth (percent 50)).
  { exists 50%R. split; [reflexivity | lra]. }
  assert (H : wellAllocated scenarioPosition).
  { apply (proj1 allocation_wellAllocated); [exact Hty | lra | lra | lra]. }
  split; [exact H | split].
  - apply (proj1 (proj2 allocation_wellAllocated)) with (100000 + 0)%R 100000%R 2000%R;
      [exact Hty | reflexivity | lra | reflexivity | lra | reflexivity | lra].
  - apply (proj2 (proj2 allocation_wellAllocated)). exact H.
Defined.

(** C8 as stated fails for a tick spacing of 0: both ticks of the range are
    NaN, and [NaN <= NaN] is false. *)
Lemma zero_tick_spacing_range_not_ordered :
  tickLower (positionRange zeroSpacingPosition) = NaN /\
  (tickLower (positionRange zeroSpacingPosition) <=?
   tickUpper (positionRange zeroSpacingPosition)) = false.
Proof.
  assert (E : tickLower (positionRange zeroSpacingPosition) = NaN).
  { unfold zeroSpacingPosition, new_AerodromeLiquidPosition, new_LiquidUnitPosition.
    cbv zeta.
    match goal with
    | |- context [calculateTokensAndLiquidity ?p ?i ?q] =>
        destruct (calculateTokensAndLiquidity_frame p i q) as (_ & _ & _ & -> & _)
    end.
    cbn [positionRange apply_update constant]. unfold getPositionTickRange.
    cbv zeta. cbn [tickLower]. apply tick_grid_zero. }
  split; [exact E | now rewrite E].
Qed.

(** ** The active-liquidity fraction of a candle (C4, continued) *)

(** [parseFloat(dataPoint.low || dataPoint.token0Price)] and the same for
    [high]. *)
Definition candleLow (dataPoint : DataPoint) : number :=
  match low dataPoint with Some v => v | None => token0Price dataPoint end.

Definition candleHigh (dataPoint : DataPoint) : number :=
  match high dataPoint with Some v => v | None => token0Price dataPoint end.

Lemma leb_true_ltb_false (x y : number) : (x <=? y) = true -> (y <? x) = false.
Proof.
  destruct x as [|[]|a], y as [|[]|b]; cbn; try discriminate; try reflexivity.
  Rcases; intros; try discriminate; try reflexivity; lra.
Qed.


(** Two ticks of the scenario: a price whose inverse, in token units, is at
    most 1/3 has a tick of at most -2000, and the inverse 1 has the tick 0. *)
Lemma ln_tick_base_small : (ln 1.0001 < 0.0001)%R.
Proof.
  replace 1.0001%R with (1 + 0.0001)%R by lra.
  rewrite <- (ln_exp 0.0001) at 2.
  apply ln_increasing; [lra | apply exp_ineq1; lra].
Qed.

Lemma ln_third : (ln (/ 3) <= -1)%R.
Proof.
  rewrite ln_Rinv by lra.
  assert (1 <= ln 3)%R; [|lra].
  rewrite <- (ln_exp 1) at 1.
  destruct (Rle_lt_or_eq_dec _ _ exp_le_3) as [Hlt | Heq].
  - left. apply ln_increasing; [apply exp_pos | assumption].
  - rewrite Heq. lra.
Qed.

Lemma getTickFromPrice_far_below this (a : R) :
  (0 < a)%R ->
  (1 / a * powerRZ 10 (token1Decimals this - token0Decimals this) <= / 3)%R ->
  exists r : R, getTickFromPrice this (Fin a) = Fin r /\ (r <= -2000)%R.
Proof.
  intros Ha Hv. rewrite getTickFromPrice_Fin by assumption.
  eexists. split; [reflexivity|].
  set (v := (1 / a * powerRZ 10 (token1Decimals this - token0Decimals this))%R) in *.
  assert (Hv0 : (0 < v)%R).
  { unfold v. apply Rmult_lt_0_compat; [apply Rdiv_lt_0_compat; lra | apply pow10_pos]. }
  assert (Hln : (ln v <= -1)%R).
  { destruct Hv as [Hlt | Heq].
    - pose proof (ln_increasing v (/ 3) Hv0 Hlt). pose proof ln_third. lra.
    - rewrite Heq. apply ln_third. }
  pose proof ln_tick_base_pos as HL0. pose proof ln_tick_base_small as HL1.
  assert (HiL : (10000 < / ln 1.0001)%R).
  { replace 10000%R with (/ 0.0001)%R by lra.
    apply Rinv_lt_contravar; [nra | assumption]. }
  pose proof (Zfloor_bound (ln v / ln 1.0001 + / 2)) as [Hfl _].
  unfold Rdiv in *. nra.
Qed.

Lemma Zceil_upper (x : R) (z : Z) : (x <= IZR z)%R -> (Zceil x <= z)%Z.
Proof.
  intros H. apply Zceil_le in H. unfold Zceil at 2 in H.
  rewrite <- opp_IZR, ZfloorZ in H. lia.
Qed.

Lemma getTickFromPrice_unit this (a : R) :
  (0 < a)%R ->
  (1 / a * powerRZ 10 (token1Decimals this - token0Decimals this) = 1)%R ->
  getTickFromPrice this (Fin a) = Fin 0.
Proof.
  intros Ha Hv. rewrite getTickFromPrice_Fin by assumption.
  rewrite Hv, ln_1. do 2 f_equal. apply Zfloor_eq.
  unfold Rdiv. rewrite Rmult_0_l. lra.
Qed.

(** Candles of the scenario: one with an unreadable low, one far below the
    range in price (low = high = 100 USD, so far above it in ticks), and one
    around the price. *)
Definition candle (low high : number) : DataPoint :=
  {| tick := 0; token0Price := 100000; token1Price := 0.00001;
     low := Some low; high := Some high;
     feeGrowthGlobal0X128 := Some 0%Z; feeGrowthGlobal1X128 := Some 0%Z;
     date := 0; periodStartUnix := 0 |}.

Definition fullRangePosition : Position :=
  new_AerodromeLiquidPosition 100000 full_range 0 1000000 100000 0.00001
    1000000 "USDC" "cbBTC" daily 2000 6 8 true.

Lemma scenarioPosition_wellAllocated : wellAllocated scenarioPosition.
Proof.
  apply new_LiquidUnitPosition_wellAllocated; try lra.
  exists 50%R. split; [reflexivity | lra].
Qed.

Lemma scenarioPosition_range :
  positionRange scenarioPosition =
  getPositionTickRange scenarioPosition 0 (percent 50) 2000.
Proof. reflexivity. Qed.

Lemma scenarioPosition_tickUpper :
  exists r : R,
    tickUpper (positionRange scenarioPosition) = Fin r /\ (r <= -2000)%R.
Proof.
  rewrite scenarioPosition_range. unfold getPositionTickRange. cbv zeta.
  cbn [tickUpper].
  change (currentToken0Price scenarioPosition) with (Fin 100000).
  assert (100 <> 0)%R by lra. assert (2 <> 0)%R by lra. js_fin.
  assert (Hk : powerRZ 10 (token1Decimals scenarioPosition -
                           token0Decimals scenarioPosition) = 100%R).
  { change (token1Decimals scenarioPosition - token0Decimals scenarioPosition)%Z
      with 2%Z. unfold powerRZ. change (Pos.to_nat 2) with 2%nat. cbn [pow]. lra. }
  destruct (getTickFromPrice_far_below scenarioPosition
              (100000 * (1 - 50 / 100 / 2))%R)
    as (rl & -> & Hrl); [lra | rewrite Hk; lra |].
  destruct (getTickFromPrice_far_below scenarioPosition
              (100000 * (1 + 50 / 100 / 2))%R)
    as (ru & -> & Hru); [lra | rewrite Hk; lra |].
  assert (2000 <> 0)%R by lra. js_fin. cbn [Math_ceil]. js_fin.
  rewrite Math_max_Fin. eexists. split; [reflexivity|].
  assert (Hcl : (IZR (Zceil (rl / 2000)) <= -1)%R)
    by (apply IZR_le, Zceil_upper; lra).
  assert (Hcu : (IZR (Zceil (ru / 2000)) <= -1)%R)
    by (apply IZR_le, Zceil_upper; lra).
  apply Rmax_lub; lra.
Qed.


(** ** Steps of the scenario (C1, C5, C6, C9, C10) *)

(** A snapshot at [tick] with the two fee-growth accumulators [g0], [g1]. *)
Definition snapshot (tick : number) (g0 g1 : Z) : DataPoint :=
  {| tick := tick; token0Price := 100000; token1Price := 0.00001;
     low := Some (Fin 90000); high := Some (Fin 110000);
     feeGrowthGlobal0X128 := Some g0; feeGrowthGlobal1X128 := Some g1;
     date := 0; periodStartUnix := 0 |}.



Lemma scenarioPosition_above_range : isOutOfRange scenarioPosition 0 = true.
Proof.
  rewrite isOutOfRange_spec.
  destruct scenarioPosition_tickUpper as (r & -> & Hr).
  rewrite leb_Fin, (Rleb_false 0 r) by lra. now rewrite andb_false_r.
Qed.



(** C5.  The first [update] of a freshly constructed position returns the
    fee income 0, whatever the snapshot holds; and when the fee computation
    runs (the tick is in range, the step is not flagged as rebalanced and
    [BigInt] reads both accumulators) it stores the accumulators of that
    snapshot. *)
Theorem first_update_fee_zero
    initialAmount positionType initialTick initialTvl initialToken0Price
    initialToken1Price totalPoolLiquidity token0Symbol token1Symbol
    granularityType tickSpacing token0Decimals token1Decimals
    useCompoundingAPR dataPoint wasRebalanced :
  let fresh :=
    new_LiquidUnitPosition initialAmount positionType initialTick initialTvl
      initialToken0Price initialToken1Price totalPoolLiquidity token0Symbol
      token1Symbol granularityType tickSpacing token0Decimals token1Decimals
      useCompoundingAPR in
  fst (update fresh dataPoint wasRebalanced) = Fin 0 /\
  (forall g0 g1 : Z,
     isOutOfRange fresh (tick dataPoint) = false ->
     wasRebalanced = false ->
     feeGrowthGlobal0X128 dataPoint = Some g0 ->
     feeGrowthGlobal1X128 dataPoint = Some g1 ->
     previousFeeGrowth0X128 (snd (update fresh dataPoint wasRebalanced)) = g0 /\
     previousFeeGrowth1X128 (snd (update fresh dataPoint wasRebalanced)) = g1).
Proof.
  intros fresh.
  assert (Hn : totalDataPoints fresh = 0%nat) by reflexivity.
  split.
  - now apply update_first_fee.
  - intros g0 g1 Hin -> H0 H1. now apply update_first_seeds.
Qed.

Lemma fullRangePosition_in_range : isOutOfRange fullRangePosition 0 = false.
Proof.
  rewrite isOutOfRange_spec.
  change (negb ((Fin (-887272) <=? Fin 0) && (Fin 0 <=? Fin 887272)) = false).
  rewrite !leb_Fin, !Rleb_true by lra. reflexivity.
Qed.

Lemma first_update_fee_zero_witness :
  fst (update fullRangePosition (snapshot 0 5 7) false) = Fin 0 /\
  previousFeeGrowth0X128 (snd (update fullRangePosition (snapshot 0 5 7) false)) =
    5%Z /\
  previousFeeGrowth1X128 (snd (update fullRangePosition (snapshot 0 5 7) false)) =
    7%Z.
Proof.
  pose proof (first_update_fee_zero 100000 full_range 0 1000000 100000 0.00001
                1000000 "USDC" "cbBTC" daily 2000 6 8 true (snapshot 0 5 7)
                false) as H.
  cbv zeta in H. destruct H as [Hfee Hseed].
  split; [exact Hfee|].
  apply Hseed; [exact fullRangePosition_in_range | reflexivity ..].
Defined.

(** C6, as amended.  A closing [rebalance] appends one record to the
    sub-position history when the open sub-position has seen at least one
    data point, and none otherwise; it leaves the token balances, the range,
    the liquidity amount and the pool share as they were. *)
Theorem closing_rebalance_frame this t tvl gas :
  let this' := rebalance this t tvl gas true in
  positionResults this' =
    (if (0 <? currentPositionDataPoints this)%nat
     then positionResults this ++ [closedSubPosition this gas]
     else positionResults this) /\
  usdcAmount this' = usdcAmount this /\
  btcAmount this' = btcAmount this /\
  tokenAmounts this' = tokenAmounts this /\
  positionRange this' = positionRange this /\
  liquidityAmount this' = liquidityAmount this /\
  lpSharePercentage this' = lpSharePercentage this.
Proof.
  intros this'. split; [apply rebalance_closing_results|].
  destruct (rebalance_closing_frame this t tvl gas) as (Hu & Hb & Hr & Hl & Hs & _).
  fold this' in Hu, Hb, Hr, Hl, Hs. unfold tokenAmounts.
  rewrite Hu, Hb. repeat split; assumption.
Qed.

(** C6 as stated fails: closing the fresh scenario position, which has seen
    no data point, appends no record. *)
Lemma closing_rebalance_appends_nothing :
  currentPositionDataPoints scenarioPosition = 0%nat /\
  positionResults (rebalance scenarioPosition 0 1000000 5 true) =
    positionResults scenarioPosition /\
  List.length (positionResults (rebalance scenarioPosition 0 1000000 5 true)) <>
    S (List.length (positionResults scenarioPosition)).
Proof.
  assert (E : positionResults (rebalance scenarioPosition 0 1000000 5 true) =
              positionResults scenarioPosition)
    by (rewrite rebalance_closing_results; reflexivity).
  split; [reflexivity | split; [exact E|]].
  rewrite E. apply Nat.neq_succ_diag_r.
Qed.

(** C9.  A closing [rebalance] leaves [totalGasCosts] and [rebalanceCount]
    as they were, so [netFeesEarned] (cumulative fees minus [totalGasCosts])
    is unchanged; its gas cost appears only in the record it appends (when
    it appends one). *)
Theorem closing_gas_not_counted this t tvl gas :
  let this' := rebalance this t tvl gas true in
  totalGasCosts this' = totalGasCosts this /\
  gasCostsTotal this' = gasCostsTotal this /\
  rebalanceCount this' = rebalanceCount this /\
  rebalanceCountTotal this' = rebalanceCountTotal this /\
  netFeesEarned this' = netFeesEarned this /\
  netFeesEarned this' = cumulativeFees this - totalGasCosts this /\
  completedPositions this' =
    (if (0 <? currentPositionDataPoints this)%nat
     then completedPositions this ++
          [ {| duration := currentPositionDataPoints this;
               fees := currentPositionFees this;
               gasCost := gas;
               startingCapital := currentPositionCapital this |} ]
     else completedPositions this).
Proof.
  intros this'.
  destruct (rebalance_closing_frame this t tvl gas)
    as (_ & _ & _ & _ & _ & Hg & Hc & Hf).
  fold this' in Hg, Hc, Hf.
  unfold gasCostsTotal, rebalanceCountTotal, netFeesEarned, completedPositions.
  rewrite Hg, Hc, Hf. repeat split.
Qed.

(** ** The two annualised returns of a run without a rebalance (C2) *)

(** The states of a run that never calls [rebalance]. *)
Inductive neverRebalanced : Position -> Prop :=
| neverRebalanced_new
    initialAmount positionType initialTick initialTvl initialToken0Price
    initialToken1Price totalPoolLiquidity token0Symbol token1Symbol
    granularityType tickSpacing token0Decimals token1Decimals
    useCompoundingAPR :
    neverRebalanced
      (new_LiquidUnitPosition initialAmount positionType initialTick
         initialTvl initialToken0Price initialToken1Price totalPoolLiquidity
         token0Symbol token1Symbol granularityType tickSpacing token0Decimals
         token1Decimals useCompoundingAPR)
| neverRebalanced_update this dataPoint wasRebalanced :
    neverRebalanced this ->
    neverRebalanced (snd (update this dataPoint wasRebalanced)).

(** On such a run the open sub-position is the whole run. *)
Lemma neverRebalanced_ledger this :
  neverRebalanced this ->
  positionResults this = [] /\
  currentPositionCapital this = initialAmount this /\
  totalGasCosts this = Fin 0 /\
  currentPositionDataPoints this = totalDataPoints this /\
  currentPositionFees this = cumulativeFees this /\
  rebalanceCount this = 0%nat.
Proof.
  induction 1 as [| this dataPoint wasRebalanced _ IH].
  - repeat split.
  - destruct IH as (I1 & I2 & I3 & I4 & I5 & I6).
    destruct (update_step this dataPoint wasRebalanced)
      as ((E1 & E2 & E3 & E4 & _ & E6 & E7 & E8 & E9 & _ & _ & _ & _ & _ & E15)
          & _).
    cbv zeta in *. rewrite E1, E2, E3, E4, E6, E7, E8, E9, E15.
    repeat split; congruence.
Qed.

(** The two returns on the ledger of such a run, with the fees [F] and the
    investment [I]: the running APR divides [F] by [I], the weighted APR
    divides it by [I - F]. *)
Definition perYear (granularityType : GranularityType) : R :=
  match granularityType with daily => 365 | hourly => 8760 end.

Lemma perYear_pos g : (0 < perYear g)%R.
Proof. destruct g; cbn; lra. Qed.

Lemma getRunningAPR_Fin this (F I : R) :
  totalDataPoints this <> 0%nat ->
  cumulativeFees this = Fin F -> totalGasCosts this = Fin 0 ->
  initialAmount this = Fin I -> I <> 0%R ->
  getRunningAPR this =
  Fin ((F - 0) / I * (perYear (granularityType this) / INR (totalDataPoints this))
       * 100).
Proof.
  intros Hn HF HG HI HI0. unfold getRunningAPR.
  destruct (totalDataPoints this) as [|n] eqn:En; [contradiction|].
  cbn [Nat.eqb]. rewrite HF, HG, HI. unfold of_nat.
  assert (INR (S n) <> 0)%R by (apply not_0_INR; discriminate).
  destruct (granularityType this); cbn [perYear]; js_fin; reflexivity.
Qed.

Lemma getWeightedPositionAPR_single this (F I : R) :
  positionResults this = [] ->
  currentPositionDataPoints this <> 0%nat ->
  currentPositionFees this = Fin F ->
  currentPositionCapital this = Fin I ->
  getWeightedPositionAPR this =
  let n := of_nat (currentPositionDataPoints this) in
  (Fin 0 +
   Fin (F - 0) / Fin (I - F) * (Fin (perYear (granularityType this)) / n) * 100 * n) /
  (Fin 0 + n).
Proof.
  intros Hr Hn HF HI. unfold getWeightedPositionAPR.
  rewrite Hr, HF, HI.
  destruct (currentPositionDataPoints this) as [|n] eqn:En; [contradiction|].
  cbn [Nat.ltb Nat.leb app List.length Nat.eqb fold_left fees gasCost
       startingCapital duration].
  rewrite !sub_Fin. cbv zeta.
  assert (Hpos : (Fin 0 + of_nat (S n) >? 0) = true).
  { unfold of_nat. rewrite add_Fin, gtb_Fin. apply Rltb_true.
    pose proof (lt_0_INR (S n) (Nat.lt_0_succ n)). lra. }
  destruct (granularityType this); cbn [perYear]; rewrite Hpos; reflexivity.
Qed.

Lemma div_Fin_zero (a : R) : a <> 0%R -> Fin a / Fin 0 = Inf (Rltb a 0).
Proof. intros H. cbn. now rewrite Reqb_true, Reqb_false. Qed.

Lemma mul_Inf_Fin s (c : R) : c <> 0%R -> Inf s * Fin c = Inf (xorb s (Rltb c 0)).
Proof. intros H. cbn. now rewrite Reqb_false. Qed.

(** Without a rebalance the two returns differ as soon as fees have been
    earned. *)
Theorem neverRebalanced_APRs_differ this (F I : R) :
  neverRebalanced this ->
  totalDataPoints this <> 0%nat ->
  cumulativeFees this = Fin F -> F <> 0%R ->
  initialAmount this = Fin I -> (0 < I)%R ->
  getWeightedPositionAPR this <> getRunningAPR this.
Proof.
  intros Hrun Hn HF HF0 HI HI0.
  destruct (neverRebalanced_ledger this Hrun) as (L1 & L2 & L3 & L4 & L5 & _).
  rewrite (getRunningAPR_Fin this F I) by (try assumption; lra).
  rewrite (getWeightedPositionAPR_single this F I)
    by (try assumption; congruence).
  cbv zeta. rewrite L4. unfold of_nat.
  set (n := INR (totalDataPoints this)).
  assert (Hn0 : (0 < n)%R) by (apply lt_0_INR; lia).
  pose proof (perYear_pos (granularityType this)) as Hk.
  set (k := perYear (granularityType this)) in *.
  assert (n <> 0)%R by lra. assert (0 + n <> 0)%R by lra.
  assert (Hc : (k / n <> 0)%R).
  { apply Rgt_not_eq. apply Rdiv_lt_0_compat; lra. }
  destruct (Req_dec_T (I - F) 0) as [E | E].
  - (* the starting capital of the record is 0: an infinite return *)
    rewrite E, div_Fin_zero by lra. js_fin.
    rewrite !mul_Inf_Fin by lra. cbn. discriminate.
  - js_fin. intros [= H'].
    assert (Hq : (F / (I - F) = F / I)%R).
    { apply Rmult_eq_reg_r with (k / n * 100)%R; [|lra].
      transitivity ((0 + (F - 0) / (I - F) * (k / n) * 100 * n) / (0 + n))%R;
        [field; repeat split; lra|].
      rewrite H'. field. split; lra. }
    apply HF0.
    assert (Hx : (F * I = F * (I - F))%R).
    { apply (f_equal (fun x => x * (I - F) * I)%R) in Hq.
      replace (F / (I - F) * (I - F) * I)%R with (F * I)%R in Hq
        by (field; lra).
      replace (F / I * (I - F) * I)%R with (F * (I - F))%R in Hq
        by (field; lra).
      exact Hq. }
    nra.
Qed.

(** A run of the scenario with two snapshots and no rebalance: the first
    seeds the baseline at 0, the second has the asset0 accumulator at
    2^128. *)
Definition firstStep : Position :=
  snd (update fullRangePosition (snapshot 0 0 0) false).

Definition earningRun : Position :=
  snd (update firstStep (snapshot 0 (2 ^ 128) 0) false).

Lemma fullRangePosition_liquidity :
  exists l : R, liquidityAmount fullRangePosition = Fin l /\ (0 < l)%R.
Proof.
  pose proof (fun this0 =>
    allocate_positive this0 0 100000 100000 2000) as H.
  unfold fullRangePosition, new_AerodromeLiquidPosition, new_LiquidUnitPosition.
  cbv zeta.
  match goal with
  | |- context [calculateTokensAndLiquidity (?this0 <| positionRange := _ |>) _ _] =>
      destruct (H this0 I eq_refl) as (_ & l & _ & _ & Hl & _ & _ & Hl0 & _);
        try lra
  end.
  exists l. split; [exact Hl | exact Hl0].
Qed.

Lemma firstStep_ledger :
  totalDataPoints firstStep = 1%nat /\
  cumulativeFees firstStep = Fin (0 + 0) /\
  initialAmount firstStep = Fin 100000 /\
  positionRange firstStep = positionRange fullRangePosition /\
  positionType firstStep = full_range /\
  liquidityAmount firstStep = liquidityAmount fullRangePosition /\
  token0Decimals firstStep = 6%Z /\ token1Decimals firstStep = 8%Z /\
  previousFeeGrowth0X128 firstStep = 0%Z /\
  previousFeeGrowth1X128 firstStep = 0%Z.
Proof.
  unfold firstStep.
  destruct (update_step fullRangePosition (snapshot 0 0 0) false)
    as ((_ & _ & E3 & _ & _ & E6 & _ & E8 & _ & E10 & E11 & E12 & E13 & E14 & _)
        & _).
  cbv zeta in *.
  destruct (update_first_seeds fullRangePosition (snapshot 0 0 0) 0 0
              eq_refl fullRangePosition_in_range eq_refl eq_refl) as (S0 & S1).
  rewrite E3, E6, E8, E10, E11, E12, E13, E14, S0, S1,
    (update_first_fee fullRangePosition (snapshot 0 0 0) false eq_refl).
  repeat split.
Qed.

Lemma earningRun_ledger :
  neverRebalanced earningRun /\
  totalDataPoints earningRun = 2%nat /\
  initialAmount earningRun = Fin 100000 /\
  exists F : R, cumulativeFees earningRun = Fin F /\ (0 < F)%R.
Proof.
  destruct firstStep_ledger
    as (T1 & T2 & T3 & T4 & T5 & T6 & T7 & T8 & T9 & T10).
  destruct fullRangePosition_liquidity as (l & Hl & Hl0).
  split; [do 2 constructor; apply neverRebalanced_new|].
  unfold earningRun.
  destruct (update_step firstStep (snapshot 0 (2 ^ 128) 0) false)
    as ((_ & _ & E3 & _ & _ & E6 & _ & E8 & _) & _).
  cbv zeta in *. rewrite E3, E6, E8, T1, T2, T3.
  split; [reflexivity | split; [reflexivity|]].
  rewrite (update_charged firstStep (snapshot 0 (2 ^ 128) 0) (2 ^ 128) 0);
    [ | rewrite T1; discriminate
      | rewrite isOutOfRange_spec, T4, <- isOutOfRange_spec;
        exact fullRangePosition_in_range
      | reflexivity | reflexivity ].
  assert (A : calculateActiveLiquidityForCandle firstStep
                (snapshot 0 (2 ^ 128) 0) = Fin 100).
  { unfold calculateActiveLiquidityForCandle. now rewrite T5. }
  rewrite A, T6, T7, T8, T9, T10, Hl. unfold Number, Math_pow.
  change (token0Price (snapshot 0 (2 ^ 128) 0)) with (Fin 100000).
  pose proof (pow2_pos 128). pose proof (pow10_pos 6). pose proof (pow10_pos 8).
  assert (powerRZ 2 128 <> 0)%R by lra. assert (powerRZ 10 6 <> 0)%R by lra.
  assert (powerRZ 10 8 <> 0)%R by lra. assert (100 <> 0)%R by lra.
  js_fin. eexists. split; [reflexivity|].
  assert (G : (0 < IZR (2 ^ 128 - 0))%R) by (apply IZR_lt; reflexivity).
  change (IZR (0 - 0)) with 0%R.
  assert (0 < IZR (2 ^ 128 - 0) / powerRZ 2 128 / powerRZ 10 6 * l * 100 / 100)%R.
  { repeat (first [apply Rdiv_lt_0_compat | apply Rmult_lt_0_compat]);
      first [assumption | lra]. }
  unfold Rdiv at 3 4 5 6. lra.
Qed.

(** C2.  On the run [earningRun] (construction, then two snapshots, no
    rebalance, two data points, fees earned) the weighted APR and the
    running APR are different numbers. *)
Theorem weighted_APR_differs_without_rebalance :
  neverRebalanced earningRun /\
  rebalanceCount earningRun = 0%nat /\
  totalDataPoints earningRun = 2%nat /\
  getWeightedPositionAPR earningRun <> getRunningAPR earningRun.
Proof.
  destruct earningRun_ledger as (Hrun & Hn & HI & F & HF & HF0).
  split; [assumption|].
  split; [apply (neverRebalanced_ledger earningRun Hrun)|].
  split; [assumption|].
  apply (neverRebalanced_APRs_differ earningRun F 100000); try assumption;
    [rewrite Hn; discriminate | lra | lra].
Qed.

(** * Properties of the whole class

    Runs of the class (the constructor, then any sequence of [update] and
    [rebalance]), the functions that the sections above use without stating
    anything about them, and the status report. *)

(** ** Every field after a step of [update] and after a [rebalance] *)

Lemma calculateFeesUsingSimplifiedMethod_after this dataPoint active fee after :
  calculateFeesUsingSimplifiedMethod this dataPoint active = Some (fee, after) ->
  exists g0 g1 : Z,
    feeGrowthGlobal0X128 dataPoint = Some g0 /\
    feeGrowthGlobal1X128 dataPoint = Some g1 /\
    after = this <| previousFeeGrowth0X128 := g0 |>
                 <| previousFeeGrowth1X128 := g1 |>.
Proof.
  unfold calculateFeesUsingSimplifiedMethod.
  destruct (feeGrowthGlobal0X128 dataPoint) as [g0|],
           (feeGrowthGlobal1X128 dataPoint) as [g1|]; try discriminate.
  match goal with |- context [if ?c then _ else _] => destruct c end;
    intros [= _ <-]; exists g0, g1; repeat split.
Qed.

(** The price that [currentBtcPrice] follows. *)
Definition btcPriceOf (token0Symbol token1Symbol : string)
    (token0Price token1Price : number) : number :=
  if includes (toUpperCase token0Symbol) "BTC" then token0Price
  else if includes (toUpperCase token1Symbol) "BTC" then token1Price
  else token0Price.

(** The fields of the state that [update_step] does not mention. *)
Lemma update_frame this dataPoint wasRebalanced :
  let this' := snd (update this dataPoint wasRebalanced) in
  (tickSpacing this' = tickSpacing this /\
   lpSharePercentage this' = lpSharePercentage this /\
   lastRebalanceDataPoint this' = lastRebalanceDataPoint this /\
   initialToken0Price this' = initialToken0Price this /\
   initialToken1Price this' = initialToken1Price this /\
   totalPoolLiquidity this' = totalPoolLiquidity this /\
   poolTVL this' = poolTVL this /\
   token0Symbol this' = token0Symbol this /\
   token1Symbol this' = token1Symbol this /\
   usdcAmount this' = usdcAmount this /\
   btcAmount this' = btcAmount this /\
   useCompoundingAPR this' = useCompoundingAPR this /\
   assetComposition this' = assetComposition this) /\
  (currentWasRebalanced this' = wasRebalanced /\
   currentTick this' = tick dataPoint /\
   currentToken0Price this' = token0Price dataPoint /\
   currentToken1Price this' = token1Price dataPoint /\
   currentBtcPrice this' =
     btcPriceOf (token0Symbol this) (token1Symbol this)
       (token0Price dataPoint) (token1Price dataPoint) /\
   currentTimestamp this' =
     match granularityType this with
     | daily => date dataPoint
     | hourly => periodStartUnix dataPoint * 1000
     end) /\
  dataPointsInRange this' =
    (if negb (isOutOfRange this (tick dataPoint)) && negb wasRebalanced
     then S (dataPointsInRange this) else dataPointsInRange this) /\
  maxPortfolioValue this' =
    Math_max (maxPortfolioValue this)
      (getCurrentPositionValue this' + cumulativeFees this') /\
  minPortfolioValue this' =
    (if maxPortfolioValue this' >? initialAmount this
     then Math_min (minPortfolioValue this)
            (getCurrentPositionValue this' + cumulativeFees this')
     else minPortfolioValue this).
Proof.
  cbv zeta.
  remember (update this dataPoint wasRebalanced) as r eqn:Hr. revert Hr.
  cbv delta [update]; cbv beta.
  do 10 name_let.
  match goal with
  | |- context [if ?c then _ else _] =>
      change c with (negb (isOutOfRange this (tick dataPoint)) && negb wasRebalanced)
  end.
  destruct (negb (isOutOfRange this (tick dataPoint)) && negb wasRebalanced).
  - name_let.
    match goal with
    | |- context [calculateFeesUsingSimplifiedMethod ?p ?d ?a] =>
        destruct (calculateFeesUsingSimplifiedMethod p d a) as [[f t]|] eqn:E
    end.
    + apply calculateFeesUsingSimplifiedMethod_after in E.
      destruct E as (g0 & g1 & _ & _ & ->).
      repeat name_let. intros ->. cbn [fst snd].
      repeat split.
    + repeat name_let. intros ->. repeat split.
  - repeat name_let. intros ->. repeat split.
Qed.

Lemma calculateTokensAndLiquidity_after this investment price :
  exists u b l : number,
    calculateTokensAndLiquidity this investment price =
    this <| usdcAmount := u |> <| btcAmount := b |> <| liquidityAmount := l |>
         <| lpSharePercentage := l / totalPoolLiquidity this |>.
Proof. eexists _, _, _. reflexivity. Qed.

(** What any [rebalance] does to the ledger and what it leaves alone. *)
Lemma rebalance_step this t tvl gas isClosing :
  let this' := rebalance this t tvl gas isClosing in
  (positionResults this' =
     (if (0 <? currentPositionDataPoints this)%nat
      then positionResults this ++ [closedSubPosition this gas]
      else positionResults this) /\
   currentPositionCapital this' =
     currentPositionCapital this + currentPositionFees this /\
   currentPositionDataPoints this' = 0%nat /\
   currentPositionFees this' = Fin 0 /\
   totalGasCosts this' =
     (if isClosing then totalGasCosts this else totalGasCosts this + gas) /\
   rebalanceCount this' =
     (if isClosing then rebalanceCount this else S (rebalanceCount this)) /\
   lastRebalanceDataPoint this' =
     (if isClosing then lastRebalanceDataPoint this else totalDataPoints this) /\
   initialToken0Price this' =
     (if isClosing then initialToken0Price this else currentToken0Price this)) /\
  (initialAmount this' = initialAmount this /\
   positionType this' = positionType this /\
   tickSpacing this' = tickSpacing this /\
   initialToken1Price this' = initialToken1Price this /\
   totalPoolLiquidity this' = totalPoolLiquidity this /\
   poolTVL this' = poolTVL this /\
   token0Decimals this' = token0Decimals this /\
   token1Decimals this' = token1Decimals this /\
   token0Symbol this' = token0Symbol this /\
   token1Symbol this' = token1Symbol this /\
   granularityType this' = granularityType this /\
   useCompoundingAPR this' = useCompoundingAPR this /\
   assetComposition this' = assetComposition this) /\
  (cumulativeFees this' = cumulativeFees this /\
   dataPointsInRange this' = dataPointsInRange this /\
   totalDataPoints this' = totalDataPoints this /\
   currentWasRebalanced this' = currentWasRebalanced this /\
   currentTimestamp this' = currentTimestamp this /\
   currentTick this' = currentTick this /\
   currentToken0Price this' = currentToken0Price this /\
   currentToken1Price this' = currentToken1Price this /\
   currentBtcPrice this' = currentBtcPrice this /\
   maxPortfolioValue this' = maxPortfolioValue this /\
   minPortfolioValue this' = minPortfolioValue this /\
   previousFeeGrowth0X128 this' = previousFeeGrowth0X128 this /\
   previousFeeGrowth1X128 this' = previousFeeGrowth1X128 this).
Proof.
  cbv zeta.
  remember (rebalance this t tvl gas isClosing) as r eqn:Hr. revert Hr.
  cbv delta [rebalance]; cbv beta. do 2 name_let.
  destruct isClosing.
  - change (negb true) with false. cbv iota. repeat name_let.
    intros ->. repeat split.
  - change (negb false) with true. cbv iota. do 2 name_let.
    subst s2; subst s1. do 2 name_let.
    match goal with
    | |- context [calculateTokensAndLiquidity ?p ?i ?q] =>
        destruct (calculateTokensAndLiquidity_after p i q) as (u & b & l & ->)
    end.
    repeat name_let. intros ->. repeat split.
Qed.

(** ** Sums of numbers *)

Lemma add_0_r (x : number) : x + Fin 0 = x.
Proof. destruct x as [|s|a]; cbn; try reflexivity. now rewrite Rplus_0_r. Qed.

Lemma add_0_l (x : number) : Fin 0 + x = x.
Proof. destruct x as [|s|a]; cbn; try reflexivity. now rewrite Rplus_0_l. Qed.

Lemma add_comm (x y : number) : x + y = y + x.
Proof.
  destruct x as [|[]|a], y as [|[]|b]; cbn; try reflexivity.
  now rewrite Rplus_comm.
Qed.

Lemma add_assoc (x y z : number) : x + (y + z) = x + y + z.
Proof.
  destruct x as [|[]|a], y as [|[]|b], z as [|[]|c]; cbn; try reflexivity.
  now rewrite Rplus_assoc.
Qed.

(** ** The states of a run *)

(** The states that a caller can reach: the constructor, then any sequence
    of [update] and [rebalance]. *)
Inductive reachable : Position -> Prop :=
| reachable_new
    initialAmount positionType initialTick initialTvl initialToken0Price
    initialToken1Price totalPoolLiquidity token0Symbol token1Symbol
    granularityType tickSpacing token0Decimals token1Decimals
    useCompoundingAPR :
    reachable
      (new_LiquidUnitPosition initialAmount positionType initialTick
         initialTvl initialToken0Price initialToken1Price totalPoolLiquidity
         token0Symbol token1Symbol granularityType tickSpacing token0Decimals
         token1Decimals useCompoundingAPR)
| reachable_update this dataPoint wasRebalanced :
    reachable this ->
    reachable (snd (update this dataPoint wasRebalanced))
| reachable_rebalance this currentTick currentTvl gasCost isClosing :
    reachable this ->
    reachable (rebalance this currentTick currentTvl gasCost isClosing).

(** The total duration and the total fees of a list of records. *)
Definition totalDuration (records : list PositionResult) : nat :=
  fold_right (fun r n => (duration r + n)%nat) 0%nat records.

Definition totalFees (records : list PositionResult) : number :=
  fold_left (fun acc r => acc + fees r) records (Fin 0).

Lemma totalDuration_app rs r :
  totalDuration (rs ++ [r]) = (totalDuration rs + duration r)%nat.
Proof.
  unfold totalDuration. induction rs as [|r' rs IH]; cbn; [lia|].
  rewrite IH. lia.
Qed.

Lemma totalFees_app rs r : totalFees (rs ++ [r]) = totalFees rs + fees r.
Proof. unfold totalFees. now rewrite fold_left_app. Qed.

(** The records chain the capital: each one starts with the capital and the
    fees of the one before. *)
Fixpoint compounds (capital : number) (records : list PositionResult)
    (final : number) : Prop :=
  match records with
  | [] => final = capital
  | r :: records' =>
      startingCapital r = capital /\
      compounds (capital + fees r) records' final
  end.

Lemma compounds_app capital rs final r :
  compounds capital rs final -> startingCapital r = final ->
  compounds capital (rs ++ [r]) (final + fees r).
Proof.
  revert capital. induction rs as [|r' rs IH]; cbn; intros capital H Hr.
  - split; congruence.
  - destruct H as [H1 H2]. split; [assumption | now apply IH].
Qed.

Lemma reachable_counters_inv this :
  reachable this ->
  (dataPointsInRange this <= totalDataPoints this)%nat /\
  (lastRebalanceDataPoint this <= totalDataPoints this)%nat /\
  (totalDuration (positionResults this) + currentPositionDataPoints this =
   totalDataPoints this)%nat /\
  Forall (fun r => (0 < duration r)%nat) (positionResults this).
Proof.
  induction 1 as [| this dp wr _ IH | this t tvl gas closing _ IH].
  - repeat split; try apply Nat.le_refl. constructor.
  - destruct IH as (I1 & I2 & I3 & I4).
    destruct (update_step this dp wr)
      as ((E1 & _ & _ & _ & _ & E6 & E7 & _) & _).
    destruct (update_frame this dp wr)
      as ((_ & _ & F3 & _) & _ & F & _).
    cbv zeta in *. rewrite E1, E6, E7, F3, F.
    repeat split; try assumption; try lia.
    destruct (negb _ && negb _); cbv iota; lia.
  - destruct IH as (I1 & I2 & I3 & I4).
    destruct (rebalance_step this t tvl gas closing)
      as ((E1 & _ & E3 & _ & _ & _ & E7 & _) & _ & (_ & F2 & F3 & _)).
    cbv zeta in *. rewrite E1, E3, E7, F2, F3.
    repeat split; try assumption.
    + destruct closing; [assumption | apply Nat.le_refl].
    + destruct (currentPositionDataPoints this) as [|n] eqn:En;
        cbn [Nat.ltb Nat.leb].
      * lia.
      * rewrite totalDuration_app. cbn [duration closedSubPosition]. lia.
    + destruct (currentPositionDataPoints this) as [|n] eqn:En;
        cbn [Nat.ltb Nat.leb]; [assumption|].
      apply Forall_app. split; [assumption|].
      constructor; [|constructor]. cbn [duration closedSubPosition]. lia.
Qed.

Lemma reachable_fees_inv this :
  reachable this ->
  (currentPositionDataPoints this = 0%nat -> currentPositionFees this = Fin 0) /\
  totalFees (positionResults this) + currentPositionFees this =
    cumulativeFees this /\
  currentPositionCapital this + currentPositionFees this =
    initialAmount this + cumulativeFees this /\
  compounds (initialAmount this) (positionResults this)
    (currentPositionCapital this).
Proof.
  induction 1 as [| this dp wr _ IH | this t tvl gas closing _ IH].
  - repeat split. apply add_0_r.
  - destruct IH as (I1 & I2 & I3 & I4).
    destruct (update_step this dp wr)
      as ((E1 & E2 & E3 & _ & _ & _ & E7 & E8 & E9 & _) & _).
    cbv zeta in *. rewrite E1, E2, E3, E7, E8, E9.
    repeat split; try assumption.
    + discriminate.
    + now rewrite add_assoc, I2.
    + now rewrite add_assoc, I3, <- add_assoc.
  - destruct IH as (I1 & I2 & I3 & I4).
    destruct (rebalance_step this t tvl gas closing)
      as ((E1 & E2 & E3 & E4 & _) & (F1 & _) & (G1 & _)).
    cbv zeta in *. rewrite E1, E2, E4, F1, G1.
    repeat split.
    + destruct (currentPositionDataPoints this) as [|n]; cbn [Nat.ltb Nat.leb].
      * rewrite add_0_r. rewrite <- I2, (I1 eq_refl). now rewrite add_0_r.
      * rewrite totalFees_app. cbn [fees closedSubPosition].
        now rewrite add_0_r.
    + now rewrite add_0_r.
    + destruct (currentPositionDataPoints this) as [|n]; cbn [Nat.ltb Nat.leb].
      * rewrite (I1 eq_refl), add_0_r. assumption.
      * apply (compounds_app _ _ _ (closedSubPosition this gas)); [assumption|].
        reflexivity.
Qed.

(** ** Impermanent loss *)

(** X1.  The loss is never a gain: for positive prices it lies in (-100, 0], and
    it is 0 exactly at the initial price. *)
Theorem impermanentLoss_never_positive this (p0 p : R) :
  initialToken0Price this = Fin p0 -> (0 < p0)%R -> (0 < p)%R ->
  exists v : R,
    calculateImpermanentLoss this (Fin p) = Fin v /\
    (-100 < v <= 0)%R /\ (v = 0%R <-> p = p0).
Proof.
  intros H0 Hp0 Hp. unfold calculateImpermanentLoss. rewrite H0.
  assert (p0 <> 0)%R by lra. js_fin.
  remember (p / p0)%R as r eqn:Er.
  assert (Hr : (0 < r)%R) by (rewrite Er; apply Rdiv_lt_0_compat; lra).
  rewrite sqrt_Fin by lra.
  pose proof (sqrt_lt_R0 r Hr) as Hs.
  pose proof (sqrt_sqrt r (Rlt_le _ _ Hr)) as Hss.
  pose proof sqrt_1 as Hs1.
  remember (sqrt r) as s eqn:Es.
  assert (1 + r <> 0)%R by lra. js_fin.
  eexists. split; [reflexivity|].
  remember (2 * s / (1 + r))%R as q eqn:Eqq.
  assert (Hq : (q = 1 - (s - 1) * (s - 1) / (1 + r))%R).
  { rewrite Eqq, <- Hss. field. apply Rgt_not_eq. nra. }
  assert (Hq0 : (0 < q)%R) by (rewrite Eqq; apply Rdiv_lt_0_compat; lra).
  assert (Hd : (0 <= (s - 1) * (s - 1) / (1 + r))%R).
  { apply Rmult_le_pos; [exact (Rle_0_sqr (s - 1))|].
    left. apply Rinv_0_lt_compat. lra. }
  split; [lra|]. split.
  - intros Hv. assert (Hz : ((s - 1) * (s - 1) / (1 + r) = 0)%R) by lra.
    apply (f_equal (fun x => x * (1 + r))%R) in Hz.
    replace ((s - 1) * (s - 1) / (1 + r) * (1 + r))%R
      with ((s - 1) * (s - 1))%R in Hz by (field; lra).
    assert (s = 1)%R by nra.
    assert (Hr1 : r = 1%R) by nra.
    rewrite Er in Hr1. apply (f_equal (fun x => x * p0)%R) in Hr1.
    replace (p / p0 * p0)%R with p in Hr1 by (field; lra). lra.
  - intros ->.
    assert (Hr1 : r = 1%R) by (rewrite Er; field; lra).
    assert (s = 1%R) by (rewrite Es, Hr1; exact Hs1).
    subst q. subst s. rewrite Hr1, Hs1. lra.
Qed.

Lemma impermanentLoss_never_positive_witness :
  exists v : R,
    calculateImpermanentLoss fullRangePosition (Fin 120000) = Fin v /\
    (-100 < v <= 0)%R /\ (v = 0%R <-> 120000%R = 100000%R).
Proof.
  apply (impermanentLoss_never_positive fullRangePosition 100000 120000);
    [reflexivity | lra | lra].
Defined.

(** X2.  A rise of the price by a factor and a fall by the same factor lose the
    same. *)
Theorem impermanentLoss_symmetric this (p0 k : R) :
  initialToken0Price this = Fin p0 -> (0 < p0)%R -> (0 < k)%R ->
  calculateImpermanentLoss this (Fin (p0 * k)) =
  calculateImpermanentLoss this (Fin (p0 / k)).
Proof.
  intros H0 Hp0 Hk. unfold calculateImpermanentLoss. rewrite H0.
  assert (p0 <> 0)%R by lra. js_fin.
  replace (p0 * k / p0)%R with k by (field; lra).
  replace (p0 / k / p0)%R with (/ k)%R by (field; lra).
  pose proof (Rinv_0_lt_compat k Hk) as Hik.
  rewrite !sqrt_Fin by lra. rewrite sqrt_inv.
  pose proof (sqrt_lt_R0 k Hk) as Hs.
  pose proof (sqrt_sqrt k (Rlt_le _ _ Hk)) as Hss.
  remember (sqrt k) as s eqn:Es.
  assert (Hsi : (0 < / s)%R) by now apply Rinv_0_lt_compat.
  assert (1 + k <> 0)%R by lra. assert (1 + / k <> 0)%R by lra. js_fin.
  do 2 f_equal. rewrite <- Hss. field. split; apply Rgt_not_eq; nra.
Qed.

Lemma impermanentLoss_symmetric_witness :
  calculateImpermanentLoss fullRangePosition (Fin (100000 * 2)) =
  calculateImpermanentLoss fullRangePosition (Fin (100000 / 2)).
Proof.
  apply (impermanentLoss_symmetric fullRangePosition 100000 2);
    [reflexivity | lra | lra].
Defined.

(** ** Ticks *)

Lemma ln_monotone (x y : R) : (0 < x)%R -> (x <= y)%R -> (ln x <= ln y)%R.
Proof.
  intros Hx [Hlt | ->]; [left; now apply ln_increasing | apply Rle_refl].
Qed.

Lemma getTickFromPrice_order this (a b : R) :
  (0 < a)%R -> (a <= b)%R ->
  exists ta tb : R,
    getTickFromPrice this (Fin a) = Fin ta /\
    getTickFromPrice this (Fin b) = Fin tb /\ (tb <= ta)%R.
Proof.
  intros Ha Hab. rewrite !getTickFromPrice_Fin by lra.
  do 2 eexists. split; [reflexivity|]. split; [reflexivity|].
  apply IZR_le, Zfloor_le, Rplus_le_compat_r.
  pose proof ln_tick_base_pos as HL.
  pose proof (pow10_pos (token1Decimals this - token0Decimals this)) as Hpw.
  apply quotient_monotone; [assumption|].
  assert (Hb : (0 < b)%R) by lra.
  pose proof (Rinv_0_lt_compat a Ha). pose proof (Rinv_0_lt_compat b Hb).
  assert (/ b <= / a)%R by (apply Rinv_le_contravar; assumption).
  apply ln_monotone; unfold Rdiv; nra.
Qed.

(** X3.  A higher price has a lower (or the same) tick. *)
Theorem getTickFromPrice_antitone this (a b : R) :
  (0 < a)%R -> (a <= b)%R ->
  (getTickFromPrice this (Fin b) <=? getTickFromPrice this (Fin a)) = true.
Proof.
  intros Ha Hab.
  destruct (getTickFromPrice_order this a b Ha Hab) as (ta & tb & -> & -> & H).
  rewrite leb_Fin. now apply Rleb_true.
Qed.

Lemma getTickFromPrice_antitone_witness :
  (getTickFromPrice scenarioPosition (Fin 110000) <=?
   getTickFromPrice scenarioPosition (Fin 90000)) = true.
Proof.
  apply (getTickFromPrice_antitone scenarioPosition 90000 110000); lra.
Defined.

(** X4.  Prices without a tick: the price 0 has the tick Infinity, an infinite
    price the tick -Infinity, NaN and negative prices the tick NaN. *)
Theorem getTickFromPrice_edges this :
  getTickFromPrice this (Fin 0) = Infinity /\
  getTickFromPrice this Infinity = NegInfinity /\
  getTickFromPrice this NaN = NaN /\
  (forall a : R, (a < 0)%R -> getTickFromPrice this (Fin a) = NaN).
Proof.
  pose proof ln_tick_base_pos as HL.
  pose proof (pow10_pos (token1Decimals this - token0Decimals this)) as Hpw.
  unfold getTickFromPrice, Math_pow. rewrite (log_Fin 1.0001) by lra.
  repeat split.
  - cbn [div]. rewrite Reqb_true, (Reqb_false 1 0), (Rltb_false 1 0) by lra.
    cbn [mul]. rewrite Reqb_false, Rltb_false by lra.
    cbn [xorb Math_log div]. rewrite Rltb_false by lra. reflexivity.
  - cbn [div mul]. rewrite Rmult_0_l. cbn [Math_log].
    rewrite Rltb_false, Reqb_true by lra.
    cbn [div]. rewrite Rltb_false by lra. reflexivity.
  - intros a Ha. assert (a <> 0)%R by lra. js_fin.
    assert (1 / a < 0)%R.
    { unfold Rdiv. rewrite Rmult_1_l. now apply Rinv_lt_0_compat. }
    cbn [Math_log]. rewrite Rltb_true by nra. reflexivity.
Qed.

Lemma getTickFromPrice_edges_witness :
  getTickFromPrice scenarioPosition (Fin 0) = Infinity /\
  getTickFromPrice scenarioPosition Infinity = NegInfinity /\
  getTickFromPrice scenarioPosition NaN = NaN /\
  getTickFromPrice scenarioPosition (Fin (-1)) = NaN.
Proof.
  destruct (getTickFromPrice_edges scenarioPosition) as (H0 & H1 & H2 & H3).
  repeat split; try assumption. apply H3. lra.
Defined.

(** ** The range on the tick grid *)

(** The two price bounds of a percentage range. *)
Lemma getPositionTickRange_prices this t (w p : R) ts :
  currentToken0Price this = Fin p ->
  let range := getPositionTickRange this t (percent (Fin w)) ts in
  priceLower range = Fin (p * (1 - w / 100 / 2)) /\
  priceUpper range = Fin (p * (1 + w / 100 / 2)).
Proof.
  intros Hprice. unfold getPositionTickRange. cbv zeta.
  cbn [priceLower priceUpper]. rewrite Hprice.
  assert (100 <> 0)%R by lra. assert (2 <> 0)%R by lra. js_fin.
  split; reflexivity.
Qed.

(** The ticks of a percentage range: the lower one is the grid point at or
    below the tick of the upper price, the upper one the grid point at or
    above the tick of the lower price. *)
Lemma getPositionTickRange_grid this t (w p ts : R) :
  currentToken0Price this = Fin p ->
  (0 < p)%R -> (0 < w < 200)%R -> (0 < ts)%R ->
  let range := getPositionTickRange this t (percent (Fin w)) (Fin ts) in
  exists (rl ru : R) (kl ku : Z),
    getTickFromPrice this (Fin (p * (1 - w / 100 / 2))) = Fin rl /\
    getTickFromPrice this (Fin (p * (1 + w / 100 / 2))) = Fin ru /\
    tickLower range = Fin (IZR kl * ts) /\
    tickUpper range = Fin (IZR ku * ts) /\
    (IZR kl * ts <= ru)%R /\ (ru < IZR kl * ts + ts)%R /\ (ru <= rl)%R /\
    (IZR ku * ts - ts < rl)%R /\ (rl <= IZR ku * ts)%R.
Proof.
  intros Hprice Hp Hw Hts.
  assert (Hlo : (0 < p * (1 - w / 100 / 2))%R) by nra.
  assert (Hlh : (p * (1 - w / 100 / 2) <= p * (1 + w / 100 / 2))%R) by nra.
  destruct (getTickFromPrice_order this _ _ Hlo Hlh) as (rl & ru & El & Eu & Hul).
  exists rl, ru, (Zfloor (ru / ts)), (Zceil (rl / ts)).
  unfold getPositionTickRange. cbv zeta. cbn [tickLower tickUpper].
  rewrite Hprice.
  assert (100 <> 0)%R by lra. assert (2 <> 0)%R by lra. js_fin.
  rewrite El, Eu. assert (ts <> 0)%R by lra. js_fin.
  cbn [Math_floor Math_ceil]. js_fin.
  rewrite Math_min_Fin, Math_max_Fin.
  pose proof (Rinv_0_lt_compat ts Hts) as Hi.
  assert (Hq : (ru / ts <= rl / ts)%R) by (apply quotient_monotone; assumption).
  pose proof (IZR_le _ _ (Zfloor_le _ _ Hq)) as Hf.
  pose proof (IZR_le _ _ (Zceil_le _ _ Hq)) as Hc.
  rewrite Rmin_right, Rmax_left by nra.
  pose proof (Zfloor_bound (ru / ts)) as [Hf1 Hf2].
  pose proof (Zceil_bound (rl / ts)) as [Hc1 Hc2].
  assert (Eru : (ru = ru / ts * ts)%R) by (field; assumption).
  assert (Erl : (rl = rl / ts * ts)%R) by (field; assumption).
  repeat split; try reflexivity; try assumption; nra.
Qed.

(** X5.  The range is the smallest interval of the tick grid that holds the ticks
    of both price bounds. *)
Theorem getPositionTickRange_snaps_outward this t (w p ts : R) :
  currentToken0Price this = Fin p ->
  (0 < p)%R -> (0 < w < 200)%R -> (0 < ts)%R ->
  let range := getPositionTickRange this t (percent (Fin w)) (Fin ts) in
  exists (rl ru : R) (kl ku : Z),
    getTickFromPrice this (priceLower range) = Fin rl /\
    getTickFromPrice this (priceUpper range) = Fin ru /\
    tickLower range = Fin (IZR kl * ts) /\
    tickUpper range = Fin (IZR ku * ts) /\
    (IZR kl * ts <= ru)%R /\ (ru < IZR kl * ts + ts)%R /\ (ru <= rl)%R /\
    (IZR ku * ts - ts < rl)%R /\ (rl <= IZR ku * ts)%R.
Proof.
  intros Hprice Hp Hw Hts range.
  destruct (getPositionTickRange_prices this t w p (Fin ts) Hprice) as [El Eu].
  fold range in El, Eu. rewrite El, Eu.
  exact (getPositionTickRange_grid this t w p ts Hprice Hp Hw Hts).
Qed.

Lemma getPositionTickRange_snaps_outward_witness :
  let range := getPositionTickRange scenarioPosition 0 (percent (Fin 50)) (Fin 2000) in
  exists (rl ru : R) (kl ku : Z),
    getTickFromPrice scenarioPosition (priceLower range) = Fin rl /\
    getTickFromPrice scenarioPosition (priceUpper range) = Fin ru /\
    tickLower range = Fin (IZR kl * 2000) /\
    tickUpper range = Fin (IZR ku * 2000) /\
    (IZR kl * 2000 <= ru)%R /\ (ru < IZR kl * 2000 + 2000)%R /\ (ru <= rl)%R /\
    (IZR ku * 2000 - 2000 < rl)%R /\ (rl <= IZR ku * 2000)%R.
Proof.
  apply (getPositionTickRange_snaps_outward scenarioPosition 0 50 100000 2000);
    [reflexivity | lra | lra | lra].
Defined.

(** The tick of the price at which a percentage range is opened lies in the
    range. *)
Lemma getPositionTickRange_holds_price this t (w p ts : R) :
  currentToken0Price this = Fin p ->
  (0 < p)%R -> (0 < w < 200)%R -> (0 < ts)%R ->
  let range := getPositionTickRange this t (percent (Fin w)) (Fin ts) in
  (tickLower range <=? getTickFromPrice this (Fin p)) = true /\
  (getTickFromPrice this (Fin p) <=? tickUpper range) = true.
Proof.
  intros Hprice Hp Hw Hts. cbv zeta.
  destruct (getPositionTickRange_grid this t w p ts Hprice Hp Hw Hts)
    as (rl & ru & kl & ku & El & Eu & -> & -> & H1 & _ & _ & _ & H2).
  assert (Hlo : (0 < p * (1 - w / 100 / 2))%R) by nra.
  assert (Hlp : (p * (1 - w / 100 / 2) <= p)%R) by nra.
  assert (Hph : (p <= p * (1 + w / 100 / 2))%R) by nra.
  destruct (getTickFromPrice_order this _ _ Hlo Hlp) as (a & b & Ea & Eb & Hab).
  destruct (getTickFromPrice_order this _ _ Hp Hph) as (c & d & Ec & Ed & Hcd).
  rewrite Eb. rewrite !leb_Fin.
  assert (a = rl) by congruence. assert (c = b) by congruence.
  assert (d = ru) by congruence. subst.
  split; apply Rleb_true; lra.
Qed.

(** ** The allocation spends the investment *)

Lemma tokensForStrategy_value (lo hi inv p : R) (dec : Z) :
  (0 <= lo)%R -> (lo < hi)%R -> (0 < p)%R ->
  exists a0 a1 : R,
    tokensForStrategy (Fin lo) (Fin hi) (Fin inv) (Fin p) dec = (Fin a0, Fin a1) /\
    (a0 * p + a1 = inv)%R.
Proof.
  intros Hlo Hlh Hp. pose proof (pow10_pos dec) as Hpw.
  destruct (Rtotal_order p lo) as [Hb | [He | Ha]].
  - pose proof (tokensForStrategy_below_amounts lo hi inv p dec Hp Hb Hlh) as E.
    cbv zeta in E. rewrite E. do 2 eexists. split; [reflexivity|].
    set (sl := sqrt (lo * powerRZ 10 dec)). set (sh := sqrt (hi * powerRZ 10 dec)).
    assert (Hgap : (0 < 1 / sl - 1 / sh)%R).
    { apply inv_gap; [apply sqrt_lt_R0 | apply sqrt_lt_1_alt]; nra. }
    remember (1 / sl - 1 / sh)%R as g. field. split; lra.
  - rewrite tokensForStrategy_last by (try assumption; left; assumption).
    do 2 eexists. split; [reflexivity | lra].
  - destruct (Rlt_le_dec p hi) as [Hin | Hab].
    + pose proof (tokensForStrategy_inside lo hi inv p dec Hlo Ha Hin) as E.
      pose proof (inside_pos lo hi p dec Hlo Ha Hin) as P.
      cbv zeta in E, P. rewrite E. destruct P as (_ & _ & _ & Hden).
      do 2 eexists. split; [reflexivity|].
      set (sp := sqrt (p * powerRZ 10 dec)) in *.
      set (sl := sqrt (lo * powerRZ 10 dec)) in *.
      set (sh := sqrt (hi * powerRZ 10 dec)) in *.
      remember (1 / sp - 1 / sh)%R as g.
      remember (sp - sl + g * (p * powerRZ 10 dec))%R as d eqn:Ed.
      replace (inv / d * g * powerRZ 10 dec * p + inv / d * (sp - sl))%R
        with (inv / d * (sp - sl + g * (p * powerRZ 10 dec)))%R by ring.
      rewrite <- Ed. field. lra.
    + rewrite tokensForStrategy_last by (try assumption; right; assumption).
      do 2 eexists. split; [reflexivity | lra].
Qed.

(** X7.  Whatever the region, the two amounts are worth the investment at the
    price: [amount0 * price + amount1 = investment]. *)
Theorem tokensForStrategy_spends_investment (lo hi inv p : R) (dec : Z) :
  (0 <= lo)%R -> (lo < hi)%R -> (0 < p)%R ->
  exists a0 a1 : R,
    tokensForStrategy (Fin lo) (Fin hi) (Fin inv) (Fin p) dec = (Fin a0, Fin a1) /\
    (a0 * p + a1 = inv)%R.
Proof. apply tokensForStrategy_value. Qed.

Lemma tokensForStrategy_spends_investment_witness :
  exists a0 a1 : R,
    tokensForStrategy (Fin 1) (Fin 4) (Fin 1000) (Fin 2) 0 = (Fin a0, Fin a1) /\
    (a0 * 2 + a1 = 1000)%R.
Proof. apply (tokensForStrategy_spends_investment 1 4 1000 2 0); lra. Defined.

(** ** The value of a newly opened sub-position *)

(** [getPositionTickRange] followed by [calculateTokensAndLiquidity] at the
    current price: the two balances are worth the investment. *)
Lemma allocate_value this t ts (inv p : R) :
  properWidth (positionType this) ->
  currentToken0Price this = Fin p -> (0 < p)%R ->
  let this' :=
    calculateTokensAndLiquidity
      (this <| positionRange :=
                 getPositionTickRange this t (positionType this) ts |>)
      (Fin inv) (Fin p) in
  exists u b : R,
    usdcAmount this' = Fin u /\ btcAmount this' = Fin b /\
    (u + b * p = inv)%R.
Proof.
  intros Hty Hprice Hp.
  set (this1 := this <| positionRange := _ |>).
  assert (Ht1 : positionType this1 = positionType this) by reflexivity.
  assert (Hr1 : positionRange this1 =
                getPositionTickRange this t (positionType this) ts)
    by reflexivity.
  cbv zeta.
  destruct (positionType this) as [|width] eqn:Hpt.
  - destruct (calculateTokensAndLiquidity_full_range this1 (Fin inv) (Fin p) Ht1)
      as (-> & -> & _).
    assert (2 <> 0)%R by lra. assert (p <> 0)%R by lra. js_fin.
    do 2 eexists. split; [reflexivity|]. split; [reflexivity|]. field. lra.
  - destruct Hty as (w & -> & Hw).
    destruct (calculateTokensAndLiquidity_percent this1 (Fin inv) (Fin p) (Fin w) Ht1)
      as (Hb & Hu & _).
    rewrite Hb, Hu, Hr1.
    destruct (getPositionTickRange_prices this t w p ts Hprice) as [-> ->].
    destruct (tokensForStrategy_value (p * (1 - w / 100 / 2))
                (p * (1 + w / 100 / 2)) inv p
                (token0Decimals this1 - token1Decimals this1))
      as (a0 & a1 & -> & Hv); try nra.
    exists a1, a0. cbn [fst snd]. repeat split. lra.
Qed.

Lemma rebalance_opening_allocation this t tvl gas :
  let this' := rebalance this t tvl gas false in
  let allocated :=
    calculateTokensAndLiquidity
      (this <| positionRange :=
                 getPositionTickRange this t (positionType this)
                   (tickSpacing this) |>)
      (currentPositionCapital this + currentPositionFees this)
      (currentToken0Price this) in
  positionRange this' = positionRange allocated /\
  usdcAmount this' = usdcAmount allocated /\
  btcAmount this' = btcAmount allocated /\
  liquidityAmount this' = liquidityAmount allocated /\
  lpSharePercentage this' = lpSharePercentage allocated.
Proof.
  cbv zeta.
  remember (rebalance this t tvl gas false) as r eqn:Hr. revert Hr.
  cbv delta [rebalance]; cbv beta. do 2 name_let.
  change (negb false) with true. cbv iota. do 2 name_let.
  subst s2; subst s1. repeat name_let. intros ->.
  repeat split.
Qed.

(** The BTC-first position of the scenario: the same pool with the BTC
    token as asset0. *)
Definition btcFirstPosition : Position :=
  new_LiquidUnitPosition 100000 (percent 50) 0 1000000 100000 0.00001
    1000000 "cbBTC" "USDC" daily 2000 8 6 true.

Lemma new_position_value
    (inv p : R) positionType initialTick initialTvl initialToken1Price
    totalPoolLiquidity token0Symbol token1Symbol granularityType tickSpacing
    token0Decimals token1Decimals useCompoundingAPR :
  properWidth positionType -> (0 < p)%R ->
  includes (toUpperCase token0Symbol) "BTC" = true \/
  includes (toUpperCase token1Symbol) "BTC" = false ->
  getCurrentPositionValue
    (new_LiquidUnitPosition (Fin inv) positionType initialTick initialTvl
       (Fin p) initialToken1Price totalPoolLiquidity token0Symbol token1Symbol
       granularityType tickSpacing token0Decimals token1Decimals
       useCompoundingAPR) = Fin inv.
Proof.
  intros Hty Hp Hsym. unfold new_LiquidUnitPosition. cbv zeta.
  match goal with
  | |- getCurrentPositionValue
         (calculateTokensAndLiquidity (?this0 <| positionRange := _ |>) _ _) = _ =>
      pose proof (allocate_value this0 initialTick tickSpacing inv p Hty eq_refl Hp)
        as H;
      set (fresh := calculateTokensAndLiquidity (this0 <| positionRange := _ |>) _ _) in *
  end.
  cbv zeta in H. destruct H as (u & b & Hu & Hb & Hv).
  unfold getCurrentPositionValue. rewrite Hu, Hb.
  assert (Hbtc : currentBtcPrice fresh = Fin p).
  { change (currentBtcPrice fresh)
      with (if includes (toUpperCase token0Symbol) "BTC" then Fin p
            else if includes (toUpperCase token1Symbol) "BTC"
                 then initialToken1Price else Fin p).
    destruct Hsym as [-> | ->]; [reflexivity|].
    now destruct (includes (toUpperCase token0Symbol) "BTC"). }
  rewrite Hbtc. js_fin. f_equal. lra.
Qed.

(** X8.  A new position whose price of reference is the asset0 price is worth
    the amount invested. *)
Theorem fresh_position_value
    (inv p : R) positionType initialTick initialTvl initialToken1Price
    totalPoolLiquidity token0Symbol token1Symbol granularityType tickSpacing
    token0Decimals token1Decimals useCompoundingAPR :
  properWidth positionType -> (0 < p)%R ->
  includes (toUpperCase token0Symbol) "BTC" = true \/
  includes (toUpperCase token1Symbol) "BTC" = false ->
  getCurrentPositionValue
    (new_LiquidUnitPosition (Fin inv) positionType initialTick initialTvl
       (Fin p) initialToken1Price totalPoolLiquidity token0Symbol token1Symbol
       granularityType tickSpacing token0Decimals token1Decimals
       useCompoundingAPR) = Fin inv.
Proof. apply new_position_value. Qed.

Lemma fresh_position_value_witness :
  getCurrentPositionValue btcFirstPosition = Fin 100000.
Proof.
  apply (fresh_position_value 100000 100000 (percent 50));
    [exists 50%R; split; [reflexivity | lra] | lra | left; reflexivity].
Defined.



Lemma getTickFromPrice_decimals this this' price :
  token0Decimals this' = token0Decimals this ->
  token1Decimals this' = token1Decimals this ->
  getTickFromPrice this' price = getTickFromPrice this price.
Proof. intros H0 H1. unfold getTickFromPrice. now rewrite H0, H1. Qed.

(** X6.  A percentage range holds the tick of the price it is opened at, after
    the constructor and after an opening [rebalance]. *)
Theorem opened_range_holds_price :
  (forall (w p ts : R) initialAmount initialTick initialTvl initialToken1Price
          totalPoolLiquidity token0Symbol token1Symbol granularityType
          token0Decimals token1Decimals useCompoundingAPR,
     (0 < w < 200)%R -> (0 < p)%R -> (0 < ts)%R ->
     let fresh :=
       new_LiquidUnitPosition initialAmount (percent (Fin w)) initialTick
         initialTvl (Fin p) initialToken1Price totalPoolLiquidity token0Symbol
         token1Symbol granularityType (Fin ts) token0Decimals token1Decimals
         useCompoundingAPR in
     isOutOfRange fresh (getTickFromPrice fresh (Fin p)) = false) /\
  (forall this t tvl gas (w p ts : R),
     positionType this = percent (Fin w) -> (0 < w < 200)%R ->
     tickSpacing this = Fin ts -> (0 < ts)%R ->
     currentToken0Price this = Fin p -> (0 < p)%R ->
     let this' := rebalance this t tvl gas false in
     isOutOfRange this' (getTickFromPrice this' (Fin p)) = false).
Proof.
  split.
  - intros w p ts initialAmount initialTick initialTvl initialToken1Price
      totalPoolLiquidity token0Symbol token1Symbol granularityType
      token0Decimals token1Decimals useCompoundingAPR Hw Hp Hts.
    unfold new_LiquidUnitPosition. cbv zeta.
    match goal with
    | |- isOutOfRange
           (calculateTokensAndLiquidity (?this0 <| positionRange := _ |>) ?i ?q) _ = _ =>
        pose proof (getPositionTickRange_holds_price this0 initialTick w p ts
                      eq_refl Hp Hw Hts) as H;
        destruct (calculateTokensAndLiquidity_frame
                    (this0 <| positionRange :=
                                getPositionTickRange this0 initialTick
                                  (percent (Fin w)) (Fin ts) |>) i q)
          as (_ & _ & _ & Hr & _);
        set (fresh := calculateTokensAndLiquidity _ i q) in *;
        assert (Ht : getTickFromPrice fresh (Fin p) =
                     getTickFromPrice this0 (Fin p)) by reflexivity
    end.
    cbv zeta in H, Hr. rewrite isOutOfRange_spec, Hr, Ht.
    destruct H as [H1 H2].
    transitivity (negb (true && true)); [|reflexivity].
    f_equal. f_equal; [exact H1 | exact H2].
  - intros this t tvl gas w p ts Hty Hw Hts Hts0 Hprice Hp this'.
    destruct (rebalance_step this t tvl gas false)
      as (_ & (_ & _ & _ & _ & _ & _ & D0 & D1 & _) & _).
    destruct (rebalance_opening_allocation this t tvl gas) as (Er & _).
    fold this' in D0, D1, Er.
    rewrite isOutOfRange_spec, Er, (getTickFromPrice_decimals this this') by assumption.
    match goal with
    | |- context [positionRange (calculateTokensAndLiquidity ?x ?i ?q)] =>
        destruct (calculateTokensAndLiquidity_frame x i q) as (_ & _ & _ & -> & _)
    end.
    destruct (getPositionTickRange_holds_price this t w p ts Hprice Hp Hw Hts0)
      as [H1 H2].
    rewrite <- Hty, <- Hts in H1, H2.
    transitivity (negb (true && true)); [|reflexivity].
    f_equal. f_equal; [exact H1 | exact H2].
Qed.

Lemma opened_range_holds_price_witness :
  isOutOfRange scenarioPosition (getTickFromPrice scenarioPosition (Fin 100000)) =
    false /\
  (let this' := rebalance scenarioPosition 0 1000000 5 false in
   isOutOfRange this' (getTickFromPrice this' (Fin 100000)) = false).
Proof.
  split.
  - apply (proj1 opened_range_holds_price 50%R 100000%R 2000%R); lra.
  - apply (proj2 opened_range_holds_price scenarioPosition 0 1000000 5
             50%R 100000%R 2000%R);
      [reflexivity | lra | reflexivity | lra | reflexivity | lra].
Defined.

(** ** The active-liquidity fraction of an ordered candle *)

Lemma candleRatio_ordered m M (l h : R) :
  (h <= l)%R ->
  candleRatio m M (Fin l) (Fin h) =
  if (Fin h >? m) && (Fin l <? M) then Fin 100 else Fin 0.
Proof.
  intros Hhl. unfold candleRatio. cbv zeta.
  destruct ((Fin h >? m) && (Fin l <? M)) eqn:Hc.
  2:{ cbn. now rewrite Reqb_true. }
  apply andb_prop in Hc. destruct Hc as [Hh Hl]. unfold gtb in Hh.
  rewrite sub_Fin, neqb_Fin.
  destruct (Reqb_spec (h - l) 0) as [E | E]; cbn [negb].
  { cbn. rewrite Reqb_false by lra. f_equal; lra. }
  assert (Emin : Math_min M (Fin h) = Fin h).
  { destruct M as [|[]|M]; cbn in Hl |- *; try discriminate; try reflexivity.
    destruct (Rltb_spec l M); try discriminate.
    now rewrite Rltb_true by lra. }
  assert (Emax : Math_max m (Fin l) = Fin l).
  { destruct m as [|[]|m]; cbn in Hh |- *; try discriminate; try reflexivity.
    destruct (Rltb_spec m h); try discriminate.
    now rewrite Rltb_true by lra. }
  rewrite Emin, Emax. js_fin.
  replace ((h - l) / (h - l) * 100)%R with 100%R by (field; assumption).
  cbn. now rewrite Reqb_false by lra.
Qed.

(** X10.  For a candle with [0 < low <= high] the fraction is all or nothing: 100
    when the tick of the high is above the lower tick of the range and the
    tick of the low below its upper tick, and 0 otherwise. *)
Theorem activeLiquidity_all_or_nothing this dataPoint (w : number) (l h : R) :
  positionType this = percent w ->
  candleLow dataPoint = Fin l -> candleHigh dataPoint = Fin h ->
  (0 < l)%R -> (l <= h)%R ->
  calculateActiveLiquidityForCandle this dataPoint =
  if (getTickFromPrice this (Fin h) >? tickLower (positionRange this)) &&
     (getTickFromPrice this (Fin l) <? tickUpper (positionRange this))
  then Fin 100 else Fin 0.
Proof.
  intros Hty Hl Hh Hl0 Hlh.
  rewrite (calculateActiveLiquidityForCandle_percent this dataPoint w Hty).
  cbv zeta. fold (candleLow dataPoint) (candleHigh dataPoint).
  rewrite Hl, Hh. cbn [isFinite negb orb]. rewrite !leb_Fin.
  rewrite !Rleb_false by lra. cbn [orb].
  destruct (getTickFromPrice_order this l h Hl0 Hlh) as (tl & th & -> & -> & Ht).
  now apply candleRatio_ordered.
Qed.

Lemma activeLiquidity_all_or_nothing_witness :
  calculateActiveLiquidityForCandle scenarioPosition (candle 90000 110000) =
  if (getTickFromPrice scenarioPosition (Fin 110000) >?
      tickLower (positionRange scenarioPosition)) &&
     (getTickFromPrice scenarioPosition (Fin 90000) <?
      tickUpper (positionRange scenarioPosition))
  then Fin 100 else Fin 0.
Proof.
  apply (activeLiquidity_all_or_nothing scenarioPosition (candle 90000 110000)
           (Fin 50) 90000 110000);
    [reflexivity | reflexivity | reflexivity | lra | lra].
Defined.

(** ** Snapshots that cannot be read *)

Lemma isOutOfRange_NaN this : isOutOfRange this NaN = true.
Proof.
  rewrite isOutOfRange_spec.
  now destruct (tickLower (positionRange this)) as [|[]|a].
Qed.

(** X11.  A snapshot whose tick does not parse is out of range: no fee, no
    in-range count, the baseline as it was. *)
Theorem update_unreadable_tick this dataPoint wasRebalanced :
  tick dataPoint = NaN ->
  let this' := snd (update this dataPoint wasRebalanced) in
  fst (update this dataPoint wasRebalanced) = Fin 0 /\
  dataPointsInRange this' = dataPointsInRange this /\
  totalDataPoints this' = S (totalDataPoints this) /\
  previousFeeGrowth0X128 this' = previousFeeGrowth0X128 this /\
  previousFeeGrowth1X128 this' = previousFeeGrowth1X128 this.
Proof.
  intros Ht this'.
  assert (Hout : isOutOfRange this (tick dataPoint) = true)
    by (rewrite Ht; apply isOutOfRange_NaN).
  destruct (update_skipped this dataPoint wasRebalanced (or_introl Hout))
    as (Hf & H0 & H1).
  destruct (update_step this dataPoint wasRebalanced)
    as ((_ & _ & _ & _ & _ & E6 & _) & _).
  destruct (update_frame this dataPoint wasRebalanced) as (_ & _ & F & _).
  fold this' in H0, H1, E6, F. rewrite Hout in F.
  repeat split; assumption.
Qed.

Lemma update_unreadable_tick_witness :
  let this' := snd (update fullRangePosition (snapshot NaN 5 7) false) in
  fst (update fullRangePosition (snapshot NaN 5 7) false) = Fin 0 /\
  dataPointsInRange this' = dataPointsInRange fullRangePosition /\
  totalDataPoints this' = S (totalDataPoints fullRangePosition) /\
  previousFeeGrowth0X128 this' = previousFeeGrowth0X128 fullRangePosition /\
  previousFeeGrowth1X128 this' = previousFeeGrowth1X128 fullRangePosition.
Proof.
  apply (update_unreadable_tick fullRangePosition (snapshot NaN 5 7) false).
  reflexivity.
Defined.

(** X12.  A snapshot in range with a fee-growth accumulator that [BigInt] rejects:
    the exception is caught, the fee is 0, the baseline stays, and the step
    still counts as in range. *)
Theorem update_unreadable_accumulator this dataPoint :
  feeGrowthGlobal0X128 dataPoint = None \/
  feeGrowthGlobal1X128 dataPoint = None ->
  isOutOfRange this (tick dataPoint) = false ->
  let this' := snd (update this dataPoint false) in
  fst (update this dataPoint false) = Fin 0 /\
  dataPointsInRange this' = S (dataPointsInRange this) /\
  previousFeeGrowth0X128 this' = previousFeeGrowth0X128 this /\
  previousFeeGrowth1X128 this' = previousFeeGrowth1X128 this.
Proof.
  intros Hg Hin this'.
  assert (Hc : charged this dataPoint false = None).
  { unfold charged. rewrite Hin. cbn [negb andb].
    unfold calculateFeesUsingSimplifiedMethod.
    destruct Hg as [-> | ->]; [reflexivity|].
    now destruct (feeGrowthGlobal0X128 dataPoint). }
  destruct (update_step this dataPoint false) as (_ & Hf & H0 & H1).
  destruct (update_frame this dataPoint false) as (_ & _ & F & _).
  fold this' in H0, H1, F. rewrite Hc in Hf, H0, H1. rewrite Hin in F.
  repeat split; assumption.
Qed.

(** A snapshot of the scenario whose asset0 accumulator is not an
    integer. *)
Definition unreadableSnapshot : DataPoint :=
  {| tick := 0; token0Price := 100000; token1Price := 0.00001;
     low := Some (Fin 90000); high := Some (Fin 110000);
     feeGrowthGlobal0X128 := None; feeGrowthGlobal1X128 := Some 7%Z;
     date := 0; periodStartUnix := 0 |}.

Lemma update_unreadable_accumulator_witness :
  let this' := snd (update fullRangePosition unreadableSnapshot false) in
  fst (update fullRangePosition unreadableSnapshot false) = Fin 0 /\
  dataPointsInRange this' = S (dataPointsInRange fullRangePosition) /\
  previousFeeGrowth0X128 this' = previousFeeGrowth0X128 fullRangePosition /\
  previousFeeGrowth1X128 this' = previousFeeGrowth1X128 fullRangePosition.
Proof.
  apply (update_unreadable_accumulator fullRangePosition unreadableSnapshot);
    [left; reflexivity | exact fullRangePosition_in_range].
Defined.

(** ** The fee of a charged step *)

(** A step that is charged stores the accumulators of its snapshot. *)
Lemma update_seeds this dp g0 g1 :
  isOutOfRange this (tick dp) = false ->
  feeGrowthGlobal0X128 dp = Some g0 ->
  feeGrowthGlobal1X128 dp = Some g1 ->
  previousFeeGrowth0X128 (snd (update this dp false)) = g0 /\
  previousFeeGrowth1X128 (snd (update this dp false)) = g1.
Proof.
  intros Hr H0 H1.
  destruct (update_step this dp false) as (_ & _ & -> & ->).
  unfold charged. rewrite Hr. cbn [negb andb].
  unfold calculateFeesUsingSimplifiedMethod. rewrite H0, H1.
  match goal with |- context [if ?c then _ else _] => destruct c end;
    split; reflexivity.
Qed.

Lemma calculateActiveLiquidityForCandle_frame this this' dataPoint :
  positionType this' = positionType this ->
  positionRange this' = positionRange this ->
  token0Decimals this' = token0Decimals this ->
  token1Decimals this' = token1Decimals this ->
  calculateActiveLiquidityForCandle this' dataPoint =
  calculateActiveLiquidityForCandle this dataPoint.
Proof.
  intros Hty Hr H0 H1. unfold calculateActiveLiquidityForCandle.
  rewrite Hty, Hr.
  destruct (positionType this); [reflexivity|].
  cbv zeta. now rewrite !(getTickFromPrice_decimals this this') by assumption.
Qed.

(** On a range that is not inverted the fraction is a number between 0 and
    100. *)
Lemma activeLiquidity_bounded this dataPoint :
  (tickUpper (positionRange this) <? tickLower (positionRange this)) = false ->
  exists a : R,
    calculateActiveLiquidityForCandle this dataPoint = Fin a /\
    (0 <= a <= 100)%R.
Proof.
  intros H. destruct (positionType this) as [|w] eqn:Hty.
  - exists 100%R. split; [|lra].
    unfold calculateActiveLiquidityForCandle. now rewrite Hty.
  - rewrite (calculateActiveLiquidityForCandle_percent this dataPoint w Hty).
    cbv zeta. fold (candleLow dataPoint) (candleHigh dataPoint).
    destruct (candleLow dataPoint) as [|sl|l]; cbn [isFinite negb orb];
      try (exists 0%R; split; [reflexivity | lra]).
    destruct (candleHigh dataPoint) as [|sh|h]; cbn [isFinite negb orb];
      try (exists 0%R; split; [reflexivity | lra]).
    rewrite !leb_Fin.
    destruct (Rleb_spec l 0); cbn [orb];
      [exists 0%R; split; [reflexivity | lra]|].
    destruct (Rleb_spec h 0); cbn [orb];
      [exists 0%R; split; [reflexivity | lra]|].
    rewrite !getTickFromPrice_Fin by lra.
    now apply candleRatio_bounds.
Qed.

Lemma in_range_not_inverted this t :
  isOutOfRange this t = false ->
  (tickUpper (positionRange this) <? tickLower (positionRange this)) = false.
Proof.
  rewrite isOutOfRange_spec.
  destruct (tickLower (positionRange this)) as [|[]|a],
           (tickUpper (positionRange this)) as [|[]|b],
           t as [|[]|c]; cbn; try reflexivity; try discriminate;
    Rcases; cbn; intros; try reflexivity; try discriminate; lra.
Qed.

(** The fee of a charged step, in real numbers. *)
Lemma update_fee_Fin this dp (g0 g1 : Z) (L a P : R) :
  totalDataPoints this <> 0%nat ->
  isOutOfRange this (tick dp) = false ->
  feeGrowthGlobal0X128 dp = Some g0 ->
  feeGrowthGlobal1X128 dp = Some g1 ->
  liquidityAmount this = Fin L ->
  calculateActiveLiquidityForCandle this dp = Fin a ->
  token0Price dp = Fin P ->
  fst (update this dp false) =
  Fin (IZR (g0 - previousFeeGrowth0X128 this) / powerRZ 2 128 /
         powerRZ 10 (token0Decimals this) * L * a / 100 +
       IZR (g1 - previousFeeGrowth1X128 this) / powerRZ 2 128 /
         powerRZ 10 (token1Decimals this) * L * a / 100 * P).
Proof.
  intros Hn Hr H0 H1 HL Ha HP.
  rewrite (update_charged this dp g0 g1 Hn Hr H0 H1), HL, Ha, HP.
  unfold Number, Math_pow.
  pose proof (pow2_pos 128). pose proof (pow10_pos (token0Decimals this)).
  pose proof (pow10_pos (token1Decimals this)).
  assert (powerRZ 2 128 <> 0)%R by lra.
  assert (powerRZ 10 (token0Decimals this) <> 0)%R by lra.
  assert (powerRZ 10 (token1Decimals this) <> 0)%R by lra.
  assert (100 <> 0)%R by lra.
  js_fin. reflexivity.
Qed.

Lemma scaled_growth_nonneg (d u L a : R) :
  (0 <= d)%R -> (0 < u)%R -> (0 <= L)%R -> (0 <= a)%R ->
  (0 <= d / powerRZ 2 128 / u * L * a / 100)%R.
Proof.
  intros Hd Hu HL Ha. pose proof (pow2_pos 128) as H2.
  assert (0 <= d / powerRZ 2 128 / u)%R.
  { apply Rmult_le_pos; [apply Rmult_le_pos; [assumption|] |];
      left; now apply Rinv_0_lt_compat. }
  assert (0 <= d / powerRZ 2 128 / u * L)%R by now apply Rmult_le_pos.
  assert (0 <= d / powerRZ 2 128 / u * L * a)%R by now apply Rmult_le_pos.
  lra.
Qed.

(** X13.  Accumulators that have not decreased, a non-negative liquidity and a
    non-negative price give a non-negative fee, and accumulators that have
    not moved give the fee 0. *)
Theorem update_fee_nonnegative this dataPoint (g0 g1 : Z) (L P : R) :
  totalDataPoints this <> 0%nat ->
  isOutOfRange this (tick dataPoint) = false ->
  feeGrowthGlobal0X128 dataPoint = Some g0 ->
  feeGrowthGlobal1X128 dataPoint = Some g1 ->
  (previousFeeGrowth0X128 this <= g0)%Z ->
  (previousFeeGrowth1X128 this <= g1)%Z ->
  liquidityAmount this = Fin L -> (0 <= L)%R ->
  token0Price dataPoint = Fin P -> (0 <= P)%R ->
  exists f : R,
    fst (update this dataPoint false) = Fin f /\ (0 <= f)%R /\
    (g0 = previousFeeGrowth0X128 this -> g1 = previousFeeGrowth1X128 this ->
     f = 0%R).
Proof.
  intros Hn Hr H0 H1 Hg0 Hg1 HL HL0 HP HP0.
  destruct (activeLiquidity_bounded this dataPoint (in_range_not_inverted _ _ Hr))
    as (a & Ha & Ha0).
  rewrite (update_fee_Fin this dataPoint g0 g1 L a P) by assumption.
  eexists. split; [reflexivity|].
  assert (D0 : (0 <= IZR (g0 - previousFeeGrowth0X128 this))%R)
    by (apply IZR_le; lia).
  assert (D1 : (0 <= IZR (g1 - previousFeeGrowth1X128 this))%R)
    by (apply IZR_le; lia).
  pose proof (scaled_growth_nonneg _ _ L a D0 (pow10_pos (token0Decimals this))
                HL0 (proj1 Ha0)) as F0.
  pose proof (scaled_growth_nonneg _ _ L a D1 (pow10_pos (token1Decimals this))
                HL0 (proj1 Ha0)) as F1.
  split; [nra|].
  intros -> ->. rewrite !Z.sub_diag. unfold Rdiv. lra.
Qed.

(** The scenario after its first snapshot. *)
Lemma firstStep_state :
  totalDataPoints firstStep <> 0%nat /\
  (forall t, isOutOfRange firstStep t = isOutOfRange fullRangePosition t) /\
  previousFeeGrowth0X128 firstStep = 0%Z /\
  previousFeeGrowth1X128 firstStep = 0%Z /\
  (forall dp, calculateActiveLiquidityForCandle firstStep dp = Fin 100) /\
  exists L : R, liquidityAmount firstStep = Fin L /\ (0 < L)%R.
Proof.
  destruct firstStep_ledger
    as (T1 & T2 & T3 & T4 & T5 & T6 & T7 & T8 & T9 & T10).
  destruct fullRangePosition_liquidity as (l & Hl & Hl0).
  repeat split; try assumption.
  - rewrite T1. discriminate.
  - intros t. now rewrite !isOutOfRange_spec, T4.
  - intros dp. unfold calculateActiveLiquidityForCandle. now rewrite T5.
  - exists l. split; [congruence | assumption].
Qed.

Lemma update_fee_nonnegative_witness :
  exists f : R,
    fst (update firstStep (snapshot 0 (2 ^ 128) 0) false) = Fin f /\
    (0 <= f)%R /\
    ((2 ^ 128)%Z = previousFeeGrowth0X128 firstStep ->
     0%Z = previousFeeGrowth1X128 firstStep -> f = 0%R).
Proof.
  destruct firstStep_state as (Hn & Hr & H0 & H1 & _ & L & HL & HL0).
  apply (update_fee_nonnegative firstStep (snapshot 0 (2 ^ 128) 0)
           (2 ^ 128) 0 L 100000);
    [ exact Hn
    | rewrite Hr; exact fullRangePosition_in_range
    | reflexivity | reflexivity
    | rewrite H0; discriminate
    | rewrite H1; discriminate
    | exact HL | lra | reflexivity | lra ].
Defined.

(** X14.  The fees of two consecutive steps add up to the fee of one step from
    the first baseline to the last snapshot, when both steps have the same
    active fraction and the same price: the accumulators are running
    totals. *)
Theorem update_fees_telescope this dp1 dp2 (g0a g1a g0b g1b : Z) (L a P : R) :
  totalDataPoints this <> 0%nat ->
  isOutOfRange this (tick dp1) = false ->
  isOutOfRange this (tick dp2) = false ->
  feeGrowthGlobal0X128 dp1 = Some g0a -> feeGrowthGlobal1X128 dp1 = Some g1a ->
  feeGrowthGlobal0X128 dp2 = Some g0b -> feeGrowthGlobal1X128 dp2 = Some g1b ->
  liquidityAmount this = Fin L ->
  calculateActiveLiquidityForCandle this dp1 = Fin a ->
  calculateActiveLiquidityForCandle this dp2 = Fin a ->
  token0Price dp1 = Fin P -> token0Price dp2 = Fin P ->
  fst (update this dp1 false) +
  fst (update (snd (update this dp1 false)) dp2 false) =
  fst (update this dp2 false).
Proof.
  intros Hn Hr1 Hr2 A0 A1 B0 B1 HL Ha1 Ha2 HP1 HP2.
  destruct (update_step this dp1 false)
    as ((_ & _ & _ & _ & _ & E6 & _ & _ & _ & E10 & E11 & E12 & E13 & E14 & _) & _).
  destruct (update_seeds this dp1 g0a g1a Hr1 A0 A1) as [S0 S1].
  cbv zeta in *.
  set (this1 := snd (update this dp1 false)) in *.
  assert (Hn1 : totalDataPoints this1 <> 0%nat) by (rewrite E6; discriminate).
  assert (Hr' : isOutOfRange this1 (tick dp2) = false)
    by (rewrite isOutOfRange_spec, E10, <- isOutOfRange_spec; assumption).
  assert (Ha' : calculateActiveLiquidityForCandle this1 dp2 = Fin a).
  { rewrite (calculateActiveLiquidityForCandle_frame this this1); assumption. }
  rewrite (update_fee_Fin this dp1 g0a g1a L a P) by assumption.
  rewrite (update_fee_Fin this1 dp2 g0b g1b L a P) by (assumption || congruence).
  rewrite (update_fee_Fin this dp2 g0b g1b L a P) by assumption.
  rewrite S0, S1, E13, E14, add_Fin. f_equal.
  rewrite !minus_IZR.
  pose proof (pow2_pos 128). pose proof (pow10_pos (token0Decimals this)).
  pose proof (pow10_pos (token1Decimals this)).
  field. repeat split; lra.
Qed.

Lemma update_fees_telescope_witness :
  fst (update firstStep (snapshot 0 (2 ^ 128) 3) false) +
  fst (update (snd (update firstStep (snapshot 0 (2 ^ 128) 3) false))
         (snapshot 0 (2 ^ 129) 5) false) =
  fst (update firstStep (snapshot 0 (2 ^ 129) 5) false).
Proof.
  destruct firstStep_state as (Hn & Hr & _ & _ & Ha & L & HL & _).
  apply (update_fees_telescope firstStep (snapshot 0 (2 ^ 128) 3)
           (snapshot 0 (2 ^ 129) 5) (2 ^ 128) 3 (2 ^ 129) 5 L 100 100000);
    [ exact Hn
    | rewrite Hr; exact fullRangePosition_in_range
    | rewrite Hr; exact fullRangePosition_in_range
    | reflexivity | reflexivity | reflexivity | reflexivity
    | exact HL | apply Ha | apply Ha | reflexivity | reflexivity ].
Defined.

(** X15.  The same snapshot fed twice earns nothing the second time. *)
Theorem update_same_snapshot_twice this dataPoint (g0 g1 : Z) (L P : R) :
  isOutOfRange this (tick dataPoint) = false ->
  feeGrowthGlobal0X128 dataPoint = Some g0 ->
  feeGrowthGlobal1X128 dataPoint = Some g1 ->
  liquidityAmount this = Fin L ->
  token0Price dataPoint = Fin P ->
  fst (update (snd (update this dataPoint false)) dataPoint false) = Fin 0.
Proof.
  intros Hr H0 H1 HL HP.
  destruct (update_step this dataPoint false)
    as ((_ & _ & _ & _ & _ & E6 & _ & _ & _ & E10 & E11 & E12 & E13 & E14 & _) & _).
  destruct (update_seeds this dataPoint g0 g1 Hr H0 H1) as [S0 S1].
  cbv zeta in *.
  set (this1 := snd (update this dataPoint false)) in *.
  assert (Hn1 : totalDataPoints this1 <> 0%nat) by (rewrite E6; discriminate).
  assert (Hr' : isOutOfRange this1 (tick dataPoint) = false)
    by (rewrite isOutOfRange_spec, E10, <- isOutOfRange_spec; assumption).
  destruct (activeLiquidity_bounded this1 dataPoint (in_range_not_inverted _ _ Hr'))
    as (a & Ha & _).
  rewrite (update_fee_Fin this1 dataPoint g0 g1 L a P)
    by (assumption || congruence).
  rewrite S0, S1, !Z.sub_diag. f_equal. unfold Rdiv. lra.
Qed.

Lemma update_same_snapshot_twice_witness :
  fst (update (snd (update fullRangePosition (snapshot 0 5 7) false))
         (snapshot 0 5 7) false) = Fin 0.
Proof.
  destruct fullRangePosition_liquidity as (L & HL & _).
  apply (update_same_snapshot_twice fullRangePosition (snapshot 0 5 7) 5 7 L 100000);
    [ exact fullRangePosition_in_range | reflexivity | reflexivity
    | exact HL | reflexivity ].
Defined.

(** ** Invariants of a run *)

(** A run of the scenario: two snapshots, an opening rebalance, a third
    snapshot and a closing rebalance. *)
Definition scenarioRun : Position :=
  rebalance
    (snd (update
            (rebalance earningRun 0 1000000 5 false)
            (snapshot 0 (2 ^ 129) 0) true))
    0 1000000 5 true.

Lemma scenarioRun_reachable : reachable scenarioRun.
Proof.
  unfold scenarioRun, earningRun, firstStep.
  do 2 (apply reachable_rebalance || apply reachable_update).
  apply reachable_rebalance. do 2 apply reachable_update.
  apply reachable_new.
Qed.

(** X16.  The completed sub-positions and the open one divide the data points of
    the run among them, and no completed sub-position is empty. *)
Theorem sub_positions_partition_run this :
  reachable this ->
  (totalDuration (positionResults this) + currentPositionDataPoints this =
   totalDataPoints this)%nat /\
  Forall (fun r => (0 < duration r)%nat) (positionResults this) /\
  (lastRebalanceDataPoint this <= totalDataPoints this)%nat.
Proof.
  intros H. destruct (reachable_counters_inv this H) as (_ & H2 & H3 & H4).
  auto.
Qed.

Lemma sub_positions_partition_run_witness :
  (totalDuration (positionResults scenarioRun) +
   currentPositionDataPoints scenarioRun =
   totalDataPoints scenarioRun)%nat /\
  Forall (fun r => (0 < duration r)%nat) (positionResults scenarioRun) /\
  (lastRebalanceDataPoint scenarioRun <= totalDataPoints scenarioRun)%nat.
Proof. exact (sub_positions_partition_run scenarioRun scenarioRun_reachable). Defined.

(** X17.  The time in range is a percentage. *)
Theorem getTimeInRange_percentage this :
  reachable this ->
  exists r : R, getTimeInRange this = Fin r /\ (0 <= r <= 100)%R.
Proof.
  intros H. destruct (reachable_counters_inv this H) as (H1 & _).
  unfold getTimeInRange.
  destruct (totalDataPoints this) as [|n] eqn:En; cbn [Nat.eqb].
  - exists 0%R. split; [reflexivity | lra].
  - unfold of_nat.
    assert (Hn : (0 < INR (S n))%R) by (apply lt_0_INR; lia).
    assert (INR (S n) <> 0)%R by lra. js_fin.
    eexists. split; [reflexivity|].
    apply percent_bounds; [assumption|]. left.
    split; [apply pos_INR | now apply le_INR].
Qed.

Lemma getTimeInRange_percentage_witness :
  exists r : R, getTimeInRange scenarioRun = Fin r /\ (0 <= r <= 100)%R.
Proof. exact (getTimeInRange_percentage scenarioRun scenarioRun_reachable). Defined.

(** X18.  Every fee is booked once: the fees of the completed sub-positions and
    of the open one add up to the cumulative fees. *)
Theorem fees_booked_once this :
  reachable this ->
  totalFees (positionResults this) + currentPositionFees this =
  cumulativeFees this.
Proof. intros H. apply (reachable_fees_inv this H). Qed.

Lemma fees_booked_once_witness :
  totalFees (positionResults scenarioRun) + currentPositionFees scenarioRun =
  cumulativeFees scenarioRun.
Proof. exact (fees_booked_once scenarioRun scenarioRun_reachable). Defined.

(** X19.  The capital compounds: every completed sub-position starts with the
    capital and the fees of the one before it, the first one with the
    initial amount, and the capital of the open sub-position plus its fees
    is the initial amount plus all fees. *)
Theorem capital_compounds this :
  reachable this ->
  compounds (initialAmount this) (positionResults this)
    (currentPositionCapital this) /\
  currentPositionCapital this + currentPositionFees this =
    initialAmount this + cumulativeFees this.
Proof.
  intros H. destruct (reachable_fees_inv this H) as (_ & _ & H3 & H4). auto.
Qed.

Lemma capital_compounds_witness :
  compounds (initialAmount scenarioRun) (positionResults scenarioRun)
    (currentPositionCapital scenarioRun) /\
  currentPositionCapital scenarioRun + currentPositionFees scenarioRun =
    initialAmount scenarioRun + cumulativeFees scenarioRun.
Proof. exact (capital_compounds scenarioRun scenarioRun_reachable). Defined.

(** ** What a run never changes *)

(** The states that follow a state: any sequence of [update] and
    [rebalance] from it. *)
Inductive laterState (this : Position) : Position -> Prop :=
| laterState_now : laterState this this
| laterState_update that dataPoint wasRebalanced :
    laterState this that ->
    laterState this (snd (update that dataPoint wasRebalanced))
| laterState_rebalance that currentTick currentTvl gasCost isClosing :
    laterState this that ->
    laterState this (rebalance that currentTick currentTvl gasCost isClosing).

(** X20.  The arguments of the constructor that are kept as they were given:
    neither [update] nor [rebalance] writes them (the pool TVL passed to
    [rebalance] is not stored). *)
Theorem configuration_never_changes this that :
  laterState this that ->
  initialAmount that = initialAmount this /\
  positionType that = positionType this /\
  tickSpacing that = tickSpacing this /\
  token0Decimals that = token0Decimals this /\
  token1Decimals that = token1Decimals this /\
  token0Symbol that = token0Symbol this /\
  token1Symbol that = token1Symbol this /\
  granularityType that = granularityType this /\
  useCompoundingAPR that = useCompoundingAPR this /\
  totalPoolLiquidity that = totalPoolLiquidity this /\
  poolTVL that = poolTVL this /\
  initialToken1Price that = initialToken1Price this /\
  assetComposition that = assetComposition this.
Proof.
  induction 1 as [| that dp wr _ IH | that t tvl gas closing _ IH].
  - repeat split.
  - destruct (update_step that dp wr)
      as ((_ & _ & E3 & _ & E5 & _ & _ & _ & _ & _ & E11 & _ & E13 & E14 & _) & _).
    destruct (update_frame that dp wr)
      as ((F1 & _ & _ & _ & F5 & F6 & F7 & F8 & F9 & _ & _ & F12 & F13) & _).
    cbv zeta in *.
    rewrite E3, E5, E11, E13, E14, F1, F5, F6, F7, F8, F9, F12, F13. exact IH.
  - destruct (rebalance_step that t tvl gas closing)
      as (_ & (C1 & C2 & C3 & C4 & C5 & C6 & C7 & C8 & C9 & C10 & C11 & C12 & C13)
          & _).
    cbv zeta in *.
    rewrite C1, C2, C3, C4, C5, C6, C7, C8, C9, C10, C11, C12, C13.
    tauto.
Qed.

Lemma scenarioRun_later : laterState fullRangePosition scenarioRun.
Proof.
  unfold scenarioRun, earningRun, firstStep.
  do 2 (apply laterState_rebalance || apply laterState_update).
  apply laterState_rebalance. do 2 apply laterState_update.
  apply laterState_now.
Qed.

Lemma configuration_never_changes_witness :
  initialAmount scenarioRun = initialAmount fullRangePosition /\
  positionType scenarioRun = positionType fullRangePosition /\
  tickSpacing scenarioRun = tickSpacing fullRangePosition /\
  token0Decimals scenarioRun = token0Decimals fullRangePosition /\
  token1Decimals scenarioRun = token1Decimals fullRangePosition /\
  token0Symbol scenarioRun = token0Symbol fullRangePosition /\
  token1Symbol scenarioRun = token1Symbol fullRangePosition /\
  granularityType scenarioRun = granularityType fullRangePosition /\
  useCompoundingAPR scenarioRun = useCompoundingAPR fullRangePosition /\
  totalPoolLiquidity scenarioRun = totalPoolLiquidity fullRangePosition /\
  poolTVL scenarioRun = poolTVL fullRangePosition /\
  initialToken1Price scenarioRun = initialToken1Price fullRangePosition /\
  assetComposition scenarioRun = assetComposition fullRangePosition.
Proof.
  exact (configuration_never_changes fullRangePosition scenarioRun
           scenarioRun_later).
Defined.

(** X21.  The history only grows: the records of a state are a prefix of the
    records of every later state, and the counters never decrease. *)
Theorem history_append_only this that :
  laterState this that ->
  (exists suffix, positionResults that = positionResults this ++ suffix) /\
  (totalDataPoints this <= totalDataPoints that)%nat /\
  (dataPointsInRange this <= dataPointsInRange that)%nat /\
  (rebalanceCount this <= rebalanceCount that)%nat.
Proof.
  induction 1 as [| that dp wr _ IH | that t tvl gas closing _ IH].
  - split; [exists []; now rewrite app_nil_r | repeat split; apply Nat.le_refl].
  - destruct IH as ((suffix & I1) & I2 & I3 & I4).
    destruct (update_step that dp wr)
      as ((E1 & _ & _ & _ & _ & E6 & _ & _ & _ & _ & _ & _ & _ & _ & E15) & _).
    destruct (update_frame that dp wr) as (_ & _ & F & _).
    cbv zeta in *. rewrite E1, E6, E15, F.
    split; [exists suffix; assumption|].
    repeat split; try lia.
    destruct (negb _ && negb _); cbv iota; lia.
  - destruct IH as ((suffix & I1) & I2 & I3 & I4).
    destruct (rebalance_step that t tvl gas closing)
      as ((E1 & _ & _ & _ & _ & E6 & _) & _ & (_ & G2 & G3 & _)).
    cbv zeta in *. rewrite E1, E6, G2, G3.
    split.
    + destruct (0 <? currentPositionDataPoints that)%nat.
      * exists (suffix ++ [closedSubPosition that gas]).
        now rewrite I1, app_assoc.
      * exists suffix. assumption.
    + repeat split; try assumption. destruct closing; cbv iota; lia.
Qed.

Lemma history_append_only_witness :
  (exists suffix,
     positionResults scenarioRun = positionResults fullRangePosition ++ suffix) /\
  (totalDataPoints fullRangePosition <= totalDataPoints scenarioRun)%nat /\
  (dataPointsInRange fullRangePosition <= dataPointsInRange scenarioRun)%nat /\
  (rebalanceCount fullRangePosition <= rebalanceCount scenarioRun)%nat.
Proof.
  exact (history_append_only fullRangePosition scenarioRun scenarioRun_later).
Defined.

(** ** Fields that follow other fields *)

Lemma calculateTokensAndLiquidity_share this investment price :
  let this' := calculateTokensAndLiquidity this investment price in
  lpSharePercentage this' = liquidityAmount this' / totalPoolLiquidity this /\
  totalPoolLiquidity this' = totalPoolLiquidity this /\
  currentBtcPrice this' = currentBtcPrice this /\
  currentToken0Price this' = currentToken0Price this /\
  currentToken1Price this' = currentToken1Price this /\
  token0Symbol this' = token0Symbol this /\
  token1Symbol this' = token1Symbol this /\
  assetComposition this' = assetComposition this.
Proof. repeat split. Qed.

(** X22.  On every state of a run the pool share is the liquidity over the pool
    liquidity, the BTC price is the price of the asset whose symbol
    contains BTC (asset0 first, and asset0 when neither does), and the
    asset composition is the two symbols. *)
Theorem derived_fields_follow this :
  reachable this ->
  lpSharePercentage this = liquidityAmount this / totalPoolLiquidity this /\
  currentBtcPrice this =
    btcPriceOf (token0Symbol this) (token1Symbol this)
      (currentToken0Price this) (currentToken1Price this) /\
  assetComposition this = (token0Symbol this ++ "," ++ token1Symbol this)%string.
Proof.
  induction 1 as [| this dp wr _ IH | this t tvl gas closing _ IH].
  - unfold new_LiquidUnitPosition. cbv zeta.
    match goal with
    | |- context [calculateTokensAndLiquidity ?x ?i ?q] =>
        destruct (calculateTokensAndLiquidity_share x i q)
          as (-> & -> & -> & -> & -> & -> & -> & ->)
    end.
    repeat split.
  - destruct IH as (I1 & I2 & I3).
    destruct (update_step this dp wr)
      as ((_ & _ & _ & _ & _ & _ & _ & _ & _ & _ & _ & E12 & _) & _).
    destruct (update_frame this dp wr)
      as ((_ & F2 & _ & _ & _ & F6 & _ & F8 & F9 & _ & _ & _ & F13)
          & (_ & _ & G3 & G4 & G5 & _) & _).
    cbv zeta in *. rewrite E12, F2, F6, F8, F9, F13, G3, G4, G5.
    repeat split; assumption.
  - destruct IH as (I1 & I2 & I3).
    destruct (rebalance_step this t tvl gas closing)
      as (_ & (_ & _ & _ & _ & C5 & _ & _ & _ & C9 & C10 & _ & _ & C13)
          & (_ & _ & _ & _ & _ & _ & G7 & G8 & G9 & _)).
    cbv zeta in *. rewrite C5, C9, C10, C13, G7, G8, G9.
    split; [|split; assumption].
    destruct closing.
    + destruct (rebalance_closing_frame this t tvl gas)
        as (_ & _ & _ & -> & -> & _). assumption.
    + destruct (rebalance_opening_allocation this t tvl gas)
        as (_ & _ & _ & -> & ->).
      match goal with
      | |- context [calculateTokensAndLiquidity ?x ?i ?q] =>
          destruct (calculateTokensAndLiquidity_share x i q) as (-> & _)
      end.
      reflexivity.
Qed.

Lemma derived_fields_follow_witness :
  lpSharePercentage scenarioRun =
    liquidityAmount scenarioRun / totalPoolLiquidity scenarioRun /\
  currentBtcPrice scenarioRun =
    btcPriceOf (token0Symbol scenarioRun) (token1Symbol scenarioRun)
      (currentToken0Price scenarioRun) (currentToken1Price scenarioRun) /\
  assetComposition scenarioRun =
    (token0Symbol scenarioRun ++ "," ++ token1Symbol scenarioRun)%string.
Proof. exact (derived_fields_follow scenarioRun scenarioRun_reachable). Defined.

(** ** Annualised returns *)

Lemma new_position_returns
    initialAmount positionType initialTick initialTvl initialToken0Price
    initialToken1Price totalPoolLiquidity token0Symbol token1Symbol
    granularityType tickSpacing token0Decimals token1Decimals
    useCompoundingAPR :
  let fresh :=
    new_LiquidUnitPosition initialAmount positionType initialTick initialTvl
      initialToken0Price initialToken1Price totalPoolLiquidity token0Symbol
      token1Symbol granularityType tickSpacing token0Decimals token1Decimals
      useCompoundingAPR in
  getRunningAPR fresh = Fin 0 /\ getGrossAPR fresh = Fin 0 /\
  getWeightedPositionAPR fresh = Fin 0 /\ getAPR fresh = Fin 0 /\
  getTimeInRange fresh = Fin 0.
Proof.
  intros fresh.
  assert (Hn : totalDataPoints fresh = 0%nat) by reflexivity.
  assert (Hc : currentPositionDataPoints fresh = 0%nat) by reflexivity.
  assert (Hr : positionResults fresh = []) by reflexivity.
  unfold getAPR, getRunningAPR, getGrossAPR, getWeightedPositionAPR,
    getTimeInRange.
  rewrite Hn, Hc, Hr. cbn [Nat.eqb Nat.ltb Nat.leb List.length andb].
  rewrite andb_false_r. repeat split.
Qed.

(** X23.  Before the first data point every return is 0: no division by the
    number of data points takes place. *)
Theorem fresh_position_returns_zero
    initialAmount positionType initialTick initialTvl initialToken0Price
    initialToken1Price totalPoolLiquidity token0Symbol token1Symbol
    granularityType tickSpacing token0Decimals token1Decimals
    useCompoundingAPR :
  let fresh :=
    new_LiquidUnitPosition initialAmount positionType initialTick initialTvl
      initialToken0Price initialToken1Price totalPoolLiquidity token0Symbol
      token1Symbol granularityType tickSpacing token0Decimals token1Decimals
      useCompoundingAPR in
  getRunningAPR fresh = Fin 0 /\ getGrossAPR fresh = Fin 0 /\
  getWeightedPositionAPR fresh = Fin 0 /\ getAPR fresh = Fin 0 /\
  getTimeInRange fresh = Fin 0.
Proof. apply new_position_returns. Qed.

(** X24.  On a run without a rebalance [getAPR] is the running APR, with or
    without compounding. *)
Theorem getAPR_without_rebalance this :
  neverRebalanced this -> getAPR this = getRunningAPR this.
Proof.
  intros H. destruct (neverRebalanced_ledger this H) as (Hr & _).
  unfold getAPR. rewrite Hr. cbn [List.length Nat.ltb Nat.leb].
  now rewrite andb_false_r.
Qed.

Lemma getAPR_without_rebalance_witness :
  getAPR earningRun = getRunningAPR earningRun.
Proof.
  apply (getAPR_without_rebalance earningRun).
  do 2 apply neverRebalanced_update. apply neverRebalanced_new.
Defined.



(** The list over which [getWeightedPositionAPR] runs: the completed
    records, and the open sub-position when it has data points. *)
Definition allPositions (this : Position) : list PositionResult :=
  if (0 <? currentPositionDataPoints this)%nat then
    positionResults this ++
    [ {| duration := currentPositionDataPoints this;
         fees := currentPositionFees this;
         gasCost := 0;
         startingCapital :=
           currentPositionCapital this - currentPositionFees this |} ]
  else positionResults this.

(** Records with finite entries, a non-zero starting capital and a positive
    duration; [total] is the sum of their returns (net fees over starting
    capital) and [points] the sum of their durations. *)
Inductive finiteRecords : list PositionResult -> R -> nat -> Prop :=
| finiteRecords_nil : finiteRecords [] 0 0
| finiteRecords_cons r records (f g c total : R) points :
    fees r = Fin f -> gasCost r = Fin g -> startingCapital r = Fin c ->
    c <> 0%R -> (0 < duration r)%nat ->
    finiteRecords records total points ->
    finiteRecords (r :: records) ((f - g) / c + total) (duration r + points).

(** The body of the loop of [getWeightedPositionAPR]. *)
Definition accumulate (granularity : GranularityType)
    : number * number -> PositionResult -> number * number :=
  fun '(totalWeightedAPR, totalDataPoints) position =>
  let netFees := fees position - gasCost position in
  let netAPR :=
    match granularity with
    | daily =>
        netFees / startingCapital position *
        (365 / of_nat (duration position)) * 100
    | hourly =>
        netFees / startingCapital position *
        (8760 / of_nat (duration position)) * 100
    end in
  (totalWeightedAPR + netAPR * of_nat (duration position),
   totalDataPoints + of_nat (duration position)).

Lemma getWeightedPositionAPR_loop this :
  getWeightedPositionAPR this =
  if (List.length (allPositions this) =? 0)%nat then Fin 0
  else
    let '(totalWeightedAPR, totalDataPoints) :=
      fold_left (accumulate (granularityType this)) (allPositions this)
        (Fin 0, Fin 0) in
    if totalDataPoints >? 0 then totalWeightedAPR / totalDataPoints else Fin 0.
Proof. reflexivity. Qed.

Lemma accumulate_finite granularity records total points :
  finiteRecords records total points ->
  forall A D : R,
    fold_left (accumulate granularity) records (Fin A, Fin D) =
    (Fin (A + total * perYear granularity * 100), Fin (D + INR points)).
Proof.
  induction 1 as [| r records f g c total points Hf Hg Hc Hc0 Hd _ IH];
    intros A D.
  - cbn. do 2 f_equal; lra.
  - cbn [fold_left]. unfold accumulate at 2. rewrite Hf, Hg, Hc. unfold of_nat.
    assert (Hn : (0 < INR (duration r))%R) by now apply lt_0_INR.
    assert (INR (duration r) <> 0)%R by lra.
    destruct granularity; js_fin; rewrite IH; cbn [perYear];
      f_equal; f_equal; rewrite ?plus_INR; field; split; assumption.
Qed.

(** X26.  The durations cancel: the weighted APR is the sum of the returns of the
    sub-positions, annualised over the total number of data points. *)
Theorem getWeightedPositionAPR_average this (total : R) (points : nat) :
  finiteRecords (allPositions this) total points -> points <> 0%nat ->
  getWeightedPositionAPR this =
  Fin (total * perYear (granularityType this) * 100 / INR points).
Proof.
  intros H Hp. rewrite getWeightedPositionAPR_loop.
  rewrite (accumulate_finite (granularityType this) _ total points H 0 0).
  destruct (allPositions this) as [|r records] eqn:E.
  { inversion H; subst. contradiction. }
  cbn [List.length Nat.eqb].
  assert (Hn : (0 < INR points)%R) by (apply lt_0_INR; lia).
  rewrite gtb_Fin, Rltb_true by lra.
  assert (0 + INR points <> 0)%R by lra. js_fin.
  f_equal. field. lra.
Qed.

(** A state with one completed record of two data points. *)
Definition oneRecordPosition : Position :=
  fullRangePosition
    <| positionResults :=
         [ {| duration := 2; fees := 10; gasCost := 1;
              startingCapital := 100 |} ] |>.

Lemma getWeightedPositionAPR_average_witness :
  getWeightedPositionAPR oneRecordPosition =
  Fin (((10 - 1) / 100 + 0) * perYear (granularityType oneRecordPosition) * 100 /
       INR (2 + 0)).
Proof.
  apply (getWeightedPositionAPR_average oneRecordPosition
           ((10 - 1) / 100 + 0) (2 + 0)); [|discriminate].
  apply (finiteRecords_cons
           {| duration := 2; fees := 10; gasCost := 1; startingCapital := 100 |}
           [] 10 1 100 0 0);
    [reflexivity | reflexivity | reflexivity | lra | apply Nat.lt_0_2
    | apply finiteRecords_nil].
Defined.

(** ** The status report *)

(** X27.  An opening [rebalance] resets the benchmark of the report: it moves the
    reference price to the current price, so that holding is worth the
    initial amount again, whatever the price did before. *)
Theorem rebalance_resets_hold_benchmark this t tvl gas (I p : R) :
  initialAmount this = Fin I -> currentToken0Price this = Fin p -> p <> 0%R ->
  calculateHoldStrategyValue (rebalance this t tvl gas false) = Fin I.
Proof.
  intros HI Hp Hp0.
  destruct (rebalance_step this t tvl gas false)
    as ((_ & _ & _ & _ & _ & _ & _ & E8) & (C1 & _)
        & (_ & _ & _ & _ & _ & _ & G7 & _)).
  cbv zeta in *. unfold calculateHoldStrategyValue.
  rewrite E8, C1, G7, HI, Hp.
  assert (2 <> 0)%R by lra. js_fin. f_equal. field. assumption.
Qed.

Lemma rebalance_resets_hold_benchmark_witness :
  calculateHoldStrategyValue (rebalance scenarioPosition 0 1000000 5 false) =
  Fin 100000.
Proof.
  apply (rebalance_resets_hold_benchmark scenarioPosition 0 1000000 5
           100000 100000); [reflexivity | reflexivity | lra].
Defined.

Section Report.

Variable toFixed : number -> nat -> string.

(** X28.  The note of the report: "Start" after the first data point of a
    position, whatever the flags; after a later data point "Rebalanced" when
    the step was flagged, and otherwise "End" on the last data point. *)
Theorem status_notes :
  (forall initialAmount positionType initialTick initialTvl initialToken0Price
          initialToken1Price totalPoolLiquidity token0Symbol token1Symbol
          granularityType tickSpacing token0Decimals token1Decimals
          useCompoundingAPR dataPoint wasRebalanced isLastDataPoint,
     let fresh :=
       new_LiquidUnitPosition initialAmount positionType initialTick
         initialTvl initialToken0Price initialToken1Price totalPoolLiquidity
         token0Symbol token1Symbol granularityType tickSpacing token0Decimals
         token1Decimals useCompoundingAPR in
     UnifiedOutputStatus.notes
       (currentStatus toFixed (snd (update fresh dataPoint wasRebalanced))
          isLastDataPoint) = "Start"%string) /\
  (forall this dataPoint wasRebalanced isLastDataPoint,
     totalDataPoints this <> 0%nat ->
     UnifiedOutputStatus.notes
       (currentStatus toFixed (snd (update this dataPoint wasRebalanced))
          isLastDataPoint) =
     (if wasRebalanced then "Rebalanced"
      else if isLastDataPoint then "End" else EmptyString)%string).
Proof.
  split.
  - intros. cbn [UnifiedOutputStatus.notes currentStatus].
    destruct (update_step fresh dataPoint wasRebalanced)
      as ((_ & _ & _ & _ & _ & -> & _) & _).
    reflexivity.
  - intros this dataPoint wasRebalanced isLastDataPoint Hn.
    cbn [UnifiedOutputStatus.notes currentStatus].
    destruct (update_step this dataPoint wasRebalanced)
      as ((_ & _ & _ & _ & _ & -> & _) & _).
    destruct (update_frame this dataPoint wasRebalanced) as (_ & (-> & _) & _).
    destruct (totalDataPoints this) as [|n]; [contradiction | reflexivity].
Qed.

(** The extremes of the portfolio value are tracked: the maximum and the
    minimum are numbers, the initial amount and the minimum are not
    negative, and once the maximum has passed the initial amount the minimum
    is at most the maximum. *)
Definition portfolioTracked (this : Position) : Prop :=
  exists M m I : R,
    maxPortfolioValue this = Fin M /\ minPortfolioValue this = Fin m /\
    initialAmount this = Fin I /\
    (0 <= I)%R /\ (0 <= m)%R /\ (I < M -> m <= M)%R.

Lemma MAX_VALUE_nonneg : (0 <= (2 - powerRZ 2 (-52)) * powerRZ 2 1023)%R.
Proof.
  pose proof (pow2_pos 1023) as H1. pose proof (pow2_pos (-52)) as H2.
  assert (powerRZ 2 (-52) <= 1)%R.
  { cbn [powerRZ]. apply Rle_trans with (/ 1)%R; [|rewrite Rinv_1; lra].
    apply Rinv_le_contravar; [lra | apply pow_R1_Rle; lra]. }
  nra.
Qed.

Lemma portfolioTracked_new
    (I : R) positionType initialTick initialTvl initialToken0Price
    initialToken1Price totalPoolLiquidity token0Symbol token1Symbol
    granularityType tickSpacing token0Decimals token1Decimals
    useCompoundingAPR :
  (0 <= I)%R ->
  portfolioTracked
    (new_LiquidUnitPosition (Fin I) positionType initialTick initialTvl
       initialToken0Price initialToken1Price totalPoolLiquidity token0Symbol
       token1Symbol granularityType tickSpacing token0Decimals token1Decimals
       useCompoundingAPR).
Proof.
  intros HI. exists 0%R, ((2 - powerRZ 2 (-52)) * powerRZ 2 1023)%R, I.
  repeat split; try assumption; try apply MAX_VALUE_nonneg. lra.
Qed.

Lemma portfolioTracked_update this dataPoint wasRebalanced (v : R) :
  portfolioTracked this ->
  (let this' := snd (update this dataPoint wasRebalanced) in
   getCurrentPositionValue this' + cumulativeFees this' = Fin v) ->
  (0 <= v)%R ->
  portfolioTracked (snd (update this dataPoint wasRebalanced)).
Proof.
  intros (M & m & I & HM & Hm & HI & HI0 & Hm0 & Hord) Hv Hv0.
  destruct (update_step this dataPoint wasRebalanced) as ((_ & _ & E3 & _) & _).
  destruct (update_frame this dataPoint wasRebalanced) as (_ & _ & _ & F1 & F2).
  cbv zeta in *. rewrite Hv, HM in F1. rewrite Hv, Hm, F1, HI in F2.
  rewrite Math_max_Fin in F1, F2. rewrite gtb_Fin, Math_min_Fin in F2.
  exists (Rmax M v), (if Rltb I (Rmax M v) then Rmin m v else m), I.
  split; [assumption|]. split; [now destruct (Rltb I (Rmax M v))|].
  split; [congruence|]. split; [assumption|].
  pose proof (Rmax_r M v). pose proof (Rmin_r m v).
  destruct (Rltb_spec I (Rmax M v)); split; try lra.
  apply Rmin_glb; assumption.
Qed.

Lemma portfolioTracked_rebalance this t tvl gas closing :
  portfolioTracked this -> portfolioTracked (rebalance this t tvl gas closing).
Proof.
  intros (M & m & I & HM & Hm & HI & H).
  destruct (rebalance_step this t tvl gas closing)
    as (_ & (C1 & _) & (_ & _ & _ & _ & _ & _ & _ & _ & _ & G10 & G11 & _)).
  cbv zeta in *. exists M, m, I. rewrite C1, G10, G11. auto.
Qed.

Lemma portfolioTracked_drawdown this isLastDataPoint :
  portfolioTracked this ->
  exists d : R,
    UnifiedOutputStatus.maxDrawdown
      (currentStatus toFixed this isLastDataPoint) = Fin d /\
    (0 <= d <= 100)%R.
Proof.
  intros (M & m & I & HM & Hm & HI & HI0 & Hm0 & Hord).
  cbn [UnifiedOutputStatus.maxDrawdown currentStatus].
  rewrite HM, Hm, HI, gtb_Fin.
  destruct (Rltb_spec I M) as [Hlt | Hge].
  - assert (M <> 0)%R by lra. js_fin. eexists. split; [reflexivity|].
    apply percent_bounds; [assumption|]. left. specialize (Hord Hlt). lra.
  - exists 0%R. split; [reflexivity | lra].
Qed.



(** X30.  The report on a new position whose price of reference is the asset0
    price: the portfolio is worth the amount invested, the profit, the
    return, the APR, the gain against holding, the drawdown and the
    impermanent loss are 0, and the maximal gain is -100 (the maximum of the
    portfolio value starts at 0). *)
Theorem fresh_status
    (inv p : R) positionType initialTick initialTvl initialToken1Price
    totalPoolLiquidity token0Symbol token1Symbol granularityType tickSpacing
    token0Decimals token1Decimals useCompoundingAPR isLastDataPoint :
  properWidth positionType -> (0 < inv)%R -> (0 < p)%R ->
  includes (toUpperCase token0Symbol) "BTC" = true \/
  includes (toUpperCase token1Symbol) "BTC" = false ->
  let status :=
    currentStatus toFixed
      (new_LiquidUnitPosition (Fin inv) positionType initialTick initialTvl
         (Fin p) initialToken1Price totalPoolLiquidity token0Symbol
         token1Symbol granularityType tickSpacing token0Decimals
         token1Decimals useCompoundingAPR)
      isLastDataPoint in
  UnifiedOutputStatus.totalPortfolioValue status = Fin inv /\
  UnifiedOutputStatus.pnl status = Fin 0 /\
  UnifiedOutputStatus.return_ status = Fin 0 /\
  UnifiedOutputStatus.apr status = Fin 0 /\
  UnifiedOutputStatus.netGainVsHold status = Fin 0 /\
  UnifiedOutputStatus.maxDrawdown status = Fin 0 /\
  UnifiedOutputStatus.maxGain status = Fin (-100) /\
  UnifiedOutputStatus.impermanentLoss status = Fin 0 /\
  UnifiedOutputStatus.notes status =
    (if isLastDataPoint then "End" else EmptyString)%string.
Proof.
  intros Hty Hinv Hp Hsym.
  pose proof (new_position_value inv p positionType initialTick initialTvl
                initialToken1Price totalPoolLiquidity token0Symbol token1Symbol
                granularityType tickSpacing token0Decimals token1Decimals
                useCompoundingAPR Hty Hp Hsym) as Hv.
  pose proof (new_position_returns (Fin inv) positionType initialTick initialTvl
                (Fin p) initialToken1Price totalPoolLiquidity token0Symbol
                token1Symbol granularityType tickSpacing token0Decimals
                token1Decimals useCompoundingAPR) as Hapr.
  cbv zeta in Hapr. destruct Hapr as (_ & _ & _ & Hapr & _).
  set (fresh := new_LiquidUnitPosition _ _ _ _ _ _ _ _ _ _ _ _ _ _) in *.
  assert (Hc : cumulativeFees fresh = Fin 0) by reflexivity.
  assert (HI : initialAmount fresh = Fin inv) by reflexivity.
  assert (H0 : initialToken0Price fresh = Fin p) by reflexivity.
  assert (Hp0 : currentToken0Price fresh = Fin p) by reflexivity.
  assert (HM : maxPortfolioValue fresh = Fin 0) by reflexivity.
  assert (Hn : totalDataPoints fresh = 0%nat) by reflexivity.
  assert (Hw : currentWasRebalanced fresh = false) by reflexivity.
  assert (Hbtc : currentBtcPrice fresh = Fin p).
  { change (currentBtcPrice fresh)
      with (if includes (toUpperCase token0Symbol) "BTC" then Fin p
            else if includes (toUpperCase token1Symbol) "BTC"
                 then initialToken1Price else Fin p).
    destruct Hsym as [-> | ->]; [reflexivity|].
    now destruct (includes (toUpperCase token0Symbol) "BTC"). }
  cbv zeta.
  cbn [UnifiedOutputStatus.totalPortfolioValue UnifiedOutputStatus.pnl
       UnifiedOutputStatus.return_ UnifiedOutputStatus.apr
       UnifiedOutputStatus.netGainVsHold UnifiedOutputStatus.maxDrawdown
       UnifiedOutputStatus.maxGain UnifiedOutputStatus.impermanentLoss
       UnifiedOutputStatus.notes currentStatus].
  unfold calculateHoldStrategyValue, calculateImpermanentLoss.
  rewrite Hv, Hc, HI, H0, Hp0, HM, Hn, Hw, Hbtc, Hapr.
  assert (inv <> 0)%R by lra. assert (p <> 0)%R by lra. assert (2 <> 0)%R by lra.
  js_fin. rewrite gtb_Fin, Rltb_false by lra.
  replace (p / p)%R with 1%R by (field; assumption).
  rewrite sqrt_Fin by lra. rewrite sqrt_1.
  assert (1 + 1 <> 0)%R by lra. js_fin.
  repeat split; f_equal; field; assumption.
Qed.

End Report.

Lemma status_notes_witness :
  UnifiedOutputStatus.notes
    (currentStatus (fun _ _ => EmptyString) firstStep true) = "Start"%string /\
  UnifiedOutputStatus.notes
    (currentStatus (fun _ _ => EmptyString)
       (snd (update firstStep (snapshot 0 5 7) true)) true) =
    "Rebalanced"%string.
Proof.
  destruct firstStep_state as (Hn & _).
  split.
  - exact (proj1 (status_notes (fun _ _ => EmptyString))
             100000 full_range 0 1000000 100000 0.00001 1000000
             "USDC"%string "cbBTC"%string daily 2000 6%Z 8%Z true
             (snapshot 0 0 0) false true).
  - exact (proj2 (status_notes (fun _ _ => EmptyString))
             firstStep (snapshot 0 5 7) true true Hn).
Defined.

Lemma fullRangePosition_balances :
  usdcAmount fullRangePosition = Fin (100000 / 2) /\
  btcAmount fullRangePosition = Fin (100000 / 2 / 100000).
Proof.
  unfold fullRangePosition, new_AerodromeLiquidPosition, new_LiquidUnitPosition.
  cbv zeta.
  match goal with
  | |- context [calculateTokensAndLiquidity ?x ?i ?q] =>
      destruct (calculateTokensAndLiquidity_full_range x i q eq_refl)
        as (-> & -> & _)
  end.
  assert (2 <> 0)%R by lra. assert (100000 <> 0)%R by lra. js_fin.
  split; reflexivity.
Qed.

Lemma firstStep_value :
  getCurrentPositionValue firstStep + cumulativeFees firstStep =
  Fin (100000 / 2 + 100000 / 2 / 100000 * 0.00001 + (0 + 0)).
Proof.
  destruct firstStep_ledger as (_ & T2 & _).
  destruct fullRangePosition_balances as (Hu & Hb).
  unfold firstStep in *.
  destruct (update_frame fullRangePosition (snapshot 0 0 0) false)
    as ((_ & _ & _ & _ & _ & _ & _ & _ & _ & F10 & F11 & _)
        & (_ & _ & _ & _ & G5 & _) & _).
  cbv zeta in *. unfold getCurrentPositionValue.
  rewrite T2, F10, F11, G5, Hu, Hb.
  change (btcPriceOf (token0Symbol fullRangePosition)
            (token1Symbol fullRangePosition)
            (token0Price (snapshot 0 0 0)) (token1Price (snapshot 0 0 0)))
    with (Fin 0.00001).
  reflexivity.
Qed.


Lemma fresh_status_witness :
  let status := currentStatus (fun _ _ => EmptyString) btcFirstPosition true in
  UnifiedOutputStatus.totalPortfolioValue status = Fin 100000 /\
  UnifiedOutputStatus.pnl status = Fin 0 /\
  UnifiedOutputStatus.return_ status = Fin 0 /\
  UnifiedOutputStatus.apr status = Fin 0 /\
  UnifiedOutputStatus.netGainVsHold status = Fin 0 /\
  UnifiedOutputStatus.maxDrawdown status = Fin 0 /\
  UnifiedOutputStatus.maxGain status = Fin (-100) /\
  UnifiedOutputStatus.impermanentLoss status = Fin 0 /\
  UnifiedOutputStatus.notes status = "End"%string.
Proof.
  apply (fresh_status (fun _ _ => EmptyString) 100000 100000 (percent 50));
    [exists 50%R; split; [reflexivity | lra] | lra | lra | left; reflexivity].
Defined.
